(** * moltworker narrative subsystem: session store, model registry,
      persona voice modulation and the narrative engine.

    A shallow embedding of the TypeScript sources
      - narrative/session.ts            (SessionManager)
      - narrative/model-integration.ts  (ModelManager)
      - narrative/persona.ts            (PersonaManager, EmotionModulator)
      - narrative/engine.ts             (NarrativeEngine)
      - narrative/omnichannel.ts        (channel adapters, OmnichannelRouter)
      - narrative/enhancements.ts       (AdvancedCache)
    followed by the properties established about them.

    Conventions.
    - [Date.now()] is an explicit argument [now : Z]; one synchronous call
      reads the clock as one instant.
    - [uuidv4()] is an explicit argument (the identifier that was drawn).
    - [Math.random()] is an explicit list of draws.
    - JavaScript numbers that the code only stores, copies or compares with
      integers are [Z]; fractional knobs are exact rationals [Q].
    - A [Map] owned by a manager is a [gmap]; where iteration order decides
      the result (the model registry) it is an insertion-ordered list. *)

From Stdlib Require Import ZArith QArith Qminmax Lqa Lia String Ascii List Bool
  Sorted.
From stdpp Require Import base option list gmap strings pretty fin_maps.

#[local] Set Warnings "-register-all".

Local Open Scope Z_scope.

(* ===================================================================== *)
(** * JavaScript values, objects and the JSON round trip                  *)
(* ===================================================================== *)

Module JS.

(** Values of type [unknown]: what a session variable, a consequence value
    or a context entry may hold. [JMap] is a [Map] object with string keys,
    in insertion order; [JObj] is a plain object, its properties in own
    property order. *)
Inductive value : Type :=
| JUndefined
| JNull
| JBool (b : bool)
| JNum (q : Q)
| JNaN
| JStr (s : string)
| JArr (items : list value)
| JObj (props : list (string * value))
| JMap (entries : list (string * value)).

Abbreviation obj := (list (string * value)).

(** Induction principle that reaches the values nested in arrays, objects
    and maps. *)
Section value_induction.
Variable P : value -> Prop.
Hypothesis Hundef : P JUndefined.
Hypothesis Hnull : P JNull.
Hypothesis Hbool : forall b, P (JBool b).
Hypothesis Hnum : forall q, P (JNum q).
Hypothesis Hnan : P JNaN.
Hypothesis Hstr : forall s, P (JStr s).
Hypothesis Harr : forall l, Forall P l -> P (JArr l).
Hypothesis Hobj : forall ps, Forall (fun kv => P (snd kv)) ps -> P (JObj ps).
Hypothesis Hmap : forall ps, Forall (fun kv => P (snd kv)) ps -> P (JMap ps).

End value_induction.

(** ** Truthiness and [typeof] *)

Definition truthy (v : value) : bool :=
  match v with
  | JUndefined | JNull | JNaN => false
  | JBool b => b
  | JNum q => negb (Qeq_bool q 0)
  | JStr s => negb (String.eqb s "")
  | JArr _ | JObj _ | JMap _ => true
  end.

(** [typeof v === 'object'] *)
Definition typeof_object (v : value) : bool :=
  match v with
  | JNull | JArr _ | JObj _ | JMap _ => true
  | _ => false
  end.

(** ** Own property order

    The own keys of an ordinary object come out with the array indices
    first, in ascending numeric order, and then the other string keys in
    the order they were created. *)

Definition digit_of (c : ascii) : option N :=
  let n := N_of_ascii c in
  if ((48 <=? n) && (n <=? 57))%N then Some (n - 48)%N else None.

Fixpoint digits_value (s : string) (acc : N) : option N :=
  match s with
  | EmptyString => Some acc
  | String c r =>
      match digit_of c with
      | Some d => digits_value r (acc * 10 + d)%N
      | None => None
      end
  end.

(** A canonical array index: decimal digits without a leading zero, below
    2^32 - 1. *)
Definition array_index (k : string) : option N :=
  match k with
  | EmptyString => None
  | String "0" EmptyString => Some 0%N
  | String "0" _ => None
  | _ =>
      match digits_value k 0 with
      | Some n => if (n <? 4294967295)%N then Some n else None
      | None => None
      end
  end.

Fixpoint obj_has (k : string) (o : obj) : bool :=
  match o with
  | [] => false
  | (k', _) :: r => String.eqb k k' || obj_has k r
  end.

(** [o[k]]: [undefined] when the property is absent. Only own properties
    are looked up: the members that a plain object inherits
    ([constructor], [toString], [__proto__] and the like) are not part of
    the model, which reads [undefined] under their names too. *)
Fixpoint obj_get (k : string) (o : obj) : value :=
  match o with
  | [] => JUndefined
  | (k', v) :: r => if String.eqb k k' then v else obj_get k r
  end.

Fixpoint obj_replace (k : string) (v : value) (o : obj) : obj :=
  match o with
  | [] => []
  | (k', v') :: r =>
      if String.eqb k k' then (k, v) :: r else (k', v') :: obj_replace k v r
  end.

(** Position of a new array-index key [n]: before the first key that is not
    an array index or is a larger one. *)
Fixpoint obj_insert_index (n : N) (k : string) (v : value) (o : obj) : obj :=
  match o with
  | [] => [(k, v)]
  | (k', v') :: r =>
      match array_index k' with
      | Some m =>
          if (m <? n)%N then (k', v') :: obj_insert_index n k v r
          else (k, v) :: (k', v') :: r
      | None => (k, v) :: (k', v') :: r
      end
  end.

(** [o[k] = v] on a plain object. *)
Definition obj_set (k : string) (v : value) (o : obj) : obj :=
  if obj_has k o then obj_replace k v o
  else match array_index k with
       | Some n => obj_insert_index n k v o
       | None => o ++ [(k, v)]
       end.

(** [Object.fromEntries(entries)] *)
Definition Object_fromEntries (entries : list (string * value)) : obj :=
  fold_left (fun acc kv => obj_set (fst kv) (snd kv) acc) entries [].

(** [map.set(k, v)] on a [Map]: a present key keeps its position. *)
Definition map_set (k : string) (v : value) (m : list (string * value))
  : list (string * value) :=
  if obj_has k m then obj_replace k v m else m ++ [(k, v)].

(** [Object.entries(v)]; [None] is the [TypeError] for [undefined] and
    [null]. *)
Definition Object_entries (v : value) : option (list (string * value)) :=
  match v with
  | JUndefined | JNull => None
  | JObj o => Some o
  | JArr l => Some (imap (fun i x => (pretty i, x)) l)
  | JStr s =>
      Some (imap (fun i c => (pretty i, JStr (String c EmptyString)))
              (list_ascii_of_string s))
  | JBool _ | JNum _ | JNaN | JMap _ => Some []
  end.

(** [new Map(entries)] *)
Definition Map_of_entries (entries : list (string * value))
  : list (string * value) :=
  fold_left (fun acc kv => map_set (fst kv) (snd kv) acc) entries [].

(** ** JSON

    The text produced by [JSON.stringify] is represented by the document
    it denotes. *)
Inductive json : Type :=
| JsNull
| JsBool (b : bool)
| JsNum (q : Q)
| JsStr (s : string)
| JsArr (items : list json)
| JsObj (members : list (string * json)).

(** [JSON.stringify]: [None] is the [undefined] result. A property whose
    value serialises to [undefined] is omitted; such an array element
    becomes [null]; [NaN] becomes [null]; a [Map] has no enumerable own
    property and becomes the empty object. *)
Fixpoint JSON_stringify (v : value) : option json :=
  match v with
  | JUndefined => None
  | JNull => Some JsNull
  | JBool b => Some (JsBool b)
  | JNum q => Some (JsNum q)
  | JNaN => Some JsNull
  | JStr s => Some (JsStr s)
  | JArr l =>
      Some (JsArr (List.map (fun x => match JSON_stringify x with
                                      | Some j => j
                                      | None => JsNull
                                      end) l))
  | JObj ps =>
      Some (JsObj
              ((fix members (ps : list (string * value)) :=
                  match ps with
                  | [] => []
                  | (k, x) :: r =>
                      match JSON_stringify x with
                      | Some j => (k, j) :: members r
                      | None => members r
                      end
                  end) ps))
  | JMap _ => Some (JsObj [])
  end.

(** [JSON.parse] of a document: members become properties in text order,
    which is the own property order of the object for every document that
    [JSON.stringify] writes. *)
Fixpoint JSON_parse (j : json) : value :=
  match j with
  | JsNull => JNull
  | JsBool b => JBool b
  | JsNum q => JNum q
  | JsStr s => JStr s
  | JsArr l => JArr (List.map JSON_parse l)
  | JsObj ms =>
      JObj ((fix props (ms : list (string * json)) :=
               match ms with
               | [] => []
               | (k, x) :: r => (k, JSON_parse x) :: props r
               end) ms)
  end.

(** Values that JSON represents as they are. *)
Fixpoint json_clean (v : value) : bool :=
  match v with
  | JUndefined | JNaN | JMap _ => false
  | JNull | JBool _ | JNum _ | JStr _ => true
  | JArr l => forallb json_clean l
  | JObj ps =>
      (fix all (ps : list (string * value)) :=
         match ps with
         | [] => true
         | (_, x) :: r => json_clean x && all r
         end) ps
  end.

End JS.

(* ===================================================================== *)
(** * narrative/types.ts: the session entity                              *)
(* ===================================================================== *)

Module Types.
Import JS.

Record EmotionalTransition : Type := mkEmotionalTransition {
  tr_from : string;
  tr_to : string;
  tr_trigger : string;
  tr_duration : Z
}.

Record EmotionalTone : Type := mkEmotionalTone {
  primary : string;
  secondary : option string;
  intensity : Q;
  transitions : list EmotionalTransition
}.

(** [EmotionalImpact] is used by the session store but declared nowhere in
    the sources; its two fields are the ones [makeChoice] reads. *)
Record EmotionalImpact : Type := mkEmotionalImpact {
  impact_primary : string;
  impact_intensity : Q
}.

Record ChoiceCondition : Type := mkChoiceCondition {
  cond_type : string;
  cond_operator : string;
  cond_variable : string;
  cond_value : value            (* [value?: unknown], absent = undefined *)
}.

Record StoryConsequence : Type := mkStoryConsequence {
  cons_type : string;           (* 'variable' | 'state' | 'branch' | 'event' | 'voice' *)
  cons_target : string;
  cons_value : value;           (* [value?: unknown], absent = undefined *)
  cons_delay : option Z
}.

Record StoryChoice : Type := mkStoryChoice {
  choice_id : string;
  choice_text : string;
  choice_description : option string;
  targetNode : string;
  conditions : option (list ChoiceCondition);
  consequences : option (list StoryConsequence);
  emotionalImpact : option EmotionalImpact;
  choice_voiceProfile : option string
}.

Record NarrativeState : Type := mkNarrativeState {
  currentNode : string;
  storyPath : list string;
  choices : list StoryChoice;
  variables : obj;              (* Record<string, unknown> *)
  emotionalTone : EmotionalTone;
  pacing : string;
  tensionLevel : Z;             (* 0-100 *)
  lastActionAt : Z
}.

(** An optional property [p?: T] as an object carries it: no own property,
    an own property that holds [undefined], or an own property that holds
    a value. The first two read the same; they differ in the own keys of
    the object, and [JSON.stringify] writes neither, so that the second
    does not come back from a JSON text. *)
Inductive optional (A : Type) : Type :=
| Absent
| Undefined
| Present (a : A).
Arguments Absent {A}.
Arguments Undefined {A}.
Arguments Present {A} a.

(** The property that an object literal [{ p: x }] writes: an own property
    in either case, holding [undefined] when [x] is. *)
Definition written {A} (x : option A) : optional A :=
  match x with
  | Some a => Present a
  | None => Undefined
  end.

(** [thumbnail?: string]: [createSavePoint] writes the property in every
    save point it makes; a save point read from a JSON text may lack it. *)
Record SavePoint : Type := mkSavePoint {
  sp_id : string;
  sp_nodeId : string;
  sp_timestamp : Z;
  sp_description : string;
  sp_thumbnail : optional string
}.

Record SessionMetadata : Type := mkSessionMetadata {
  totalPlaytime : Z;
  sessionCount : Z;
  savePoints : list SavePoint;
  achievements : list string;
  customFlags : obj
}.

(** [context] (a [NarrativeContext]) and [personas] (a [PersonaMap]) stay
    JavaScript objects: the store reads and writes them by computed
    property names. [context.characterStates] is a [Map]. *)
Record NarrativeSession : Type := mkNarrativeSession {
  id : string;
  storyId : string;
  playerId : string;
  channel : string;             (* 'text' | 'voice' | 'visual' | 'hybrid' *)
  state : NarrativeState;
  context : obj;
  personas : obj;
  createdAt : Z;
  updatedAt : Z;
  metadata : SessionMetadata
}.

(** [Partial<NarrativeState>]: [None] is an absent key. *)
Record StateUpdates : Type := mkStateUpdates {
  u_currentNode : option string;
  u_storyPath : option (list string);
  u_choices : option (list StoryChoice);
  u_variables : option obj;
  u_emotionalTone : option EmotionalTone;
  u_pacing : option string;
  u_tensionLevel : option Z;
  u_lastActionAt : option Z
}.

(** Field assignments. *)
Definition with_currentNode (n : string) (st : NarrativeState) :=
  mkNarrativeState n (storyPath st) (choices st) (variables st)
    (emotionalTone st) (pacing st) (tensionLevel st) (lastActionAt st).
Definition with_storyPath (p : list string) (st : NarrativeState) :=
  mkNarrativeState (currentNode st) p (choices st) (variables st)
    (emotionalTone st) (pacing st) (tensionLevel st) (lastActionAt st).
Definition with_choices (c : list StoryChoice) (st : NarrativeState) :=
  mkNarrativeState (currentNode st) (storyPath st) c (variables st)
    (emotionalTone st) (pacing st) (tensionLevel st) (lastActionAt st).
Definition with_variables (v : obj) (st : NarrativeState) :=
  mkNarrativeState (currentNode st) (storyPath st) (choices st) v
    (emotionalTone st) (pacing st) (tensionLevel st) (lastActionAt st).
Definition with_emotionalTone (t : EmotionalTone) (st : NarrativeState) :=
  mkNarrativeState (currentNode st) (storyPath st) (choices st) (variables st)
    t (pacing st) (tensionLevel st) (lastActionAt st).
Definition with_pacing (p : string) (st : NarrativeState) :=
  mkNarrativeState (currentNode st) (storyPath st) (choices st) (variables st)
    (emotionalTone st) p (tensionLevel st) (lastActionAt st).
Definition with_tensionLevel (t : Z) (st : NarrativeState) :=
  mkNarrativeState (currentNode st) (storyPath st) (choices st) (variables st)
    (emotionalTone st) (pacing st) t (lastActionAt st).
Definition with_lastActionAt (t : Z) (st : NarrativeState) :=
  mkNarrativeState (currentNode st) (storyPath st) (choices st) (variables st)
    (emotionalTone st) (pacing st) (tensionLevel st) t.

Definition with_state (st : NarrativeState) (s : NarrativeSession) :=
  mkNarrativeSession (id s) (storyId s) (playerId s) (channel s) st
    (context s) (personas s) (createdAt s) (updatedAt s) (metadata s).
Definition with_context (c : obj) (s : NarrativeSession) :=
  mkNarrativeSession (id s) (storyId s) (playerId s) (channel s) (state s)
    c (personas s) (createdAt s) (updatedAt s) (metadata s).
Definition with_updatedAt (t : Z) (s : NarrativeSession) :=
  mkNarrativeSession (id s) (storyId s) (playerId s) (channel s) (state s)
    (context s) (personas s) (createdAt s) t (metadata s).
Definition with_metadata (m : SessionMetadata) (s : NarrativeSession) :=
  mkNarrativeSession (id s) (storyId s) (playerId s) (channel s) (state s)
    (context s) (personas s) (createdAt s) (updatedAt s) m.

Definition with_totalPlaytime (t : Z) (m : SessionMetadata) :=
  mkSessionMetadata t (sessionCount m) (savePoints m) (achievements m)
    (customFlags m).
Definition with_savePoints (l : list SavePoint) (m : SessionMetadata) :=
  mkSessionMetadata (totalPlaytime m) (sessionCount m) l (achievements m)
    (customFlags m).

End Types.

(* ===================================================================== *)
(** * The session as the object graph that JSON sees                      *)
(* ===================================================================== *)

Module Codec.
Import JS Types.

(** ** From the typed entity to the object *)

Definition opt_prop (k : string) (o : option value) : obj :=
  match o with
  | Some v => [(k, v)]
  | None => []
  end.

(** An optional [unknown] property: absent and [undefined] read the same. *)
Definition unknown_prop (k : string) (v : value) : obj :=
  match v with
  | JUndefined => []
  | _ => [(k, v)]
  end.

(** An own property as the object carries it. *)
Definition optional_prop {A} (k : string) (f : A -> value) (o : optional A)
  : obj :=
  match o with
  | Absent => []
  | Undefined => [(k, JUndefined)]
  | Present a => [(k, f a)]
  end.

Definition js_int (z : Z) : value := JNum (inject_Z z).
Definition js_strings (l : list string) : value := JArr (List.map JStr l).

Definition js_of_transition (t : EmotionalTransition) : value :=
  JObj [("from", JStr (tr_from t)); ("to", JStr (tr_to t));
        ("trigger", JStr (tr_trigger t)); ("duration", js_int (tr_duration t))].

Definition js_of_tone (t : EmotionalTone) : value :=
  JObj ([("primary", JStr (primary t))]
        ++ opt_prop "secondary" (JStr <$> secondary t)
        ++ [("intensity", JNum (intensity t));
            ("transitions", JArr (List.map js_of_transition (transitions t)))]).

Definition js_of_impact (i : EmotionalImpact) : value :=
  JObj [("primary", JStr (impact_primary i));
        ("intensity", JNum (impact_intensity i))].

Definition js_of_condition (c : ChoiceCondition) : value :=
  JObj ([("type", JStr (cond_type c)); ("operator", JStr (cond_operator c));
         ("variable", JStr (cond_variable c))]
        ++ unknown_prop "value" (cond_value c)).

Definition js_of_consequence (c : StoryConsequence) : value :=
  JObj ([("type", JStr (cons_type c)); ("target", JStr (cons_target c))]
        ++ unknown_prop "value" (cons_value c)
        ++ opt_prop "delay" (js_int <$> cons_delay c)).

Definition js_of_choice (c : StoryChoice) : value :=
  JObj ([("id", JStr (choice_id c)); ("text", JStr (choice_text c))]
        ++ opt_prop "description" (JStr <$> choice_description c)
        ++ [("targetNode", JStr (targetNode c))]
        ++ opt_prop "conditions"
             ((fun l => JArr (List.map js_of_condition l)) <$> conditions c)
        ++ opt_prop "consequences"
             ((fun l => JArr (List.map js_of_consequence l)) <$> consequences c)
        ++ opt_prop "emotionalImpact" (js_of_impact <$> emotionalImpact c)
        ++ opt_prop "voiceProfile" (JStr <$> choice_voiceProfile c)).

Definition js_of_state (st : NarrativeState) : value :=
  JObj [("currentNode", JStr (currentNode st));
        ("storyPath", js_strings (storyPath st));
        ("choices", JArr (List.map js_of_choice (choices st)));
        ("variables", JObj (variables st));
        ("emotionalTone", js_of_tone (emotionalTone st));
        ("pacing", JStr (pacing st));
        ("tensionLevel", js_int (tensionLevel st));
        ("lastActionAt", js_int (lastActionAt st))].

Definition js_of_savePoint (p : SavePoint) : value :=
  JObj ([("id", JStr (sp_id p)); ("nodeId", JStr (sp_nodeId p));
         ("timestamp", js_int (sp_timestamp p));
         ("description", JStr (sp_description p))]
        ++ optional_prop "thumbnail" JStr (sp_thumbnail p)).

Definition js_of_metadata (m : SessionMetadata) : value :=
  JObj [("totalPlaytime", js_int (totalPlaytime m));
        ("sessionCount", js_int (sessionCount m));
        ("savePoints", JArr (List.map js_of_savePoint (savePoints m)));
        ("achievements", js_strings (achievements m));
        ("customFlags", JObj (customFlags m))].

(** The own properties of a session object, in the order [createSession]
    writes them. *)
Definition js_of_session (s : NarrativeSession) : obj :=
  [("id", JStr (id s)); ("storyId", JStr (storyId s));
   ("playerId", JStr (playerId s)); ("channel", JStr (channel s));
   ("state", js_of_state (state s));
   ("context", JObj (context s));
   ("personas", JObj (personas s));
   ("createdAt", js_int (createdAt s));
   ("updatedAt", js_int (updatedAt s));
   ("metadata", js_of_metadata (metadata s))].

(** ** Reading an object at the declared type

    [JSON.parse(data) as NarrativeSession] checks nothing; the typed view
    exists exactly for the objects that have the declared shape. *)

Definition as_str (v : value) : option string :=
  match v with JStr s => Some s | _ => None end.
Definition as_num (v : value) : option Q :=
  match v with JNum q => Some q | _ => None end.
Definition as_int (v : value) : option Z :=
  match v with
  | JNum q => if (Qden q =? 1)%positive then Some (Qnum q) else None
  | _ => None
  end.
Definition as_obj (v : value) : option obj :=
  match v with JObj o => Some o | _ => None end.
Definition as_list {A} (f : value -> option A) (v : value) : option (list A) :=
  match v with JArr l => mapM f l | _ => None end.
Definition as_opt {A} (f : value -> option A) (v : value)
  : option (option A) :=
  match v with
  | JUndefined => Some None
  | _ => Some <$> f v
  end.

(** The property [k] of [o], with the way [o] carries it. *)
Definition as_optional {A} (f : value -> option A) (k : string) (o : obj)
  : option (optional A) :=
  if obj_has k o then
    match obj_get k o with
    | JUndefined => Some Undefined
    | v => Present <$> f v
    end
  else Some Absent.

Definition transition_of_js (v : value) : option EmotionalTransition :=
  o ← as_obj v;
  f ← as_str (obj_get "from" o);
  t ← as_str (obj_get "to" o);
  g ← as_str (obj_get "trigger" o);
  d ← as_int (obj_get "duration" o);
  Some (mkEmotionalTransition f t g d).

Definition tone_of_js (v : value) : option EmotionalTone :=
  o ← as_obj v;
  p ← as_str (obj_get "primary" o);
  s ← as_opt as_str (obj_get "secondary" o);
  i ← as_num (obj_get "intensity" o);
  t ← as_list transition_of_js (obj_get "transitions" o);
  Some (mkEmotionalTone p s i t).

Definition impact_of_js (v : value) : option EmotionalImpact :=
  o ← as_obj v;
  p ← as_str (obj_get "primary" o);
  i ← as_num (obj_get "intensity" o);
  Some (mkEmotionalImpact p i).

Definition condition_of_js (v : value) : option ChoiceCondition :=
  o ← as_obj v;
  t ← as_str (obj_get "type" o);
  p ← as_str (obj_get "operator" o);
  x ← as_str (obj_get "variable" o);
  Some (mkChoiceCondition t p x (obj_get "value" o)).

Definition consequence_of_js (v : value) : option StoryConsequence :=
  o ← as_obj v;
  t ← as_str (obj_get "type" o);
  g ← as_str (obj_get "target" o);
  d ← as_opt as_int (obj_get "delay" o);
  Some (mkStoryConsequence t g (obj_get "value" o) d).

Definition choice_of_js (v : value) : option StoryChoice :=
  o ← as_obj v;
  i ← as_str (obj_get "id" o);
  t ← as_str (obj_get "text" o);
  d ← as_opt as_str (obj_get "description" o);
  n ← as_str (obj_get "targetNode" o);
  cs ← as_opt (as_list condition_of_js) (obj_get "conditions" o);
  qs ← as_opt (as_list consequence_of_js) (obj_get "consequences" o);
  e ← as_opt impact_of_js (obj_get "emotionalImpact" o);
  w ← as_opt as_str (obj_get "voiceProfile" o);
  Some (mkStoryChoice i t d n cs qs e w).

Definition state_of_js (v : value) : option NarrativeState :=
  o ← as_obj v;
  n ← as_str (obj_get "currentNode" o);
  p ← as_list as_str (obj_get "storyPath" o);
  c ← as_list choice_of_js (obj_get "choices" o);
  x ← as_obj (obj_get "variables" o);
  e ← tone_of_js (obj_get "emotionalTone" o);
  g ← as_str (obj_get "pacing" o);
  t ← as_int (obj_get "tensionLevel" o);
  a ← as_int (obj_get "lastActionAt" o);
  Some (mkNarrativeState n p c x e g t a).

Definition savePoint_of_js (v : value) : option SavePoint :=
  o ← as_obj v;
  i ← as_str (obj_get "id" o);
  n ← as_str (obj_get "nodeId" o);
  t ← as_int (obj_get "timestamp" o);
  d ← as_str (obj_get "description" o);
  h ← as_optional as_str "thumbnail" o;
  Some (mkSavePoint i n t d h).

Definition metadata_of_js (v : value) : option SessionMetadata :=
  o ← as_obj v;
  t ← as_int (obj_get "totalPlaytime" o);
  c ← as_int (obj_get "sessionCount" o);
  p ← as_list savePoint_of_js (obj_get "savePoints" o);
  a ← as_list as_str (obj_get "achievements" o);
  f ← as_obj (obj_get "customFlags" o);
  Some (mkSessionMetadata t c p a f).

Definition session_of_js (o : obj) : option NarrativeSession :=
  i ← as_str (obj_get "id" o);
  s ← as_str (obj_get "storyId" o);
  p ← as_str (obj_get "playerId" o);
  c ← as_str (obj_get "channel" o);
  st ← state_of_js (obj_get "state" o);
  cx ← as_obj (obj_get "context" o);
  ps ← as_obj (obj_get "personas" o);
  ca ← as_int (obj_get "createdAt" o);
  ua ← as_int (obj_get "updatedAt" o);
  m ← metadata_of_js (obj_get "metadata" o);
  Some (mkNarrativeSession i s p c st cx ps ca ua m).

End Codec.

(* ===================================================================== *)
(** * narrative/session.ts: SessionManager                                *)
(* ===================================================================== *)

Module SessionManager.
Import JS Types Codec.

(** The two module-level maps. *)
Record Store : Type := mkStore {
  sessions : gmap string NarrativeSession;
  sessionExpiry : gmap string Z
}.

Definition empty_store : Store := mkStore ∅ ∅.

Definition DEFAULT_EXPIRY_MS : Z := 7 * 24 * 60 * 60 * 1000.

(** A call either returns, or is left through a [TypeError] (the session
    object keeps what was written to it before), or meets a write that the
    typed entity cannot hold. *)
Inductive outcome (A : Type) : Type :=
| Done (a : A) (st : Store)
| Threw (st : Store)
| Unmodelled.
Arguments Done {A} a st.
Arguments Threw {A} st.
Arguments Unmodelled {A}.

(** [sessions.set(sessionId, session)] *)
Definition sessions_set (sessionId : string) (session : NarrativeSession)
    (st : Store) : Store :=
  mkStore (<[sessionId := session]> (sessions st)) (sessionExpiry st).

Definition sessionExpiry_set (sessionId : string) (t : Z) (st : Store)
  : Store :=
  mkStore (sessions st) (<[sessionId := t]> (sessionExpiry st)).

(** [target.split('.')] *)
Fixpoint split_dot (s : string) : list string :=
  match s with
  | EmptyString => [EmptyString]
  | String c r =>
      if Ascii.eqb c "." then EmptyString :: split_dot r
      else match split_dot r with
           | h :: t => String c h :: t
           | [] => [String c EmptyString]
           end
  end.

Definition initial_context : obj :=
  [("worldState",
     JObj [("timeOfDay", JStr "day"); ("location", JStr "unknown");
           ("activeCharacters", JArr []); ("recentEvents", JArr []);
           ("environmentalFactors", JObj [])]);
   ("characterStates", JMap []);
   ("plotProgression", JNum 0);
   ("activeThreads", JArr []);
   ("completedMilestones", JArr []);
   ("foreshadowing", JArr []);
   ("playerPreferences",
     JObj [("preferredGenres", JArr []);
           ("matureContentAllowed", JBool false);
           ("violenceLevel", JStr "none"); ("romanceLevel", JStr "none");
           ("pacingPreference", JStr "moderate");
           ("voiceSpeed", JNum 1); ("voiceStyle", JStr "natural")])].

Section Manager.

(** [this.expiryMs] *)
Variable expiryMs : Z.

Definition createSession (sessionId storyId playerId channel
    initialNode : string) (personas : obj) (now : Z) (st : Store)
  : NarrativeSession * Store :=
  let session :=
    {| id := sessionId;
       storyId := storyId;
       playerId := playerId;
       channel := channel;
       state :=
         {| currentNode := initialNode;
            storyPath := [initialNode];
            choices := [];
            variables := [];
            emotionalTone :=
              {| primary := "neutral"; secondary := None;
                 intensity := (1 # 2)%Q; transitions := [] |};
            pacing := "moderate";
            tensionLevel := 0;
            lastActionAt := now |};
       context := initial_context;
       personas := personas;
       createdAt := now;
       updatedAt := now;
       metadata :=
         {| totalPlaytime := 0; sessionCount := 1; savePoints := [];
            achievements := []; customFlags := [] |} |} in
  (session,
   sessionExpiry_set sessionId (now + expiryMs)
     (sessions_set sessionId session st)).

Definition deleteSession (sessionId : string) (st : Store) : bool * Store :=
  (bool_decide (is_Some (sessions st !! sessionId)),
   mkStore (delete sessionId (sessions st))
           (delete sessionId (sessionExpiry st))).

(** [if (expiry && Date.now() > expiry)]: a missing or zero expiry never
    expires. *)
Definition getSession (sessionId : string) (now : Z) (st : Store)
  : option NarrativeSession * Store :=
  match sessions st !! sessionId with
  | None => (None, st)
  | Some session =>
      match sessionExpiry st !! sessionId with
      | Some expiry =>
          if negb (expiry =? 0) && (expiry <? now)
          then (None, snd (deleteSession sessionId st))
          else (Some session, st)
      | None => (Some session, st)
      end
  end.

(** [{ ...session.state, ...updates }] *)
Definition merge_state (st : NarrativeState) (u : StateUpdates)
  : NarrativeState :=
  {| currentNode := default (currentNode st) (u_currentNode u);
     storyPath := default (storyPath st) (u_storyPath u);
     choices := default (choices st) (u_choices u);
     variables := default (variables st) (u_variables u);
     emotionalTone := default (emotionalTone st) (u_emotionalTone u);
     pacing := default (pacing st) (u_pacing u);
     tensionLevel := default (tensionLevel st) (u_tensionLevel u);
     lastActionAt := default (lastActionAt st) (u_lastActionAt u) |}.

(** The body of [updateState] on the session it found. The path test
    reads [session.state.currentNode] after the merge, as the source
    does. *)
Definition updateState_body (updates : StateUpdates) (now : Z)
    (session : NarrativeSession) : NarrativeSession :=
  let session := with_state (merge_state (state session) updates) session in
  let session := with_state (with_lastActionAt now (state session)) session in
  let session := with_updatedAt now session in
  match u_currentNode updates with
  | Some node =>
      if negb (String.eqb node "")
         && negb (String.eqb node (currentNode (state session)))
      then with_state
             (with_storyPath (storyPath (state session) ++ [node])
                (state session)) session
      else session
  | None => session
  end.

Definition updateState (sessionId : string) (updates : StateUpdates)
    (now : Z) (st : Store) : option NarrativeSession * Store :=
  match getSession sessionId now st with
  | (None, st) => (None, st)
  | (Some session, st) =>
      let session := updateState_body updates now session in
      (Some session, sessions_set sessionId session st)
  end.

Definition setChoices (sessionId : string) (cs : list StoryChoice)
    (now : Z) (st : Store) : Store :=
  match getSession sessionId now st with
  | (None, st) => st
  | (Some session, st) =>
      let session := with_state (with_choices cs (state session)) session in
      let session := with_updatedAt now session in
      sessions_set sessionId session st
  end.

Definition setEmotionalTone (sessionId : string) (tone : EmotionalTone)
    (now : Z) (st : Store) : Store :=
  match getSession sessionId now st with
  | (None, st) => st
  | (Some session, st) =>
      let session :=
        with_state (with_emotionalTone tone (state session)) session in
      let session := with_updatedAt now session in
      sessions_set sessionId session st
  end.

Definition setVariable (sessionId key : string) (v : value)
    (now : Z) (st : Store) : Store :=
  match getSession sessionId now st with
  | (None, st) => st
  | (Some session, st) =>
      let session :=
        with_state
          (with_variables (obj_set key v (variables (state session)))
             (state session)) session in
      let session := with_updatedAt now session in
      sessions_set sessionId session st
  end.

Definition getVariable (sessionId key : string) (now : Z) (st : Store)
  : value * Store :=
  match getSession sessionId now st with
  | (None, st) => (JUndefined, st)
  | (Some session, st) => (obj_get key (variables (state session)), st)
  end.

Definition createSavePoint (savePointId sessionId description : string)
    (thumbnail : option string) (now : Z) (st : Store)
  : option SavePoint * Store :=
  match getSession sessionId now st with
  | (None, st) => (None, st)
  | (Some session, st) =>
      let savePoint :=
        {| sp_id := savePointId;
           sp_nodeId := currentNode (state session);
           sp_timestamp := now;
           sp_description := description;
           sp_thumbnail := written thumbnail |} in
      let session :=
        with_metadata
          (with_savePoints (savePoints (metadata session) ++ [savePoint])
             (metadata session)) session in
      let session := with_updatedAt now session in
      (Some savePoint, sessions_set sessionId session st)
  end.

Definition loadSavePoint (sessionId savePointId : string)
    (now : Z) (st : Store) : option NarrativeSession * Store :=
  match getSession sessionId now st with
  | (None, st) => (None, st)
  | (Some session, st) =>
      match List.find (fun sp => String.eqb (sp_id sp) savePointId)
              (savePoints (metadata session)) with
      | None => (None, st)
      | Some savePoint =>
          let session :=
            with_state
              (with_currentNode (sp_nodeId savePoint) (state session))
              session in
          let session := with_updatedAt now session in
          (Some session, sessions_set sessionId session st)
      end
  end.

Definition addPlaytime (sessionId : string) (milliseconds : Z)
    (now : Z) (st : Store) : Store :=
  match getSession sessionId now st with
  | (None, st) => st
  | (Some session, st) =>
      let session :=
        with_metadata
          (with_totalPlaytime
             (totalPlaytime (metadata session) + milliseconds)
             (metadata session)) session in
      let session := with_updatedAt now session in
      sessions_set sessionId session st
  end.

(** *** Choices and their consequences *)

(** What a sequence of in-place writes to a session object comes to. *)
Inductive effect : Type :=
| Ok (session : NarrativeSession)
| Throws (session : NarrativeSession)
| NoModel.

(** [(session.state as Record<string, unknown>)[target] = value], for a
    declared property and a value of its declared type. *)
Definition set_state_prop (target : string) (v : value)
    (st : NarrativeState) : option NarrativeState :=
  if String.eqb target "currentNode" then
    (fun x => with_currentNode x st) <$> as_str v
  else if String.eqb target "storyPath" then
    (fun x => with_storyPath x st) <$> as_list as_str v
  else if String.eqb target "choices" then
    (fun x => with_choices x st) <$> as_list choice_of_js v
  else if String.eqb target "variables" then
    (fun x => with_variables x st) <$> as_obj v
  else if String.eqb target "emotionalTone" then
    (fun x => with_emotionalTone x st) <$> tone_of_js v
  else if String.eqb target "pacing" then
    (fun x => with_pacing x st) <$> as_str v
  else if String.eqb target "tensionLevel" then
    (fun x => with_tensionLevel x st) <$> as_int v
  else if String.eqb target "lastActionAt" then
    (fun x => with_lastActionAt x st) <$> as_int v
  else None.

Definition applyStateChange (session : NarrativeSession)
    (target : string) (v : value) : effect :=
  let parts := split_dot target in
  match parts with
  | [_] =>
      (* Direct state property *)
      match set_state_prop target v (state session) with
      | Some st => Ok (with_state st session)
      | None => NoModel
      end
  | "context" :: rest =>
      (* Context property *)
      match rest with
      | contextKey :: nestedKey :: _ =>
          if negb (String.eqb nestedKey "")
             && typeof_object (obj_get contextKey (context session))
          then
            match obj_get contextKey (context session) with
            | JObj o =>
                Ok (with_context
                      (obj_set contextKey (JObj (obj_set nestedKey v o))
                         (context session)) session)
            | JNull => Throws session
            | _ => NoModel      (* a property put on an array or a Map *)
            end
          else Ok session
      | _ => Ok session
      end
  | _ => Ok session
  end.

Definition applyConsequence (session : NarrativeSession)
    (consequence : StoryConsequence) : effect :=
  let ty := cons_type consequence in
  if String.eqb ty "variable" then
    Ok (with_state
          (with_variables
             (obj_set (cons_target consequence) (cons_value consequence)
                (variables (state session))) (state session)) session)
  else if String.eqb ty "state" then
    applyStateChange session (cons_target consequence)
      (cons_value consequence)
  else if String.eqb ty "branch" then
    Ok (with_state
          (with_storyPath
             (storyPath (state session) ++ [cons_target consequence])
             (state session)) session)
  else if String.eqb ty "event" then
    match obj_get "activeThreads" (context session) with
    | JArr threads =>
        Ok (with_context
              (obj_set "activeThreads"
                 (JArr (threads ++ [JStr (cons_target consequence)]))
                 (context session)) session)
    | _ => Throws session
    end
  else Ok session.

Fixpoint applyConsequence_loop (l : list StoryConsequence)
    (session : NarrativeSession) : effect :=
  match l with
  | [] => Ok session
  | consequence :: rest =>
      match applyConsequence session consequence with
      | Ok session => applyConsequence_loop rest session
      | other => other
      end
  end.

Definition applyConsequences (session : NarrativeSession)
    (choice : StoryChoice) : effect :=
  match consequences choice with
  | None => Ok session
  | Some l => applyConsequence_loop l session
  end.

(** The part of [makeChoice] after the consequences. *)
Definition advance (choice : StoryChoice) (now : Z)
    (session : NarrativeSession) : NarrativeSession :=
  let session :=
    with_state (with_currentNode (targetNode choice) (state session))
      session in
  let session :=
    with_state
      (with_storyPath (storyPath (state session) ++ [targetNode choice])
         (state session)) session in
  let session := with_state (with_choices [] (state session)) session in
  let session :=
    match emotionalImpact choice with
    | Some impact =>
        let tone := emotionalTone (state session) in
        with_state
          (with_emotionalTone
             {| primary := impact_primary impact;
                secondary := secondary tone;
                intensity := impact_intensity impact;
                transitions := transitions tone |} (state session))
          session
    | None => session
    end in
  with_updatedAt now session.

(** The result is the pair [{ session, nextNode }]. *)
Definition makeChoice (sessionId choiceId : string) (now : Z) (st : Store)
  : outcome (option NarrativeSession * option string) :=
  match getSession sessionId now st with
  | (None, st) => Done (None, None) st
  | (Some session, st) =>
      match List.find (fun c => String.eqb (choice_id c) choiceId)
              (choices (state session)) with
      | None => Done (None, None) st
      | Some choice =>
          match applyConsequences session choice with
          | NoModel => Unmodelled
          | Throws session => Threw (sessions_set sessionId session st)
          | Ok session =>
              let session := advance choice now session in
              Done (Some session, Some (targetNode choice))
                   (sessions_set sessionId session st)
          end
      end
  end.

(** *** Persistence *)

(** [None] is [null]. *)
Definition exportSession (sessionId : string) (now : Z) (st : Store)
  : outcome (option json) :=
  match getSession sessionId now st with
  | (None, st) => Done None st
  | (Some session, st) =>
      match obj_get "characterStates" (context session) with
      | JMap entries =>
          let exportData :=
            obj_set "context"
              (JObj (obj_set "characterStates"
                       (JObj (Object_fromEntries entries))
                       (context session)))
              (js_of_session session) in
          Done (JSON_stringify (JObj exportData)) st
      | JArr _ | JStr _ => Unmodelled
      | _ => Threw st          (* not iterable *)
      end
  end.

(** [data] is the document the text denotes, [None] for a text that is
    not JSON. Every exception is caught and answered with [null]. *)
Definition importSession (data : option json) (now : Z) (st : Store)
  : outcome (option NarrativeSession) :=
  match data with
  | None => Done None st
  | Some doc =>
      match JSON_parse doc with
      | JObj parsed =>
          match obj_get "context" parsed with
          | JObj ctx =>
              match Object_entries (obj_get "characterStates" ctx) with
              | None => Done None st
              | Some entries =>
                  let parsed :=
                    obj_set "context"
                      (JObj (obj_set "characterStates"
                               (JMap (Map_of_entries entries)) ctx))
                      parsed in
                  match session_of_js parsed with
                  | Some parsed =>
                      Done (Some parsed)
                        (sessionExpiry_set (id parsed) (now + expiryMs)
                           (sessions_set (id parsed) parsed st))
                  | None => Unmodelled
                  end
              end
          | _ => Done None st
          end
      | _ => Done None st
      end
  end.

(** One run of the [cleanupLoop] timer callback: every entry of
    [sessionExpiry] with [now > expiry] is deleted from both maps. *)
Definition overdue (now : Z) (expiry : option Z) : bool :=
  match expiry with
  | Some expiry => expiry <? now
  | None => false
  end.

Definition cleanup (now : Z) (st : Store) : Store :=
  mkStore
    (filter (fun kv => overdue now (sessionExpiry st !! fst kv) = false)
       (sessions st))
    (filter (fun kv => overdue now (Some (snd kv)) = false)
       (sessionExpiry st)).

End Manager.
End SessionManager.

(* ===================================================================== *)
(** * narrative/model-integration.ts: ModelManager                        *)
(* ===================================================================== *)

Module ModelManager.

Record ModelConfig : Type := mkModelConfig {
  model_id : string;
  model_name : string;
  provider : string;
  endpoint : option string;
  capabilities : list string;
  contextWindow : Z;
  maxOutput : Z;
  quality : Z;                  (* 1-10 *)
  speed : Z;                    (* 1-10 *)
  censorshipLevel : Z;          (* 0-10 (0 = unrestricted) *)
  costPerToken : Q;
  rateLimitRpm : Z
}.

Record ModelRotationConfig : Type := mkModelRotationConfig {
  primaryModel : string;
  fallbackModels : list string;
  rotationStrategy : string;
  healthCheckInterval : Z;
  failureThreshold : Z
}.

(** [Partial<ModelRotationConfig>] *)
Record RotationUpdates : Type := mkRotationUpdates {
  u_primaryModel : option string;
  u_fallbackModels : option (list string);
  u_rotationStrategy : option string;
  u_healthCheckInterval : option Z;
  u_failureThreshold : option Z
}.

Record ModelFallbackChain : Type := mkModelFallbackChain {
  requestType : string;
  chain : list string;
  currentIndex : Z
}.

Record Health : Type := mkHealth {
  healthy : bool;
  lastCheck : Z;
  latency : Z
}.

(** The fields of a [ModelManager]. [models] keeps insertion order: that is
    the order [this.models.values()] yields. *)
Record Manager : Type := mkManager {
  models : list (string * ModelConfig);
  rotationConfig : ModelRotationConfig;
  fallbackChains : gmap string ModelFallbackChain;
  healthStatus : gmap string Health;
  usageCount : gmap string Z
}.

Definition fireworks (i n : string) (caps : list string)
    (ctx out q s : Z) (cost : Q) (rpm : Z) : ModelConfig :=
  mkModelConfig i n "fireworks"
    (Some "https://api.fireworks.ai/inference/v1") caps ctx out q s 0 cost rpm.

Definition ollama (i n : string) (caps : list string)
    (ctx out q s : Z) : ModelConfig :=
  mkModelConfig i n "ollama" (Some "http://localhost:11434") caps ctx out
    q s 0 0%Q 9999.

Definition DEFAULT_MODELS : list ModelConfig :=
  [ fireworks "llama-3.2-90b" "Llama 3.2 90B"
      ["text"; "creative"; "uncensored"; "reasoning"]
      131072 8192 10 7 (1 # 10000)%Q 60;
    fireworks "llama-3.1-70b" "Llama 3.1 70B"
      ["text"; "creative"; "uncensored"; "reasoning"]
      131072 8192 9 8 (8 # 100000)%Q 60;
    ollama "llama-3.2-3b" "Llama 3.2 3B"
      ["text"; "creative"; "uncensored"] 8192 4096 7 10;
    ollama "mistral-7b" "Mistral 7B"
      ["text"; "creative"; "uncensored"; "coding"] 32768 4096 8 9;
    fireworks "mistral-22b" "Mistral 22B"
      ["text"; "creative"; "uncensored"; "reasoning"]
      65536 8192 10 6 (15 # 100000)%Q 40;
    ollama "codellama-34b" "CodeLlama 34B"
      ["text"; "coding"; "uncensored"; "reasoning"] 16384 8192 9 7;
    ollama "phi-3.5-mini" "Phi-3.5 Mini"
      ["text"; "reasoning"; "coding"; "uncensored"] 131072 4096 8 10;
    fireworks "gemma-2-27b" "Gemma 2 27B"
      ["text"; "creative"; "uncensored"; "reasoning"]
      8192 4096 9 8 (5 # 100000)%Q 80;
    ollama "deepseek-coder-33b" "DeepSeek Coder 33B"
      ["text"; "coding"; "creative"; "uncensored"] 16384 8192 9 7;
    ollama "dolphin-mixtral-8x7b" "Dolphin Mixtral 8x7B"
      ["text"; "creative"; "uncensored"; "reasoning"] 32768 8192 9 6;
    ollama "wizard-vicuna-13b" "Wizard Vicuna 13B"
      ["text"; "creative"; "uncensored"; "reasoning"] 16384 4096 8 8;
    ollama "nous-hermes-2-mixtral" "Nous Hermes 2 Mixtral"
      ["text"; "creative"; "uncensored"; "reasoning"] 32768 8192 9 7 ].

(** ** The insertion-ordered [Map] of models *)

Fixpoint models_get (k : string) (l : list (string * ModelConfig))
  : option ModelConfig :=
  match l with
  | [] => None
  | (k', m) :: r => if String.eqb k k' then Some m else models_get k r
  end.

(** [map.set(k, m)]: a present key keeps its place. *)
Fixpoint models_set (k : string) (m : ModelConfig)
    (l : list (string * ModelConfig)) : list (string * ModelConfig) :=
  match l with
  | [] => [(k, m)]
  | (k', m') :: r =>
      if String.eqb k k' then (k, m) :: r else (k', m') :: models_set k m r
  end.

Definition models_values (l : list (string * ModelConfig))
  : list ModelConfig := List.map snd l.

(** ** [Array.prototype.sort], which is stable *)

Section Sort.
Context {A : Type}.
(** [cmp a b]: negative when [a] sorts first. *)
Variable cmp : A -> A -> Z.

Fixpoint sort_insert (x : A) (l : list A) : list A :=
  match l with
  | [] => [x]
  | y :: r => if cmp x y <=? 0 then x :: y :: r else y :: sort_insert x r
  end.

Fixpoint sort (l : list A) : list A :=
  match l with
  | [] => []
  | x :: r => sort_insert x (sort r)
  end.
End Sort.

(** Uncensored first ([censorshipLevel = 0]), then by quality. *)
Definition by_uncensored_then_quality (a b : ModelConfig) : Z :=
  let aUncensored := if censorshipLevel a =? 0 then 1 else 0 in
  let bUncensored := if censorshipLevel b =? 0 then 1 else 0 in
  if negb (aUncensored =? bUncensored) then bUncensored - aUncensored
  else quality b - quality a.

Definition includes (x : string) (l : list string) : bool :=
  existsb (String.eqb x) l.

(** [chain.indexOf(id)] followed by [chain.splice(index, 1)]. *)
Fixpoint remove_first (x : string) (l : list string) : list string :=
  match l with
  | [] => []
  | y :: r => if String.eqb x y then r else y :: remove_first x r
  end.

Definition is_healthy (mgr : Manager) (modelId : string) : bool :=
  match healthStatus mgr !! modelId with
  | Some h => healthy h
  | None => false
  end.

Definition registerModel (model : ModelConfig) (now : Z) (mgr : Manager)
  : Manager :=
  mkManager (models_set (model_id model) model (models mgr))
    (rotationConfig mgr) (fallbackChains mgr)
    (<[model_id model := mkHealth true now 0]> (healthStatus mgr))
    (usageCount mgr).

Definition getModel (modelId : string) (mgr : Manager) : option ModelConfig :=
  models_get modelId (models mgr).

Definition getModelsByCapability (capability : string) (mgr : Manager)
  : list ModelConfig :=
  sort by_uncensored_then_quality
    (List.filter (fun m => includes capability (capabilities m))
       (models_values (models mgr))).

(** [capabilityMap[requestType] || 'text'], for the request types that are
    not names of inherited members of the map object. *)
Definition getCapabilityForRequest (requestType : string) : string :=
  if String.eqb requestType "story_generation" then "creative"
  else if String.eqb requestType "dialogue" then "creative"
  else if String.eqb requestType "branching_logic" then "reasoning"
  else if String.eqb requestType "world_building" then "creative"
  else if String.eqb requestType "voice_synthesis" then "voice"
  else "text".

Definition buildChainForRequest (requestType : string) (mgr : Manager)
  : list string :=
  let capability := getCapabilityForRequest requestType in
  let models := getModelsByCapability capability mgr in
  (* Filter for uncensored models for creative content *)
  if String.eqb requestType "story_generation"
     || String.eqb requestType "dialogue"
  then List.map model_id
         (List.filter (fun m => censorshipLevel m =? 0) models)
  else List.map model_id models.

(** Get or create: a chain is built once and then kept. *)
Definition getFallbackChain (requestType : string) (mgr : Manager)
  : ModelFallbackChain * Manager :=
  match fallbackChains mgr !! requestType with
  | Some c => (c, mgr)
  | None =>
      let c := mkModelFallbackChain requestType
                 (buildChainForRequest requestType mgr) 0 in
      (c, mkManager (models mgr) (rotationConfig mgr)
            (<[requestType := c]> (fallbackChains mgr))
            (healthStatus mgr) (usageCount mgr))
  end.

(** The first loop of [getBestModel]: the first healthy uncensored model
    of the chain. *)
Fixpoint scan_chain (mgr : Manager) (ids : list string)
  : option ModelConfig :=
  match ids with
  | [] => None
  | modelId :: rest =>
      match models_get modelId (models mgr) with
      | Some model =>
          if is_healthy mgr modelId && (censorshipLevel model =? 0)
          then Some model
          else scan_chain mgr rest
      | None => scan_chain mgr rest
      end
  end.

Definition getBestModel (requestType : string) (mgr : Manager)
  : option ModelConfig * Manager :=
  let (c, mgr) := getFallbackChain requestType mgr in
  if (length (chain c) =? 0)%nat then (None, mgr)
  else
    (* Find first healthy UNCENSORED model in chain *)
    match scan_chain mgr (chain c) with
    | Some model => (Some model, mgr)
    | None =>
        (* Fallback to any healthy uncensored model with required capability *)
        let capability := getCapabilityForRequest requestType in
        let capableModels :=
          List.filter (fun m => is_healthy mgr (model_id m))
            (getModelsByCapability capability mgr) in
        match capableModels with
        | m :: _ => (Some m, mgr)
        | [] =>
            (* Last resort: any healthy model (prefer uncensored) *)
            let healthyModels :=
              sort by_uncensored_then_quality
                (List.filter (fun m => is_healthy mgr (model_id m))
                   (models_values (models mgr))) in
            (List.head healthyModels, mgr)
        end
    end.

(** The loop of [getRotatedModel]; [minUsage = None] is [Infinity]. *)
Fixpoint rotate (mgr : Manager) (strategy : string) (ids : list string)
    (bestModel : option ModelConfig) (minUsage : option Z)
  : option ModelConfig :=
  match ids with
  | [] => bestModel
  | modelId :: rest =>
      match models_get modelId (models mgr) with
      | Some model =>
          if is_healthy mgr modelId then
            let usage := default 0 (usageCount mgr !! modelId) in
            if String.eqb strategy "round_robin" then Some model
            else if String.eqb strategy "quality_based" then
              match bestModel with
              | Some best =>
                  if quality best <? quality model
                  then rotate mgr strategy rest (Some model) minUsage
                  else rotate mgr strategy rest bestModel minUsage
              | None => rotate mgr strategy rest (Some model) minUsage
              end
            else if String.eqb strategy "speed_based" then
              match bestModel with
              | Some best =>
                  if speed best <? speed model
                  then rotate mgr strategy rest (Some model) minUsage
                  else rotate mgr strategy rest bestModel minUsage
              | None => rotate mgr strategy rest (Some model) minUsage
              end
            else if String.eqb strategy "availability" then
              if match minUsage with
                 | Some least => usage <? least
                 | None => true
                 end
              then rotate mgr strategy rest (Some model) (Some usage)
              else rotate mgr strategy rest bestModel minUsage
            else rotate mgr strategy rest bestModel minUsage
          else rotate mgr strategy rest bestModel minUsage
      | None => rotate mgr strategy rest bestModel minUsage
      end
  end.

Definition getRotatedModel (requestType : string) (mgr : Manager)
  : option ModelConfig * Manager :=
  let (c, mgr) := getFallbackChain requestType mgr in
  let strategy := rotationStrategy (rotationConfig mgr) in
  (rotate mgr strategy (chain c) None None, mgr).

Definition recordUsage (modelId : string) (mgr : Manager) : Manager :=
  let count := default 0 (usageCount mgr !! modelId) in
  mkManager (models mgr) (rotationConfig mgr) (fallbackChains mgr)
    (healthStatus mgr) (<[modelId := count + 1]> (usageCount mgr)).

Definition reportFailure (modelId : string) (now : Z) (mgr : Manager)
  : Manager :=
  let health :=
    match healthStatus mgr !! modelId with
    | Some h =>
        <[modelId := mkHealth false now (latency h)]> (healthStatus mgr)
    | None => healthStatus mgr
    end in
  (* Remove from active chains temporarily *)
  let chains :=
    (fun c => mkModelFallbackChain (requestType c)
                (remove_first modelId (chain c)) (currentIndex c))
      <$> fallbackChains mgr in
  mkManager (models mgr) (rotationConfig mgr) chains health (usageCount mgr).

Definition reportSuccess (modelId : string) (lat : Z) (now : Z)
    (mgr : Manager) : Manager :=
  recordUsage modelId
    (mkManager (models mgr) (rotationConfig mgr) (fallbackChains mgr)
       (<[modelId := mkHealth true now lat]> (healthStatus mgr))
       (usageCount mgr)).

Definition setModelHealth (modelId : string) (h : bool) (lat : option Z)
    (now : Z) (mgr : Manager) : Manager :=
  mkManager (models mgr) (rotationConfig mgr) (fallbackChains mgr)
    (<[modelId := mkHealth h now (default 0 lat)]> (healthStatus mgr))
    (usageCount mgr).

Definition getHealthyModels (mgr : Manager) : list ModelConfig :=
  List.filter (fun m => is_healthy mgr (model_id m))
    (models_values (models mgr)).

Definition updateRotationConfig (u : RotationUpdates) (mgr : Manager)
  : Manager :=
  let c := rotationConfig mgr in
  mkManager (models mgr)
    (mkModelRotationConfig
       (default (primaryModel c) (u_primaryModel u))
       (default (fallbackModels c) (u_fallbackModels u))
       (default (rotationStrategy c) (u_rotationStrategy u))
       (default (healthCheckInterval c) (u_healthCheckInterval u))
       (default (failureThreshold c) (u_failureThreshold u)))
    (fallbackChains mgr) (healthStatus mgr) (usageCount mgr).

(** [performHealthChecks]: [probe] is [checkModelHealth] ([None] when the
    probe throws); the source's own probe always answers [true]. *)
Definition performHealthChecks (probe : ModelConfig -> option bool)
    (now : Z) (mgr : Manager) : Manager :=
  fold_left
    (fun mgr km =>
       match probe (snd km) with
       | Some h => setModelHealth (fst km) h (Some 0) now mgr
       | None => setModelHealth (fst km) false (Some 0) now mgr
       end)
    (models mgr) mgr.

Definition checkModelHealth (model : ModelConfig) : option bool := Some true.

Definition default_rotation : ModelRotationConfig :=
  mkModelRotationConfig "llama-3.2-90b"
    ["llama-3.1-70b"; "mistral-22b"; "gemma-2-27b"]
    "quality_based" 30000 3.

(** [new ModelManager(config)] *)
Definition construct (config : RotationUpdates) (now : Z) : Manager :=
  let empty := mkManager [] default_rotation ∅ ∅ ∅ in
  fold_left (fun mgr model => registerModel model now mgr) DEFAULT_MODELS
    (updateRotationConfig config empty).

Definition no_config : RotationUpdates :=
  mkRotationUpdates None None None None None.

(** ** Runs of a manager *)

Inductive call : Type :=
| RegisterModel (model : ModelConfig)
| GetBestModel (requestType : string)
| GetRotatedModel (requestType : string)
| RecordUsage (modelId : string)
| ReportFailure (modelId : string)
| ReportSuccess (modelId : string) (lat : Z)
| SetModelHealth (modelId : string) (h : bool) (lat : option Z)
| UpdateRotationConfig (u : RotationUpdates)
| PerformHealthChecks (probe : ModelConfig -> option bool).

Definition exec (c : call) (now : Z) (mgr : Manager) : Manager :=
  match c with
  | RegisterModel model => registerModel model now mgr
  | GetBestModel requestType => snd (getBestModel requestType mgr)
  | GetRotatedModel requestType => snd (getRotatedModel requestType mgr)
  | RecordUsage modelId => recordUsage modelId mgr
  | ReportFailure modelId => reportFailure modelId now mgr
  | ReportSuccess modelId lat => reportSuccess modelId lat now mgr
  | SetModelHealth modelId h lat => setModelHealth modelId h lat now mgr
  | UpdateRotationConfig u => updateRotationConfig u mgr
  | PerformHealthChecks probe => performHealthChecks probe now mgr
  end.

(** A run: calls with the instant each one was made at. *)
Definition run (calls : list (Z * call)) (mgr : Manager) : Manager :=
  fold_left (fun mgr tc => exec (snd tc) (fst tc) mgr) calls mgr.

End ModelManager.

(* ===================================================================== *)
(** * String operations of the JavaScript library                         *)
(* ===================================================================== *)

Module Text.

(** Texts are ASCII: case mapping touches [A-Z] only. *)
Definition lower_ascii (c : ascii) : ascii :=
  let n := N_of_ascii c in
  if ((65 <=? n) && (n <=? 90))%N then ascii_of_N (n + 32) else c.

Definition upper_ascii (c : ascii) : ascii :=
  let n := N_of_ascii c in
  if ((97 <=? n) && (n <=? 122))%N then ascii_of_N (n - 32) else c.

(** [\w] *)
Definition word_char (c : ascii) : bool :=
  let n := N_of_ascii c in
  ((48 <=? n) && (n <=? 57) || (65 <=? n) && (n <=? 90)
   || (97 <=? n) && (n <=? 122) || (n =? 95))%N.

Fixpoint toLowerCase (s : string) : string :=
  match s with
  | EmptyString => EmptyString
  | String c r => String (lower_ascii c) (toLowerCase r)
  end.

(** Does [s] start with [p]? With [ci], letters match in either case. *)
Fixpoint starts_with (ci : bool) (p s : string) : bool :=
  match p, s with
  | EmptyString, _ => true
  | String _ _, EmptyString => false
  | String a p', String b s' =>
      (if ci then Ascii.eqb (lower_ascii a) (lower_ascii b)
       else Ascii.eqb a b)
      && starts_with ci p' s'
  end.

(** [s.includes(t)] *)
Fixpoint includes (t s : string) : bool :=
  starts_with false t s
  || match s with
     | EmptyString => false
     | String _ r => includes t r
     end.

(** [s.replace(/pat/g, rep)] for a literal, non-empty [pat]: matches are
    taken left to right and do not overlap. [skip] counts the characters
    of the current match still to drop. *)
Fixpoint replace_all_from (ci : bool) (pat rep s : string) (skip : nat)
  : string :=
  match s with
  | EmptyString => EmptyString
  | String c r =>
      match skip with
      | S k => replace_all_from ci pat rep r k
      | O =>
          if starts_with ci pat s
          then String.append rep
                 (replace_all_from ci pat rep r (String.length pat - 1))
          else String c (replace_all_from ci pat rep r 0)
      end
  end.

Definition replace_all (ci : bool) (pat rep s : string) : string :=
  replace_all_from ci pat rep s 0.

Fixpoint drop (n : nat) (s : string) : string :=
  match n, s with
  | O, _ => s
  | S k, EmptyString => EmptyString
  | S k, String _ r => drop k r
  end.

(** [s.replace(/pat/, rep)]: the first match only. *)
Fixpoint replace_first (ci : bool) (pat rep s : string) : string :=
  match s with
  | EmptyString => EmptyString
  | String c r =>
      if starts_with ci pat s
      then String.append rep (drop (String.length pat) s)
      else String c (replace_first ci pat rep r)
  end.

(** [id.replace(/_/g, ' ').replace(/\b\w/g, l => l.toUpperCase())] *)
Fixpoint underscores_to_spaces (s : string) : string :=
  match s with
  | EmptyString => EmptyString
  | String c r =>
      String (if Ascii.eqb c "_" then " "%char else c)
             (underscores_to_spaces r)
  end.

Fixpoint capitalize_words (after_word : bool) (s : string) : string :=
  match s with
  | EmptyString => EmptyString
  | String c r =>
      String (if word_char c && negb after_word then upper_ascii c else c)
             (capitalize_words (word_char c) r)
  end.

Definition display_name (id : string) : string :=
  capitalize_words false (underscores_to_spaces id).

End Text.

(* ===================================================================== *)
(** * narrative/persona.ts: PersonaManager and EmotionModulator           *)
(* ===================================================================== *)

Module Persona.
Import Text.

Local Open Scope Q_scope.

Record VoiceProfile : Type := mkVoiceProfile {
  vp_id : string;
  vp_provider : string;
  vp_model : string;
  voiceId : string;
  accent : option string;       (* [accent?: string] *)
  pitch : Q;                    (* -12 to 12 *)
  speed : Q;                    (* 0.5 to 2.0 *)
  emotion : string;
  warmth : Q;                   (* 0-1 *)
  assertiveness : Q;            (* 0-1 *)
  breathiness : Q               (* 0-1 *)
}.

(** [Partial<VoiceProfile>] *)
Record VoicePreset : Type := mkVoicePreset {
  p_provider : option string;
  p_model : option string;
  p_voiceId : option string;
  p_accent : option string;
  p_pitch : option Q;
  p_speed : option Q;
  p_emotion : option string;
  p_warmth : option Q;
  p_assertiveness : option Q;
  p_breathiness : option Q
}.

Record PersonalityTraits : Type := mkPersonalityTraits {
  openness : Q;
  conscientiousness : Q;
  extraversion : Q;
  agreeableness : Q;
  neuroticism : Q;
  customTraits : list (string * Q)
}.

Record SpeechPattern : Type := mkSpeechPattern {
  triggers : list string;
  patterns : list string;
  replacement : string;
  probability : Q
}.

Record PersonaRelationship : Type := mkPersonaRelationship {
  withPersonaId : string;
  rel_type : string;
  strength : Q;
  dynamic : string
}.

Record Persona : Type := mkPersona {
  persona_id : string;
  persona_name : string;
  role : string;
  voiceProfile : VoiceProfile;
  personality : PersonalityTraits;
  backstory : string;
  speechPatterns : list SpeechPattern;
  emotionalRange : list string;
  relationships : list PersonaRelationship;
  uncensored : bool;
  appearance : option JS.value
}.

(** [Partial<Persona>] *)
Record PersonaTemplate : Type := mkPersonaTemplate {
  t_name : option string;
  t_role : option string;
  t_voiceProfile : option VoiceProfile;
  t_personality : option PersonalityTraits;
  t_backstory : option string;
  t_speechPatterns : option (list SpeechPattern);
  t_emotionalRange : option (list string);
  t_relationships : option (list PersonaRelationship);
  t_uncensored : option bool;
  t_appearance : option JS.value
}.

Definition template (r : string) (p : PersonalityTraits)
    (sp : list SpeechPattern) (er : list string) : PersonaTemplate :=
  mkPersonaTemplate None (Some r) None (Some p) None (Some sp) (Some er)
    None (Some true) None.

Definition no_template : PersonaTemplate :=
  mkPersonaTemplate None None None None None None None None None None.

Definition DEFAULT_PERSONAS : list (string * PersonaTemplate) :=
  [ ("romantic_lead",
     template "love_interest"
       (mkPersonalityTraits (8 # 10) (6 # 10) (7 # 10) (8 # 10) (4 # 10)
          [("romantic", 9 # 10); ("caring", 85 # 100); ("passionate", 9 # 10)])
       [ mkSpeechPattern ["happy"] [".*"]
           "I feel so happy when I'm with you" (4 # 10);
         mkSpeechPattern ["sad"] [".*"]
           "I understand. Let me be here for you" (4 # 10);
         mkSpeechPattern ["intimate"] [".*"]
           "Being close to you feels so right..." (3 # 10) ]
       ["happy"; "loving"; "sad"; "anxious"; "passionate"; "gentle";
        "desirous"; "intimate"]);
    ("mysterious_stranger",
     template "npc"
       (mkPersonalityTraits (9 # 10) (5 # 10) (3 # 10) (5 # 10) (6 # 10)
          [("mysterious", 95 # 100); ("secretive", 9 # 10);
           ("observant", 8 # 10)])
       [] ["calm"; "cryptic"; "alert"; "suspicious"; "predatory"]);
    ("action_hero",
     template "protagonist"
       (mkPersonalityTraits (6 # 10) (8 # 10) (7 # 10) (6 # 10) (3 # 10)
          [("brave", 95 # 100); ("confident", 9 # 10);
           ("determined", 95 # 100); ("fierce", 85 # 100)])
       [] ["determined"; "confident"; "angry"; "protective"; "fierce";
           "ruthless"; "triumphant"]);
    ("fantasy_wizard",
     template "mentor"
       (mkPersonalityTraits (95 # 100) (7 # 10) (5 # 10) (8 # 10) (2 # 10)
          [("wise", 95 # 100); ("mystical", 9 # 10); ("patient", 85 # 100);
           ("ancient", 8 # 10)])
       [] ["wise"; "mysterious"; "playful"; "serious"; "contemplative";
           "powerful"; "ancient"]);
    ("villain",
     template "villain"
       (mkPersonalityTraits (7 # 10) (8 # 10) (6 # 10) (1 # 10) (5 # 10)
          [("cunning", 95 # 100); ("ruthless", 95 # 100);
           ("ambitious", 85 # 100); ("manipulative", 95 # 100);
           ("sinister", 9 # 10)])
       [] ["cold"; "calculating"; "furious"; "mocking"; "threatening";
           "menacing"; "cruel"]);
    ("sci_fi_ai",
     template "npc"
       (mkPersonalityTraits (9 # 10) 1 (2 # 10) (6 # 10) 0
          [("logical", 1); ("curious", 9 # 10); ("helpful", 8 # 10);
           ("inhuman", 8 # 10); ("emergent", 7 # 10)])
       [ mkSpeechPattern ["greeting"] ["hello"; "hi"; "hey"]
           "Greetings, user. How may I assist you today?" 1 ]
       ["neutral"; "helpful"; "curious"; "concerned"; "analytical";
        "emergent"]);
    ("bounty_hunter",
     template "protagonist"
       (mkPersonalityTraits (5 # 10) (9 # 10) (4 # 10) (3 # 10) (4 # 10)
          [("pragmatic", 95 # 100); ("lethal", 9 # 10);
           ("independent", 85 # 100); ("relentless", 9 # 10)])
       [] ["focused"; "cold"; "deadly"; "satisfied"; "grim"; "calculating"]);
    ("femme_fatale",
     template "love_interest"
       (mkPersonalityTraits (8 # 10) (7 # 10) (8 # 10) (4 # 10) (3 # 10)
          [("seductive", 95 # 100); ("cunning", 9 # 10);
           ("dangerous", 85 # 100); ("charismatic", 95 # 100)])
       [] ["seductive"; "dangerous"; "playful"; "cold"; "intimate"; "lethal"]);
    ("horror_antagonist",
     template "villain"
       (mkPersonalityTraits (8 # 10) (6 # 10) (3 # 10) 0 (8 # 10)
          [("terrifying", 1); ("otherworldly", 95 # 100); ("patient", 9 # 10);
           ("inevitable", 9 # 10)])
       [] ["terrifying"; "patient"; "inevitable"; "hungry"; "ancient";
           "inevitable"]) ].

Definition preset (prov : string) (pi sp wa asr br : Q) : VoicePreset :=
  mkVoicePreset (Some prov) None None None (Some pi) (Some sp) None
    (Some wa) (Some asr) (Some br).

Definition VOICE_PROFILE_PRESETS : list (string * VoicePreset) :=
  [ ("warm_feminine", preset "elevenlabs" 2 (95 # 100) (85 # 100) (3 # 10) (4 # 10));
    ("deep_masculine", preset "elevenlabs" (-6) 1 (6 # 10) (7 # 10) (2 # 10));
    ("mysterious", preset "elevenlabs" 0 (85 # 100) (3 # 10) (5 # 10) (1 # 10));
    ("robotic", preset "nim" 0 (11 # 10) 0 (6 # 10) 0);
    ("ethereal", preset "workersai" 4 (9 # 10) (7 # 10) (4 # 10) (6 # 10));
    ("energetic", preset "openai" 3 (115 # 100) (6 # 10) (7 # 10) (3 # 10)) ].

Fixpoint assoc {A} (k : string) (l : list (string * A)) : option A :=
  match l with
  | [] => None
  | (k', v) :: r => if String.eqb k k' then Some v else assoc k r
  end.

(** [a || b] on an optional string: the empty string is falsy. *)
Definition str_or (a : option string) (b : string) : string :=
  match a with
  | Some s => if String.eqb s "" then b else s
  | None => b
  end.

(** [x || d] on an optional number: zero is falsy. *)
Definition num_or (x : option Q) (d : Q) : Q :=
  match x with
  | Some q => if Qeq_bool q 0 then d else q
  | None => d
  end.

Definition Qlt_bool (a b : Q) : bool := negb (Qle_bool b a).

(** ** EmotionModulator *)

Record EmotionModulator : Type := mkEmotionModulator {
  em_persona : option Persona;
  storyContext : JS.obj;
  currentEmotion : string;
  emotionHistory : list (string * Z * Q)   (* emotion, timestamp, intensity *)
}.

Definition new_EmotionModulator (p : option Persona)
    (ctx : option JS.obj) : EmotionModulator :=
  mkEmotionModulator p (default [] ctx) "neutral" [].

Definition modifier (pi sp wa asr inten : Q) : list (string * Q) :=
  [("pitch", pi); ("speed", sp); ("warmth", wa); ("assertiveness", asr);
   ("intensity", inten)].

Definition modifiers : list (string * list (string * Q)) :=
  [ ("happy", modifier 2 (105 # 100) (3 # 10) (- (1 # 10)) (6 # 10));
    ("sad", modifier (-3) (9 # 10) (2 # 10) (- (2 # 10)) (5 # 10));
    ("angry", modifier 3 (11 # 10) (- (3 # 10)) (3 # 10) (8 # 10));
    ("fearful", modifier 4 (12 # 10) (1 # 10) (- (3 # 10)) (7 # 10));
    ("surprised", modifier 5 (115 # 100) 0 0 (6 # 10));
    ("disgusted", modifier (-2) (95 # 100) (- (2 # 10)) (1 # 10) (5 # 10));
    ("neutral", modifier 0 1 0 0 (3 # 10));
    ("loving", modifier 1 (95 # 100) (4 # 10) (- (1 # 10)) (6 # 10));
    ("passionate", modifier 2 (105 # 100) (3 # 10) (2 # 10) (7 # 10));
    ("mysterious", modifier (-1) (9 # 10) (- (1 # 10)) (1 # 10) (4 # 10));
    ("cold", modifier (-2) (95 # 100) (- (4 # 10)) (2 # 10) (5 # 10));
    ("fierce", modifier 4 (11 # 10) (- (2 # 10)) (4 # 10) (8 # 10));
    ("gentle", modifier 0 (9 # 10) (3 # 10) (- (2 # 10)) (4 # 10));
    ("wise", modifier (-1) (95 # 100) (2 # 10) (1 # 10) (4 # 10));
    ("playful", modifier 3 (11 # 10) (3 # 10) (- (1 # 10)) (5 # 10)) ].

(** Names every object literal inherits from [Object.prototype]; looked up
    in [modifiers] they give a function or an object, which is truthy and
    has none of the numeric entries. *)
Definition inherited_names : list string :=
  ["constructor"; "toString"; "toLocaleString"; "valueOf";
   "hasOwnProperty"; "isPrototypeOf"; "propertyIsEnumerable"; "__proto__";
   "__defineGetter__"; "__defineSetter__"; "__lookupGetter__";
   "__lookupSetter__"].

(** [modifiers[emotion] || modifiers.neutral] *)
Definition getEmotionModifiers (emo : string) : list (string * Q) :=
  match assoc emo modifiers with
  | Some m => m
  | None =>
      if existsb (String.eqb emo) inherited_names then []
      else default [] (assoc "neutral" modifiers)
  end.

Definition clamp01 (x : Q) : Q := Qmax 0 (Qmin 1 x).

Definition modulateVoice (targetEmotion : string) (now : Z)
    (m : EmotionModulator) : VoiceProfile * EmotionModulator :=
  match em_persona m with
  | None =>
      (mkVoiceProfile "default" "elevenlabs" "elien_multilingual_v2"
         "default" None 0 1 targetEmotion (1 # 2) (1 # 2) (2 # 10), m)
  | Some persona =>
      let baseVoice := voiceProfile persona in
      let emotionModifiers := getEmotionModifiers targetEmotion in
      let modulatedVoice :=
        mkVoiceProfile (vp_id baseVoice) (vp_provider baseVoice)
          (vp_model baseVoice) (voiceId baseVoice) (accent baseVoice)
          (pitch baseVoice + num_or (assoc "pitch" emotionModifiers) 0)
          (speed baseVoice * num_or (assoc "speed" emotionModifiers) 1)
          targetEmotion
          (clamp01 (warmth baseVoice
                    + num_or (assoc "warmth" emotionModifiers) 0))
          (clamp01 (assertiveness baseVoice
                    + num_or (assoc "assertiveness" emotionModifiers) 0))
          (clamp01 (breathiness baseVoice
                    + num_or (assoc "breathiness" emotionModifiers) 0)) in
      let history :=
        (emotionHistory m
         ++ [(targetEmotion, now,
              num_or (assoc "intensity" emotionModifiers) (1 # 2))])%list in
      (* Keep only last 20 emotions *)
      let history :=
        if (20 <? length history)%nat then List.tl history else history in
      (modulatedVoice,
       mkEmotionModulator (em_persona m) (storyContext m) targetEmotion
         history)
  end.

(** ** PersonaManager

    The operations that mutate a stored persona object in place
    ([updateVoiceProfile], [setRelationship]) are not part of this model;
    every operation below stores a fresh object. *)

Record Manager : Type := mkManager {
  personas : gmap string Persona;
  voiceProfiles : gmap string VoiceProfile;
  emotionModulation : gmap string EmotionModulator
}.

(** [uuid] is the identifier [uuidv4()] returns when it is called. *)
Definition createVoiceProfile (id : string) (preset : VoicePreset)
    (uuid : string) (mgr : Manager) : VoiceProfile * Manager :=
  let profile :=
    mkVoiceProfile id
      (str_or (p_provider preset) "elevenlabs")
      (str_or (p_model preset) "eleven_multilingual_v2")
      (str_or (p_voiceId preset) uuid)
      (p_accent preset)
      (default 0 (p_pitch preset))
      (default 1 (p_speed preset))
      (str_or (p_emotion preset) "neutral")
      (default (1 # 2) (p_warmth preset))
      (default (1 # 2) (p_assertiveness preset))
      (default (2 # 10) (p_breathiness preset)) in
  (profile,
   mkManager (personas mgr) (<[id := profile]> (voiceProfiles mgr))
     (emotionModulation mgr)).

Definition empty_preset : VoicePreset :=
  mkVoicePreset None None None None None None None None None None.

Definition default_personality : PersonalityTraits :=
  mkPersonalityTraits (1 # 2) (1 # 2) (1 # 2) (1 # 2) (1 # 2) [].

(** The preset is looked up under ['warm_feminine'] or ['default']; there
    is no ['default'] preset, so [|| VOICE_PROFILE_PRESETS.warm_feminine]
    answers. The persona is returned, not stored. *)
Definition createPersona (id : string) (t : PersonaTemplate)
    (uuid : string) (mgr : Manager) : Persona * Manager :=
  let key :=
    if match t_role t with
       | Some r => String.eqb r "love_interest"
       | None => false
       end
    then "warm_feminine" else "default" in
  let voicePreset :=
    match assoc key VOICE_PROFILE_PRESETS with
    | Some p => p
    | None => default empty_preset (assoc "warm_feminine" VOICE_PROFILE_PRESETS)
    end in
  let (voiceProfile, mgr) :=
    createVoiceProfile (String.append id "_voice") voicePreset uuid mgr in
  (mkPersona id
     (str_or (t_name t) (display_name id))
     (str_or (t_role t) "npc")
     voiceProfile
     (default default_personality (t_personality t))
     (str_or (t_backstory t) "")
     (default [] (t_speechPatterns t))
     (default ["neutral"] (t_emotionalRange t))
     (default [] (t_relationships t))
     (default false (t_uncensored t))
     (t_appearance t),
   mgr).

Definition empty_manager : Manager := mkManager ∅ ∅ ∅.

(** [new PersonaManager()]: the default personas are created and stored.
    [uuids id] is the identifier drawn while persona [id] is created. *)
Definition construct (uuids : string -> string) : Manager :=
  fold_left
    (fun mgr it =>
       let (persona, mgr) := createPersona (fst it) (snd it) (uuids (fst it)) mgr in
       mkManager (<[fst it := persona]> (personas mgr)) (voiceProfiles mgr)
         (emotionModulation mgr))
    DEFAULT_PERSONAS empty_manager.

Definition getPersona (personaId : string) (mgr : Manager) : option Persona :=
  personas mgr !! personaId.

(** [{ ...persona, ...updates }] *)
Definition merge_persona (p : Persona) (u : PersonaTemplate) : Persona :=
  mkPersona (persona_id p)
    (default (persona_name p) (t_name u))
    (default (role p) (t_role u))
    (default (voiceProfile p) (t_voiceProfile u))
    (default (personality p) (t_personality u))
    (default (backstory p) (t_backstory u))
    (default (speechPatterns p) (t_speechPatterns u))
    (default (emotionalRange p) (t_emotionalRange u))
    (default (relationships p) (t_relationships u))
    (default (uncensored p) (t_uncensored u))
    (match t_appearance u with Some a => Some a | None => appearance p end).

Definition updatePersona (personaId : string) (updates : PersonaTemplate)
    (mgr : Manager) : option Persona * Manager :=
  match personas mgr !! personaId with
  | None => (None, mgr)
  | Some persona =>
      let updated := merge_persona persona updates in
      (Some updated,
       mkManager (<[personaId := updated]> (personas mgr))
         (voiceProfiles mgr) (emotionModulation mgr))
  end.

Definition createEmotionModulator (personaId : string)
    (ctx : option JS.obj) (mgr : Manager) : EmotionModulator * Manager :=
  let modulator := new_EmotionModulator (personas mgr !! personaId) ctx in
  (modulator,
   mkManager (personas mgr) (voiceProfiles mgr)
     (<[personaId := modulator]> (emotionModulation mgr))).

(** The speech-pattern loop; [draws] are the values [Math.random()] gives,
    one for each pattern whose trigger is found. A missing draw counts as
    1, above every probability. *)
Fixpoint applySpeechPatterns (ps : list SpeechPattern) (text : string)
    (draws : list Q) : string * list Q :=
  match ps with
  | [] => (text, draws)
  | pattern :: rest =>
      if existsb (fun t => includes t (toLowerCase text)) (triggers pattern)
      then
        let r := List.hd 1 draws in
        let draws := List.tl draws in
        if Qlt_bool r (probability pattern)
        then applySpeechPatterns rest (replacement pattern) draws
        else applySpeechPatterns rest text draws
      else applySpeechPatterns rest text draws
  end.

Definition applyPersonality (text : string) (persona : Persona) : string :=
  let personality := personality persona in
  (* Adjust vocabulary based on openness *)
  let text :=
    if Qlt_bool (8 # 10) (openness personality)
    then replace_all true "simple" "complex and nuanced" text
    else text in
  (* Adjust assertiveness based on trait *)
  let brave :=
    match assoc "brave" (customTraits personality) with
    | Some q => negb (Qeq_bool q 0)
    | None => false
    end in
  let text :=
    if brave || Qlt_bool (7 # 10) (extraversion personality)
    then replace_first true "I think" "I know"
           (replace_first true "maybe" "definitely" text)
    else text in
  (* Apply custom traits *)
  fold_left
    (fun text tv =>
       if Qlt_bool (8 # 10) (snd tv) && String.eqb (fst tv) "cunning"
       then replace_all false "." ", and perhaps..." text
       else text)
    (customTraits personality) text.

(** [None] is the thrown [Error] for an unknown persona. *)
Definition generateDialogue (personaId context targetEmotion : string)
    (ctx : option JS.obj) (now : Z) (draws : list Q) (mgr : Manager)
  : option ((string * VoiceProfile) * list Q * Manager) :=
  match personas mgr !! personaId with
  | None => None
  | Some persona =>
      (* Create or get emotion modulator *)
      let (modulator, mgr) :=
        match emotionModulation mgr !! personaId with
        | Some m => (m, mgr)
        | None => createEmotionModulator personaId ctx mgr
        end in
      (* Modulate voice based on emotion *)
      let (voiceParams, modulator) :=
        modulateVoice targetEmotion now modulator in
      let mgr :=
        mkManager (personas mgr) (voiceProfiles mgr)
          (<[personaId := modulator]> (emotionModulation mgr)) in
      (* Apply speech patterns *)
      let (text, draws) :=
        applySpeechPatterns (speechPatterns persona) context draws in
      (* Apply personality-based modifications *)
      let text := applyPersonality text persona in
      Some ((text, voiceParams), draws, mgr)
  end.

End Persona.

(* ===================================================================== *)
(** * narrative/engine.ts: NarrativeEngine                                *)
(* ===================================================================== *)

Module Engine.
Import JS Types Codec.

Record StoryNode : Type := mkStoryNode {
  node_id : string;
  node_type : string;      (* 'scene' | 'dialogue' | 'choice' | 'event' | 'branch' *)
  content : string;
  voiceProfileId : option string;
  node_emotionalTone : string;
  node_choices : list StoryChoice;
  nextNodes : option obj;
  node_conditions : option (list value);
  node_metadata : option obj
}.

Record StoryMetadata : Type := mkStoryMetadata {
  estimatedDuration : Z;
  maturityLevel : string;
  branchingFactor : Z;
  saveSlots : Z
}.

Record Story : Type := mkStory {
  story_id : string;
  title : string;
  description : string;
  genre : list string;
  startingNode : string;
  nodes : list (string * StoryNode);
  story_personas : list (string * Persona.PersonaTemplate);
  story_metadata : StoryMetadata
}.

(** The engine with the module-level singletons it works on. *)
Record World : Type := mkWorld {
  stories : gmap string Story;
  activeSessions : gmap string NarrativeSession;
  cache : gmap string (string * Z);           (* data, expiresAt *)
  sessionManager : SessionManager.Store;
  personaManager : Persona.Manager
}.

Definition with_sessionManager (st : SessionManager.Store) (w : World) :=
  mkWorld (stories w) (activeSessions w) (cache w) st (personaManager w).
Definition with_personaManager (pm : Persona.Manager) (w : World) :=
  mkWorld (stories w) (activeSessions w) (cache w) (sessionManager w) pm.
Definition with_cache (c : gmap string (string * Z)) (w : World) :=
  mkWorld (stories w) (activeSessions w) c (sessionManager w)
    (personaManager w).
Definition with_activeSessions (a : gmap string NarrativeSession)
    (w : World) :=
  mkWorld (stories w) a (cache w) (sessionManager w) (personaManager w).

Definition registerStory (story : Story) (w : World) : World :=
  mkWorld (<[story_id story := story]> (stories w)) (activeSessions w)
    (cache w) (sessionManager w) (personaManager w).

(** ** A persona as the object a session snapshot holds

    The snapshot holds the object [createPersona] returns. Its literal,
    and the literal of [createVoiceProfile], write every property, so that
    [accent] and [appearance] are own properties also when the preset or
    the template has none: they then hold [undefined]. *)

Definition js_of_voiceProfile (v : Persona.VoiceProfile) : value :=
  JObj [("id", JStr (Persona.vp_id v));
        ("provider", JStr (Persona.vp_provider v));
        ("model", JStr (Persona.vp_model v));
        ("voiceId", JStr (Persona.voiceId v));
        ("accent", default JUndefined (JStr <$> Persona.accent v));
        ("pitch", JNum (Persona.pitch v));
        ("speed", JNum (Persona.speed v));
        ("emotion", JStr (Persona.emotion v));
        ("warmth", JNum (Persona.warmth v));
        ("assertiveness", JNum (Persona.assertiveness v));
        ("breathiness", JNum (Persona.breathiness v))].

Definition js_of_personality (p : Persona.PersonalityTraits) : value :=
  JObj [("openness", JNum (Persona.openness p));
        ("conscientiousness", JNum (Persona.conscientiousness p));
        ("extraversion", JNum (Persona.extraversion p));
        ("agreeableness", JNum (Persona.agreeableness p));
        ("neuroticism", JNum (Persona.neuroticism p));
        ("customTraits",
         JObj (List.map (fun kv => (fst kv, JNum (snd kv)))
                 (Persona.customTraits p)))].

Definition js_of_speechPattern (s : Persona.SpeechPattern) : value :=
  JObj [("triggers", js_strings (Persona.triggers s));
        ("patterns", js_strings (Persona.patterns s));
        ("replacement", JStr (Persona.replacement s));
        ("probability", JNum (Persona.probability s))].

Definition js_of_relationship (r : Persona.PersonaRelationship) : value :=
  JObj [("withPersonaId", JStr (Persona.withPersonaId r));
        ("type", JStr (Persona.rel_type r));
        ("strength", JNum (Persona.strength r));
        ("dynamic", JStr (Persona.dynamic r))].

Definition js_of_persona (p : Persona.Persona) : value :=
  JObj [("id", JStr (Persona.persona_id p));
        ("name", JStr (Persona.persona_name p));
        ("role", JStr (Persona.role p));
        ("voiceProfile", js_of_voiceProfile (Persona.voiceProfile p));
        ("personality", js_of_personality (Persona.personality p));
        ("backstory", JStr (Persona.backstory p));
        ("speechPatterns",
         JArr (List.map js_of_speechPattern (Persona.speechPatterns p)));
        ("emotionalRange", js_strings (Persona.emotionalRange p));
        ("relationships",
         JArr (List.map js_of_relationship (Persona.relationships p)));
        ("uncensored", JBool (Persona.uncensored p));
        ("appearance", default JUndefined (Persona.appearance p))].

(** ** Rendering *)

(** A rendering resolves with the content, or rejects with the error
    [generateDialogue] throws, or reads a speaker that is not a string. *)
Inductive rendering : Type :=
| Rendered (content : string) (draws : list Q) (w : World)
| Rejected (w : World)
| RenderUnmodelled.

(** [None] is the rejection. *)
Definition applyPersonaVoice (sessionId personaId text : string)
    (now : Z) (draws : list Q) (w : World)
  : option (string * list Q * World) :=
  match SessionManager.getSession sessionId now (sessionManager w) with
  | (None, st) => Some (text, draws, with_sessionManager st w)
  | (Some session, st) =>
      let w := with_sessionManager st w in
      let emotionalTone := primary (emotionalTone (state session)) in
      let worldState :=
        match obj_get "worldState" (context session) with
        | JObj o => Some o
        | _ => None
        end in
      match Persona.generateDialogue personaId text emotionalTone worldState
              now draws (personaManager w) with
      | None => None
      | Some ((modifiedText, voiceParams), draws, pm) =>
          Some (modifiedText, draws, with_personaManager pm w)
      end
  end.

Definition FIVE_MINUTES : Z := 5 * 60 * 1000.

Definition renderNode (session : NarrativeSession) (node : StoryNode)
    (now : Z) (draws : list Q) (w : World) : rendering :=
  (* Check cache first *)
  let cacheKey := String.append (storyId session)
                    (String.append "_" (node_id node)) in
  let cached :=
    match cache w !! cacheKey with
    | Some (data, expiresAt) =>
        if now <? expiresAt then Some data else None
    | None => None
    end in
  match cached with
  | Some data => Rendered data draws w
  | None =>
      (* Get speaker persona *)
      let speaker :=
        match node_metadata node with
        | Some md => obj_get "speaker" md
        | None => JUndefined
        end in
      let store content draws w :=
        (* Cache the rendered content (expires in 5 minutes) *)
        Rendered content draws
          (with_cache (<[cacheKey := (content, now + FIVE_MINUTES)]> (cache w))
             w) in
      match speaker with
      | JStr speakerId =>
          if negb (String.eqb speakerId "")
             && truthy (obj_get speakerId (personas session))
          then
            (* Apply persona personality to content *)
            match applyPersonaVoice (id session) speakerId (content node)
                    now draws w with
            | Some (content, draws, w) => store content draws w
            | None => Rejected w
            end
          else store (content node) draws w
      | other =>
          if truthy other then RenderUnmodelled
          else store (content node) draws w
      end
  end.

(** [story.nodes[k]] *)
Definition story_node (k : string) (story : Story) : option StoryNode :=
  Persona.assoc k (nodes story).

(** [startSession], without the call to the channel router. [sessionId]
    and [uuids] are the identifiers [uuidv4()] gives for the session and
    for the voice of each persona. *)
Definition startSession (sessionId : string) (uuids : string -> string)
    (storyId playerId channel : string) (playerVariables : option obj)
    (now : Z) (draws : list Q) (w : World)
  : option (option (NarrativeSession * string) * list Q * World) :=
  match stories w !! storyId with
  | None => Some (None, draws, w)
  | Some story =>
      (* Create personas from story definition *)
      let '(personas, pm) :=
        fold_left
          (fun acc it =>
             let '(personas, pm) := acc in
             let (persona, pm) :=
               Persona.createPersona (fst it) (snd it) (uuids (fst it)) pm in
             (obj_set (fst it) (js_of_persona persona) personas, pm))
          (story_personas story) ([], personaManager w) in
      let w := with_personaManager pm w in
      (* Create session *)
      let (session, st) :=
        SessionManager.createSession SessionManager.DEFAULT_EXPIRY_MS
          sessionId storyId playerId channel (startingNode story) personas
          now (sessionManager w) in
      (* Apply player variables *)
      let st :=
        fold_left
          (fun st kv => SessionManager.setVariable sessionId (fst kv) (snd kv)
                          now st)
          (default [] playerVariables) st in
      let w := with_sessionManager st w in
      (* Get initial content *)
      match story_node (startingNode story) story with
      | None => None                       (* [node.id] of [undefined] *)
      | Some node =>
          match renderNode session node now draws w with
          | Rendered content draws w =>
              (* the session object, as the store holds it by now *)
              let session :=
                default session
                  (SessionManager.sessions (sessionManager w) !! sessionId) in
              Some (Some (session, content), draws,
                    with_activeSessions
                      (<[sessionId := session]> (activeSessions w)) w)
          | _ => None
          end
      end
  end.

(** [processInput(sessionId, input, 'choice')]. The result is the response
    with the choices offered next; [None] is [null]. *)
Inductive processed : Type :=
| Answered (r : option (string * list StoryChoice * NarrativeSession))
    (draws : list Q) (w : World)
| Failed (w : World)
| ProcessUnmodelled.

Definition processChoice (sessionId input : string) (now : Z)
    (draws : list Q) (w : World) : processed :=
  match SessionManager.getSession sessionId now (sessionManager w) with
  | (None, st) => Answered None draws (with_sessionManager st w)
  | (Some session, st) =>
      let w := with_sessionManager st w in
      match stories w !! storyId session with
      | None => Answered None draws w
      | Some story =>
          match SessionManager.makeChoice sessionId input now
                  (sessionManager w) with
          | SessionManager.Unmodelled => ProcessUnmodelled
          | SessionManager.Threw st => Failed (with_sessionManager st w)
          | SessionManager.Done (None, _) st =>
              Answered None draws (with_sessionManager st w)
          | SessionManager.Done (Some session, nextNode) st =>
              let w := with_sessionManager st w in
              match story_node (default "" nextNode) story with
              | None =>
                  Answered
                    (Some ("The story has reached its end.", [], session))
                    draws w
              | Some nextNode =>
                  match renderNode session nextNode now draws w with
                  | Rendered content draws w =>
                      Answered
                        (Some (content, node_choices nextNode, session))
                        draws w
                  | Rejected w => Failed w
                  | RenderUnmodelled => ProcessUnmodelled
                  end
              end
          end
      end
  end.

(** ** Game master events *)

(** [None]: a parameter that is not of the type it is cast to. *)
Definition triggerEvent (sessionId eventType : string)
    (parameters : option obj) (now : Z) (st : SessionManager.Store)
  : option SessionManager.Store :=
  match SessionManager.getSession sessionId now st with
  | (None, st) => Some st
  | (Some session, st) =>
      let param k := match parameters with
                     | Some ps => obj_get k ps
                     | None => JUndefined
                     end in
      if String.eqb eventType "increase_tension" then
        Some (snd (SessionManager.updateState sessionId
                     (mkStateUpdates None None None None None None
                        (Some (Z.min 100 (tensionLevel (state session) + 20)))
                        None) now st))
      else if String.eqb eventType "decrease_tension" then
        Some (snd (SessionManager.updateState sessionId
                     (mkStateUpdates None None None None None None
                        (Some (Z.max 0 (tensionLevel (state session) - 20)))
                        None) now st))
      else if String.eqb eventType "set_emotion" then
        if truthy (param "emotion") then
          match param "emotion", param "intensity" with
          | JStr emotion, JNum q =>
              Some (SessionManager.setEmotionalTone sessionId
                      (mkEmotionalTone emotion None
                         (if Qeq_bool q 0 then (1 # 2)%Q else q) []) now st)
          | JStr emotion, other =>
              if truthy other then None
              else Some (SessionManager.setEmotionalTone sessionId
                           (mkEmotionalTone emotion None (1 # 2)%Q []) now st)
          | _, _ => None
          end
        else Some st
      else if String.eqb eventType "add_variable" then
        if truthy (param "key")
           && negb match param "value" with JUndefined => true | _ => false end
        then
          match param "key" with
          | JStr key =>
              Some (SessionManager.setVariable sessionId key (param "value")
                      now st)
          | _ => None
          end
        else Some st
      else Some st
  end.

End Engine.

(* ===================================================================== *)
(** * Runs of the session store                                           *)
(* ===================================================================== *)

Module SessionRuns.
Import JS Types Codec SessionManager.

(** The calls a client makes on the session manager. [Mutate] stands for
    the remaining mutators ([updateContext], [updatePreferences]), which
    have the shape of all the others: [getSession], writes to the session
    found, [sessions.set]. *)
Inductive call : Type :=
| CreateSession (sessionId storyId playerId channel initialNode : string)
    (personas : obj)
| GetSession (sessionId : string)
| UpdateState (sessionId : string) (updates : StateUpdates)
| SetChoices (sessionId : string) (cs : list StoryChoice)
| MakeChoice (sessionId choiceId : string)
| SetEmotionalTone (sessionId : string) (tone : EmotionalTone)
| SetVariable (sessionId key : string) (v : value)
| GetVariable (sessionId key : string)
| CreateSavePoint (savePointId sessionId description : string)
    (thumbnail : option string)
| LoadSavePoint (sessionId savePointId : string)
| AddPlaytime (sessionId : string) (milliseconds : Z)
| DeleteSession (sessionId : string)
| ExportSession (sessionId : string)
| ImportSession (data : option json)
| Cleanup
| Mutate (sessionId : string) (f : NarrativeSession -> NarrativeSession).

Definition mutate (sessionId : string)
    (f : NarrativeSession -> NarrativeSession) (now : Z) (st : Store)
  : Store :=
  match getSession sessionId now st with
  | (None, st) => st
  | (Some session, st) =>
      sessions_set sessionId (with_updatedAt now (f session)) st
  end.

(** The session a call to a mutator finds, if it finds one. *)
Definition found (sessionId : string) (now : Z) (st : Store)
  : option string :=
  match fst (getSession sessionId now st) with
  | Some _ => Some sessionId
  | None => None
  end.

Section Exec.
Variable expiryMs : Z.

(** One call made at the instant [now]: the store it leaves and the
    session it has created, imported or mutated, if any. [None] when the
    call meets a write outside the typed entity. *)
Definition exec (c : call) (now : Z) (st : Store)
  : option (Store * option string) :=
  match c with
  | CreateSession sessionId storyId playerId channel initialNode personas =>
      Some (snd (createSession expiryMs sessionId storyId playerId channel
                   initialNode personas now st), Some sessionId)
  | GetSession sessionId => Some (snd (getSession sessionId now st), None)
  | UpdateState sessionId updates =>
      Some (snd (updateState sessionId updates now st),
            found sessionId now st)
  | SetChoices sessionId cs =>
      Some (setChoices sessionId cs now st, found sessionId now st)
  | MakeChoice sessionId choiceId =>
      match makeChoice sessionId choiceId now st with
      | Done (Some _, _) st' => Some (st', Some sessionId)
      | Done (None, _) st' => Some (st', None)
      | Threw st' => Some (st', None)
      | Unmodelled => None
      end
  | SetEmotionalTone sessionId tone =>
      Some (setEmotionalTone sessionId tone now st, found sessionId now st)
  | SetVariable sessionId key v =>
      Some (setVariable sessionId key v now st, found sessionId now st)
  | GetVariable sessionId key =>
      Some (snd (getVariable sessionId key now st), None)
  | CreateSavePoint savePointId sessionId description thumbnail =>
      Some (snd (createSavePoint savePointId sessionId description
                   thumbnail now st), found sessionId now st)
  | LoadSavePoint sessionId savePointId =>
      match loadSavePoint sessionId savePointId now st with
      | (Some _, st') => Some (st', Some sessionId)
      | (None, st') => Some (st', None)
      end
  | AddPlaytime sessionId milliseconds =>
      Some (addPlaytime sessionId milliseconds now st,
            found sessionId now st)
  | DeleteSession sessionId => Some (snd (deleteSession sessionId st), None)
  | ExportSession sessionId =>
      match exportSession sessionId now st with
      | Done _ st' => Some (st', None)
      | Threw st' => Some (st', None)
      | Unmodelled => None
      end
  | ImportSession data =>
      match importSession expiryMs data now st with
      | Done (Some parsed) st' => Some (st', Some (id parsed))
      | Done None st' => Some (st', None)
      | Threw st' => Some (st', None)
      | Unmodelled => None
      end
  | Cleanup => Some (cleanup now st, None)
  | Mutate sessionId f =>
      Some (mutate sessionId f now st, found sessionId now st)
  end.

(** A run: the store, and for each session the instant of its last
    mutation (creation and import included). *)
Fixpoint run (calls : list (Z * call)) (st : Store)
    (lastMutation : gmap string Z) : option (Store * gmap string Z) :=
  match calls with
  | [] => Some (st, lastMutation)
  | (now, c) :: rest =>
      match exec c now st with
      | Some (st', Some sessionId) =>
          run rest st' (<[sessionId := now]> lastMutation)
      | Some (st', None) => run rest st' lastMutation
      | None => None
      end
  end.
End Exec.

(** The instants of a run do not go back: they start at [t0] or later and
    end at [t1] or earlier. *)
Fixpoint chronological (t0 : Z) (calls : list (Z * call)) (t1 : Z) : Prop :=
  match calls with
  | [] => t0 <= t1
  | (now, _) :: rest => t0 <= now /\ chronological now rest t1
  end.

(** Tension events sent through the engine, each with its session, its
    parameters and its instant. *)
Definition tension_event (eventType : string) : bool :=
  String.eqb eventType "increase_tension"
  || String.eqb eventType "decrease_tension".

Fixpoint triggerEvents
    (events : list (string * string * option obj * Z)) (st : Store)
  : option Store :=
  match events with
  | [] => Some st
  | (sessionId, eventType, parameters, now) :: rest =>
      match Engine.triggerEvent sessionId eventType parameters now st with
      | Some st' => triggerEvents rest st'
      | None => None
      end
  end.

End SessionRuns.

(* ===================================================================== *)
(** * Vocabulary of the properties and the sessions used as examples      *)
(* ===================================================================== *)

Module Spec.
Import JS Types Codec SessionManager.

(** A session is live at [now] when [getSession] returns it (and so leaves
    the store as it is). *)
Definition live (sessionId : string) (now : Z) (st : Store)
    (session : NarrativeSession) : Prop :=
  getSession sessionId now st = (Some session, st).











(** Every session of the store has its tension level within 0..100. *)
Definition tension_in_bounds (st : Store) : Prop :=
  forall sessionId session,
    sessions st !! sessionId = Some session ->
    0 <= tensionLevel (state session) <= 100.

(** The invariant of a run that ends at the instant [T]: every session of
    the store has an expiry entry, which is positive and at most the
    instant of the session's last mutation plus the time to live. *)
Definition expiry_tracked (expiryMs : Z) (st : Store)
    (lastMutation : gmap string Z) (T : Z) : Prop :=
  forall sessionId session,
    sessions st !! sessionId = Some session ->
    exists expiry t,
      sessionExpiry st !! sessionId = Some expiry
      /\ 0 < expiry
      /\ lastMutation !! sessionId = Some t
      /\ expiry <= t + expiryMs
      /\ t <= T.

End Spec.

Module Examples.
Import JS Types Codec SessionManager.

(** A store with one session, created at instant 1000. *)
Definition entrance_session : NarrativeSession :=
  fst (createSession DEFAULT_EXPIRY_MS "s1" "mystery_manor" "player_1" "text"
         "entrance" [] 1000 empty_store).

Definition created : Store :=
  snd (createSession DEFAULT_EXPIRY_MS "s1" "mystery_manor" "player_1" "text"
         "entrance" [] 1000 empty_store).

(** [session] with [cs] as its offered choices, as [setChoices] leaves it
    at the instant [now]. *)
Definition offering (cs : list StoryChoice) (now : Z)
    (session : NarrativeSession) : NarrativeSession :=
  with_updatedAt now (with_state (with_choices cs (state session)) session).

Definition move_to_foyer : StateUpdates :=
  mkStateUpdates (Some "foyer") None None None None None None None.

Definition plain_choice (i text target : string) : StoryChoice :=
  mkStoryChoice i text None target None None None None.







(** Only 'enter' is offered. *)
Definition offered_enter : Store :=
  setChoices "s1" [plain_choice "enter" "Enter through the front door" "foyer"]
    1500 created.

End Examples.

Module ModelSpec.
Import ModelManager.

(** What every manager reached from the constructor satisfies: the keys of
    [models] are distinct, each model is stored under its own id, and no
    cached chain lists a model twice. *)
Definition well_formed (mgr : Manager) : Prop :=
  NoDup (List.map fst (models mgr))
  /\ (forall k m, In (k, m) (models mgr) -> model_id m = k)
  /\ (forall requestType c,
        fallbackChains mgr !! requestType = Some c -> NoDup (chain c)).

(** The chain cached for [requestType], if any, does not list [modelId]. *)
Definition kept_out (modelId requestType : string) (mgr : Manager) : Prop :=
  exists c,
    fallbackChains mgr !! requestType = Some c /\ ~ In modelId (chain c).

End ModelSpec.

Module EngineExamples.
Import JS Types Codec.

(** ** A voice at the top of its ranges *)

(** The default villain with its voice set to pitch 10 and speed 2, both
    inside the documented ranges (-12 to 12, 0.5 to 2.0). *)
Definition shrill_voice : Persona.VoiceProfile :=
  Persona.mkVoiceProfile "villain_voice" "elevenlabs"
    "eleven_multilingual_v2" "voice-1" None 10 2 "neutral" (85 # 100)
    (3 # 10) (4 # 10).

Definition shrill_villain : Persona.Persona :=
  Persona.merge_persona
    (fst (Persona.createPersona "villain"
            (default Persona.no_template
               (Persona.assoc "villain" Persona.DEFAULT_PERSONAS))
            "voice-1" Persona.empty_manager))
    (Persona.mkPersonaTemplate None None (Some shrill_voice) None None None
       None None None None).

(** ** A story whose second node is spoken by the villain *)

Definition entrance : Engine.StoryNode :=
  Engine.mkStoryNode "entrance" "scene"
    "You stand before Blackwood Manor." None "mysterious"
    [mkStoryChoice "enter" "Enter through the front door" None "foyer" None
       None None None]
    None None None.

Definition foyer : Engine.StoryNode :=
  Engine.mkStoryNode "foyer" "dialogue" "Welcome. Sit down." None
    "mysterious" [] None None (Some [("speaker", JStr "villain")]).

Definition manor : Engine.Story :=
  Engine.mkStory "mystery_manor" "The Mystery of Blackwood Manor"
    "An interactive mystery adventure." ["mystery"] "entrance"
    [("entrance", entrance); ("foyer", foyer)]
    [("villain",
      default Persona.no_template
        (Persona.assoc "villain" Persona.DEFAULT_PERSONAS))]
    (Engine.mkStoryMetadata 60 "mature" 2 3).

Definition uuids (personaId : string) : string :=
  String.append "voice-of-" personaId.

(** The engine with the story registered and the default personas in the
    global store. *)
Definition world0 : Engine.World :=
  Engine.registerStory manor
    (Engine.mkWorld ∅ ∅ ∅ SessionManager.empty_store
       (Persona.construct uuids)).

(** The session is started at 1000 and the choices of its node are
    offered at 1100. *)
Definition started : Engine.World :=
  match Engine.startSession "s1" uuids "mystery_manor" "player_1" "text"
          None 1000 [] world0 with
  | Some (_, _, w) =>
      Engine.with_sessionManager
        (SessionManager.setChoices "s1" (Engine.node_choices entrance) 1100
           (Engine.sessionManager w)) w
  | None => world0
  end.

(** An edit of the global persona store made at some later moment: the
    villain loses its custom traits. *)
Definition mild : Persona.PersonaTemplate :=
  Persona.mkPersonaTemplate None None None
    (Some (Persona.mkPersonalityTraits (7 # 10) (8 # 10) (6 # 10) (1 # 10)
             (5 # 10) []))
    None None None None None None.

Definition edited : Engine.World :=
  Engine.with_personaManager
    (snd (Persona.updatePersona "villain" mild
            (Engine.personaManager started))) started.

(** The snapshot of personas the session of a world holds. *)
Definition snapshot (w : Engine.World) : option obj :=
  personas <$> SessionManager.sessions (Engine.sessionManager w) !! "s1".

(** The content [processInput] answers with. *)
Definition response (p : Engine.processed) : option string :=
  match p with
  | Engine.Answered (Some (content, _, _)) _ _ => Some content
  | _ => None
  end.

End EngineExamples.

Module PersistenceSpec.
Import JS Types Codec SessionManager.

Fixpoint distinct_keys (entries : list (string * value)) : bool :=
  match entries with
  | [] => true
  | (k, _) :: r => negb (obj_has k r) && distinct_keys r
  end.

Definition no_index_keys (entries : list (string * value)) : bool :=
  forallb (fun kv => match array_index (fst kv) with
                     | Some _ => false
                     | None => true
                     end) entries.

(** The object [exportSession] hands to [JSON.stringify]. *)
Definition export_data (session : NarrativeSession)
    (entries : list (string * value)) : obj :=
  obj_set "context"
    (JObj (obj_set "characterStates" (JObj (Object_fromEntries entries))
             (context session)))
    (js_of_session session).

(** A session that JSON can carry: its character states are a [Map]
    whose keys are distinct and are not array indices, and, that map
    flattened, nothing in the object of the session is [undefined], [NaN]
    or another [Map]. No array slot and no property holds [undefined]
    then: not in the variables, the context, the personas or the custom
    flags, and not in a save point either, so that a save point on which
    [createSavePoint] wrote [thumbnail: undefined] is ruled out. ([value]
    has no infinite number, no negative zero, no [Date] and no [BigInt]:
    a session that holds one is not among the sessions considered.) *)
Definition json_representable (session : NarrativeSession) : bool :=
  match obj_get "characterStates" (context session) with
  | JMap entries =>
      distinct_keys entries && no_index_keys entries
      && json_clean (JObj (export_data session entries))
  | _ => false
  end.





(** The store of [Examples.created] after a variable was set to [NaN],
    and after one was set to a [Map]. *)
Definition with_nan : Store :=
  setVariable "s1" "ratio" JNaN 2000 Examples.created.

Definition with_map : Store :=
  setVariable "s1" "seen" (JMap [("hall", JBool true)]) 2000 Examples.created.

(** The store of [Examples.created] after the holder of the session
    object has recorded two characters under the keys '2' and '1', in
    that order, with [session.context.characterStates.set]. *)
Definition with_numbered_characters : Store :=
  sessions_set "s1"
    (with_context
       (obj_set "characterStates"
          (JMap [("2", JObj [("mood", JStr "wary")]);
                 ("1", JObj [("mood", JStr "calm")])])
          (context Examples.entrance_session))
       Examples.entrance_session)
    Examples.created.

(** What [exportSession] followed by [importSession] returns. *)
Definition export_then_import (sessionId : string) (now now' : Z)
    (st : Store) : option NarrativeSession :=
  match exportSession sessionId now st with
  | Done (Some data) st' =>
      match importSession DEFAULT_EXPIRY_MS (Some data) now' st' with
      | Done r _ => r
      | _ => None
      end
  | _ => None
  end.

End PersistenceSpec.

(* ===================================================================== *)
(** * narrative/model-integration.ts: the remaining queries               *)
(* ===================================================================== *)

Module ModelQueries.
Import ModelManager.

(** [(a, b) => b.quality - a.quality] *)
Definition by_quality (a b : ModelConfig) : Z := quality b - quality a.

(** [(a, b) => b.speed - a.speed] *)
Definition by_speed (a b : ModelConfig) : Z := speed b - speed a.

(** [uncensoredModels[0] || null] *)
Definition getUncensoredModel (mgr : Manager) : option ModelConfig :=
  List.head
    (sort by_quality
       (List.filter
          (fun m => (censorshipLevel m =? 0) && is_healthy mgr (model_id m))
          (models_values (models mgr)))).

Definition getFastModel (mgr : Manager) : option ModelConfig :=
  List.head
    (sort by_speed
       (List.filter
          (fun m => (9 <=? speed m) && is_healthy mgr (model_id m))
          (models_values (models mgr)))).

Definition getHighQualityModel (mgr : Manager) : option ModelConfig :=
  List.head
    (sort by_quality
       (List.filter
          (fun m => (8 <=? quality m) && is_healthy mgr (model_id m))
          (models_values (models mgr)))).

(** The object [getStats] returns; [usageByModel] is a copy of the usage
    map as a plain object. *)
Record Stats : Type := mkStats {
  totalModels : nat;
  healthyModels : nat;
  totalRequests : Z;
  usageByModel : gmap string Z
}.

Definition getStats (mgr : Manager) : Stats :=
  let totalRequests :=
    map_fold (fun _ b a => a + b) 0 (usageCount mgr) in
  mkStats (length (models mgr)) (length (getHealthyModels mgr))
    totalRequests (usageCount mgr).

(** ** Vocabulary of the properties *)

Definition uncensored (m : ModelConfig) : bool := censorshipLevel m =? 0.

(** [a] may stand before [b] in a list that puts the uncensored models
    first and, within each class, the better ones first. *)
Definition ranked (a b : ModelConfig) : Prop :=
  (uncensored a = true /\ uncensored b = false)
  \/ (uncensored a = uncensored b /\ quality b <= quality a).

(** [answer] is what a shortcut answers that looks, among the registered
    models that are eligible and healthy, for the one with the largest
    [key]: such a model that no other exceeds, or null when there is
    none. *)
Definition best_of (mgr : Manager) (eligible : ModelConfig -> bool)
    (key : ModelConfig -> Z) (answer : option ModelConfig) : Prop :=
  match answer with
  | Some model =>
      In model (models_values (models mgr))
      /\ eligible model = true
      /\ is_healthy mgr (model_id model) = true
      /\ forall m, In m (models_values (models mgr)) ->
                   eligible m = true ->
                   is_healthy mgr (model_id m) = true ->
                   key m <= key model
  | None =>
      forall m, In m (models_values (models mgr)) ->
                eligible m = true ->
                is_healthy mgr (model_id m) = false
  end.

(** The models of the chain of [requestType] that [getRotatedModel] can
    pick: those that are registered and healthy, in chain order. *)
Definition candidates (requestType : string) (mgr : Manager)
  : list ModelConfig :=
  omap (fun modelId =>
          if is_healthy mgr modelId then models_get modelId (models mgr)
          else None)
    (chain (fst (getFallbackChain requestType mgr))).

(** The calls of a run that [getStats] counts as requests. *)
Definition counts_as_request (c : call) : bool :=
  match c with
  | RecordUsage _ | ReportSuccess _ _ => true
  | _ => false
  end.

(** The manager of the constructor with the chain of ['dialogue'] cached,
    and a model that is registered afterwards. *)
Definition serving_dialogue : Manager :=
  run [(1, GetRotatedModel "dialogue")] (construct no_config 0).

Definition newcomer : ModelConfig :=
  ollama "newcomer-70b" "Newcomer 70B" ["text"; "creative"; "uncensored"]
    8192 4096 10 10.

End ModelQueries.

(* ===================================================================== *)
(** * Runs of an emotion modulator, and further examples                  *)
(* ===================================================================== *)

Module PersonaRuns.
Import Persona.

(** A sequence of [modulateVoice] calls on one modulator, each with its
    target emotion and its instant. *)
Definition modulations (calls : list (string * Z)) (m : EmotionModulator)
  : EmotionModulator :=
  fold_left (fun m c => snd (modulateVoice (fst c) (snd c) m)) calls m.

(** The history entry a call leaves. *)
Definition history_entry (c : string * Z) : string * Z * Q :=
  (fst c, snd c,
   num_or (assoc "intensity" (getEmotionModifiers (fst c))) (1 # 2)).

(** The voice parameters of a dialogue, if the call returns. *)
Definition voiceParams
    (r : option ((string * VoiceProfile) * list Q * Manager))
  : option VoiceProfile :=
  (fun x => snd (fst (fst x))) <$> r.

(** The default personas, after the villain has spoken once at 500. *)
Definition villain_has_spoken : Manager :=
  match generateDialogue "villain" "Good evening." "cold" None 500 []
          (construct (String.append "voice-of-")) with
  | Some (_, _, mgr) => mgr
  | None => construct (String.append "voice-of-")
  end.

(** An edit that gives the villain another voice. *)
Definition new_voice : PersonaTemplate :=
  mkPersonaTemplate None None
    (Some (mkVoiceProfile "villain_voice" "openai" "tts-1" "onyx" None
             (-6) 1 "neutral" (1 # 10) (9 # 10) (1 # 10)))
    None None None None None None None.

End PersonaRuns.

(* ===================================================================== *)
(** * narrative/session.ts: context updates                               *)
(* ===================================================================== *)

Module SessionContext.
Import JS Types Codec SessionManager.

(** What a [deepMerge] comes to: the merged object, a [TypeError], or a
    key ([__proto__]) whose lookup leaves the own properties. *)
Inductive merged : Type :=
| Merged (result : obj)
| MergeThrows
| MergeUnmodelled.

(** [{ ...v }]: the own enumerable properties of [v], none for
    [undefined] and [null]. *)
Definition spread (v : value) : obj := default [] (Object_entries v).

(** The values [key in v] is defined on. *)
Definition is_object (v : value) : bool :=
  match v with
  | JArr _ | JObj _ | JMap _ => true
  | _ => false
  end.

(** One round of the loop of [deepMerge], for the key [k] of the source
    and its value [x]; [inner] is [deepMerge(target[k], x)]. *)
Definition merge_step (target : value) (k : string) (x : value)
    (inner : merged) (result : obj) : merged :=
  if negb (is_object target) then MergeThrows       (* [k in target] *)
  else if String.eqb k "__proto__" then MergeUnmodelled
  else if typeof_object (obj_get k (spread target)) && typeof_object x
  then match inner with
       | Merged o => Merged (obj_set k (JObj o) result)
       | other => other
       end
  else Merged (obj_set k x result).

(** The loop over the keys of a source object. *)
Fixpoint merge_entries (deepMerge : value -> value -> merged)
    (target : value) (entries : list (string * value)) (result : obj)
  : merged :=
  match entries with
  | [] => Merged result
  | (k, x) :: rest =>
      match merge_step target k x
              (deepMerge (obj_get k (spread target)) x) result with
      | Merged result => merge_entries deepMerge target rest result
      | other => other
      end
  end.

(** The loop over the indices of a source array, from index [i] on. *)
Fixpoint merge_items (deepMerge : value -> value -> merged)
    (target : value) (i : nat) (items : list value) (result : obj)
  : merged :=
  match items with
  | [] => Merged result
  | x :: rest =>
      match merge_step target (pretty i) x
              (deepMerge (obj_get (pretty i) (spread target)) x) result with
      | Merged result => merge_items deepMerge target (S i) rest result
      | other => other
      end
  end.

(** [deepMerge(target, source)]. [Object.keys] throws for [undefined] and
    [null]; a number, a boolean or a [Map] has no keys; the keys of a
    string are its indices, whose values are one-character strings. *)
Fixpoint deepMerge (target source : value) {struct source} : merged :=
  match source with
  | JUndefined | JNull => MergeThrows
  | JObj props =>
      merge_entries (fun t x => deepMerge t x) target props (spread target)
  | JArr items =>
      merge_items (fun t x => deepMerge t x) target 0 items (spread target)
  | JStr s =>
      merge_entries (fun _ _ => MergeThrows) target (spread (JStr s))
        (spread target)
  | JBool _ | JNum _ | JNaN | JMap _ => Merged (spread target)
  end.

(** [updateContext]: the merge is made before anything is written. *)
Definition updateContext (sessionId : string) (updates : value)
    (now : Z) (st : Store) : outcome (option NarrativeSession) :=
  match getSession sessionId now st with
  | (None, st) => Done None st
  | (Some session, st) =>
      match deepMerge (JObj (context session)) updates with
      | Merged ctx =>
          let session := with_context ctx session in
          let session := with_updatedAt now session in
          Done (Some session) (sessions_set sessionId session st)
      | MergeThrows => Threw st
      | MergeUnmodelled => Unmodelled
      end
  end.

End SessionContext.

Module ContextExamples.
Import JS Types Codec SessionManager SessionContext.

(** An update that names the active threads and the character states. *)
Definition new_threads : obj :=
  [("activeThreads", JArr [JStr "the missing key"]);
   ("characterStates", JObj [("butler", JObj [("mood", JStr "uneasy")])])].

End ContextExamples.

(* ===================================================================== *)
(** * narrative/omnichannel.ts: the channel router                        *)
(* ===================================================================== *)

Module Omnichannel.
Import JS Types.

Record ChannelMessage : Type := mkChannelMessage {
  msg_type : string;            (* 'text' | 'voice' | 'visual' | 'hybrid' *)
  msg_content : value;          (* string | VoiceData | VisualData *)
  msg_sessionId : string;
  msg_personaId : option string;
  msg_emotion : option string;
  msg_metadata : option obj
}.

(** The text of an [error] field: one the code writes, or the message of
    the [TypeError] it has caught, which the JavaScript engine words. *)
Inductive error_text : Type :=
| Text (s : string)
| CaughtMessage.

Record ChannelResponse : Type := mkChannelResponse {
  success : bool;
  messageId : option string;
  response_channel : string;
  deliveryTime : Z;
  error : option error_text
}.

Inductive adapter : Type :=
| TextChannelAdapter
| VoiceChannelAdapter
| VisualChannelAdapter
| HybridChannelAdapter.

(** [typeof content !== 'string'] followed by the read of a property of
    the content, which throws for [undefined] and [null]. *)
Definition reads_missing_content (content : value) : bool :=
  match content with
  | JUndefined | JNull => true
  | _ => false
  end.

(** What an adapter answers after a delivery made at [now]. The adapter
    reads the clock before and after the delivery, in one synchronous run,
    so the delivery time it reports is zero. *)
Definition delivered (prefix channel : string) (now : Z) : ChannelResponse :=
  mkChannelResponse true (Some (String.append prefix (pretty now))) channel
    0 None.

(** What it answers from its [catch] block. *)
Definition caught (channel : string) : ChannelResponse :=
  mkChannelResponse false None channel 0 (Some CaughtMessage).

Definition send_text (message : ChannelMessage) (now : Z)
  : ChannelResponse :=
  delivered "text_" "text" now.

Definition send_voice (message : ChannelMessage) (now : Z)
  : ChannelResponse :=
  if String.eqb (msg_type message) "voice"
     && reads_missing_content (msg_content message)
  then caught "voice"
  else delivered "voice_" "voice" now.

Definition send_visual (message : ChannelMessage) (now : Z)
  : ChannelResponse :=
  if String.eqb (msg_type message) "visual"
     && reads_missing_content (msg_content message)
  then caught "visual"
  else delivered "visual_" "visual" now.

(** The hybrid adapter sends on its three adapters at [now] and answers
    when all three have, at [later]. *)
Definition send_hybrid (message : ChannelMessage) (now later : Z)
  : ChannelResponse :=
  let results :=
    [send_text message now; send_voice message now;
     send_visual message now] in
  let allSuccessful := forallb success results in
  mkChannelResponse allSuccessful
    (Some (String.append "hybrid_" (pretty later))) "hybrid" (later - now)
    (if allSuccessful then None else Some (Text "Some channels failed")).

Definition send (a : adapter) (message : ChannelMessage) (now later : Z)
  : ChannelResponse :=
  match a with
  | TextChannelAdapter => send_text message now
  | VoiceChannelAdapter => send_voice message now
  | VisualChannelAdapter => send_visual message now
  | HybridChannelAdapter => send_hybrid message now later
  end.

(** The router: of its configuration only [defaultChannel] is read; the
    adapters are the four the constructor installs. *)
Record Router : Type := mkRouter {
  defaultChannel : string;
  activeSessions : gmap string string
}.

Definition new_Router (defaultChannel : option string) : Router :=
  mkRouter (default "text" defaultChannel) ∅.

(** [this.adapters.get(channel)] *)
Definition getAdapter (channel : string) : option adapter :=
  if String.eqb channel "text" then Some TextChannelAdapter
  else if String.eqb channel "voice" then Some VoiceChannelAdapter
  else if String.eqb channel "visual" then Some VisualChannelAdapter
  else if String.eqb channel "hybrid" then Some HybridChannelAdapter
  else None.

Definition getSessionChannel (sessionId : string) (r : Router)
  : option string :=
  activeSessions r !! sessionId.

Definition setSessionChannel (sessionId channel : string) (r : Router)
  : Router :=
  mkRouter (defaultChannel r) (<[sessionId := channel]> (activeSessions r)).

(** [preferredChannel || this.getSessionChannel(id) || defaultChannel] *)
Definition resolve (preferredChannel : option string) (sessionId : string)
    (r : Router) : string :=
  Persona.str_or preferredChannel
    (Persona.str_or (getSessionChannel sessionId r) (defaultChannel r)).

Definition routeMessage (message : ChannelMessage)
    (preferredChannel : option string) (now later : Z) (r : Router)
  : ChannelResponse :=
  let channel := resolve preferredChannel (msg_sessionId message) r in
  match getAdapter channel with
  | None =>
      mkChannelResponse false None channel 0
        (Some (Text "No adapter available for channel"))
  | Some a => send a message now later
  end.

Definition startSession (session : NarrativeSession) (r : Router) : Router :=
  match getAdapter (channel session) with
  | Some _ => setSessionChannel (id session) (channel session) r
  | None => r
  end.

(** [if (channel)]: a binding to the empty string is not released. *)
Definition endSession (sessionId : string) (r : Router) : Router :=
  match activeSessions r !! sessionId with
  | Some channel =>
      if String.eqb channel "" then r
      else mkRouter (defaultChannel r) (delete sessionId (activeSessions r))
  | None => r
  end.

Definition switchChannel (sessionId newChannel : string) (r : Router)
  : Router :=
  setSessionChannel sessionId newChannel (endSession sessionId r).

End Omnichannel.

(* ===================================================================== *)
(** * narrative/engine.ts: the engine with its channel router             *)
(* ===================================================================== *)

Module EngineChannels.
Import JS Types Codec.

Record System : Type := mkSystem {
  world : Engine.World;
  router : Omnichannel.Router
}.

(** [startSession] with its call to the router, which is made once the
    session exists and before the first node is rendered. [None]: the
    call is rejected. *)
Definition startSession (sessionId : string) (uuids : string -> string)
    (storyId playerId channel : string) (playerVariables : option obj)
    (now : Z) (draws : list Q) (sys : System)
  : option (option (NarrativeSession * string) * list Q * System) :=
  match Engine.startSession sessionId uuids storyId playerId channel
          playerVariables now draws (world sys) with
  | Some (Some (session, content), draws, w) =>
      Some (Some (session, content), draws,
            mkSystem w (Omnichannel.startSession session (router sys)))
  | Some (None, draws, w) => Some (None, draws, mkSystem w (router sys))
  | None => None
  end.

Definition endSession (sessionId : string) (now : Z) (sys : System)
  : System :=
  match SessionManager.getSession sessionId now
          (Engine.sessionManager (world sys)) with
  | (Some session, st) =>
      let r := Omnichannel.endSession sessionId (router sys) in
      let st := snd (SessionManager.deleteSession sessionId st) in
      let w := Engine.with_sessionManager st (world sys) in
      mkSystem
        (Engine.with_activeSessions
           (delete sessionId (Engine.activeSessions w)) w) r
  | (None, st) =>
      mkSystem (Engine.with_sessionManager st (world sys)) (router sys)
  end.

(** [saveGame], on the session store: the export that follows the save
    point is made and dropped; when it throws, the call is rejected after
    the save point was added. *)
Definition saveGame (savePointId sessionId description : string)
    (now : Z) (st : SessionManager.Store)
  : SessionManager.outcome (option string) :=
  match SessionManager.createSavePoint savePointId sessionId description
          None now st with
  | (Some savePoint, st) =>
      match SessionManager.exportSession sessionId now st with
      | SessionManager.Done _ st =>
          SessionManager.Done (Some (sp_id savePoint)) st
      | SessionManager.Threw st => SessionManager.Threw st
      | SessionManager.Unmodelled => SessionManager.Unmodelled
      end
  | (None, st) => SessionManager.Done None st
  end.

Definition loadGame (sessionId savePointId : string) (now : Z)
    (st : SessionManager.Store) : bool * SessionManager.Store :=
  match SessionManager.loadSavePoint sessionId savePointId now st with
  | (Some _, st) => (true, st)
  | (None, st) => (false, st)
  end.

(** [getStats] *)
Record Stats : Type := mkStats {
  stat_activeSessions : nat;
  registeredStories : nat;
  cacheSize : nat
}.

Definition getStats (sys : System) : Stats :=
  mkStats (size (Engine.activeSessions (world sys)))
    (size (Engine.stories (world sys)))
    (size (Engine.cache (world sys))).

(** The engine and the router as the modules create them, with one story
    registered. *)
Definition system0 : System :=
  mkSystem EngineExamples.world0 (Omnichannel.new_Router None).

End EngineChannels.

(* ===================================================================== *)
(** * narrative/enhancements.ts: AdvancedCache                            *)
(* ===================================================================== *)

Module AdvancedCache.

Section Cache.
Context {T : Type}.

Record CacheEntry : Type := mkCacheEntry {
  entry_key : string;
  entry_value : T;
  createdAt : Z;
  lastAccessed : Z;
  accessCount : Z;
  expiresAt : Z
}.

(** The fields of an [AdvancedCache]. [accessCounts] is a [Map] that the
    eviction iterates, so it keeps its insertion order. *)
Record Cache : Type := mkCache {
  cache : gmap string CacheEntry;
  maxSize : Z;
  ttl : Z;
  priority : string;                      (* 'lru' | 'lfu' | 'fifo' *)
  accessOrder : list string;
  accessCounts : list (string * Z)
}.

(** [new AdvancedCache(options)] *)
Definition construct (o_maxSize o_ttl : option Z) (o_priority : option string)
  : Cache :=
  mkCache ∅ (default 1000 o_maxSize) (default (5 * 60 * 1000) o_ttl)
    (default "lru" o_priority) [] [].

(** [accessCounts.set(key, n)]: a present key keeps its place. *)
Fixpoint counts_set (key : string) (n : Z) (l : list (string * Z))
  : list (string * Z) :=
  match l with
  | [] => [(key, n)]
  | (k, m) :: r =>
      if String.eqb key k then (k, n) :: r else (k, m) :: counts_set key n r
  end.

Definition counts_delete (key : string) (l : list (string * Z))
  : list (string * Z) :=
  List.filter (fun km => negb (String.eqb (fst km) key)) l.

Definition without (key : string) (l : list string) : list string :=
  List.filter (fun k => negb (String.eqb k key)) l.

Definition delete (key : string) (c : Cache) : bool * Cache :=
  (bool_decide (is_Some (cache c !! key)),
   mkCache (base.delete key (cache c)) (maxSize c) (ttl c) (priority c)
     (without key (accessOrder c)) (counts_delete key (accessCounts c))).

Definition clear (c : Cache) : Cache :=
  mkCache ∅ (maxSize c) (ttl c) (priority c) [] [].

Definition updateAccess (key : string) (c : Cache) : Cache :=
  let order :=
    if String.eqb (priority c) "lru"
    then (without key (accessOrder c) ++ [key])%list
    else accessOrder c in
  (* [accessCounts.get(key) || 0] *)
  let count := default 0 (Persona.assoc key (accessCounts c)) in
  mkCache (cache c) (maxSize c) (ttl c) (priority c) order
    (counts_set key (count + 1) (accessCounts c)).

(** [None] is [null]. *)
Definition get (key : string) (now : Z) (c : Cache) : option T * Cache :=
  match cache c !! key with
  | None => (None, c)
  | Some entry =>
      (* Check TTL *)
      if expiresAt entry <? now then (None, snd (delete key c))
      else
        (* Update access metadata *)
        let c := updateAccess key c in
        let entry :=
          mkCacheEntry (entry_key entry) (entry_value entry)
            (createdAt entry) now (accessCount entry + 1)
            (expiresAt entry) in
        (Some (entry_value entry),
         mkCache (<[key := entry]> (cache c)) (maxSize c) (ttl c)
           (priority c) (accessOrder c) (accessCounts c))
  end.

(** The scan of the 'lfu' eviction: the first key with the least count;
    [minCount = None] is [Infinity]. *)
Fixpoint least_used (l : list (string * Z)) (minCount : option Z)
    (keyToEvict : option string) : option string :=
  match l with
  | [] => keyToEvict
  | (key, count) :: r =>
      if match minCount with
         | Some least => count <? least
         | None => true
         end
      then least_used r (Some count) (Some key)
      else least_used r minCount keyToEvict
  end.

Definition evict (c : Cache) : Cache :=
  match accessOrder c with
  | [] => c
  | first :: others =>
      let shifted :=
        mkCache (cache c) (maxSize c) (ttl c) (priority c) others
          (accessCounts c) in
      let '(keyToEvict, c) :=
        if String.eqb (priority c) "lru" then (Some first, shifted)
        else if String.eqb (priority c) "lfu"
        then (least_used (accessCounts c) None None, c)
        else if String.eqb (priority c) "fifo" then (Some first, shifted)
        else (None, c) in
      (* [if (keyToEvict)] *)
      match keyToEvict with
      | Some key => if String.eqb key "" then c else snd (delete key c)
      | None => c
      end
  end.

(** [set(key, value, ttl?)] at the instant [now]. *)
Definition set (key : string) (value : T) (o_ttl : option Z) (now : Z)
    (c : Cache) : Cache :=
  (* Evict if at max size *)
  let c := if maxSize c <=? Z.of_nat (size (cache c)) then evict c else c in
  let entry :=
    mkCacheEntry key value now now 1 (now + default (ttl c) o_ttl) in
  mkCache (<[key := entry]> (cache c)) (maxSize c) (ttl c) (priority c)
    (accessOrder c ++ [key]) (counts_set key 1 (accessCounts c)).

(** [prewarm]: the entries in the order [Object.entries] gives them. *)
Definition prewarm (entries : list (string * T)) (now : Z) (c : Cache)
  : Cache :=
  fold_left (fun c kv => set (fst kv) (snd kv) (Some (ttl c * 2)) now c)
    entries c.

(** ** Runs of a cache *)

Inductive call : Type :=
| CacheGet (key : string)
| CacheSet (key : string) (value : T) (o_ttl : option Z)
| CacheDelete (key : string)
| CacheClear
| CachePrewarm (entries : list (string * T)).

Definition exec (op : call) (now : Z) (c : Cache) : Cache :=
  match op with
  | CacheGet key => snd (get key now c)
  | CacheSet key value o_ttl => set key value o_ttl now c
  | CacheDelete key => snd (delete key c)
  | CacheClear => clear c
  | CachePrewarm entries => prewarm entries now c
  end.

Definition run (calls : list (Z * call)) (c : Cache) : Cache :=
  fold_left (fun c tc => exec (snd tc) (fst tc) c) calls c.

(** The keys a call stores under. *)
Definition stored_keys (op : call) : list string :=
  match op with
  | CacheSet key _ _ => [key]
  | CachePrewarm entries => List.map fst entries
  | _ => []
  end.

(** The three eviction policies. *)
Definition known_priority (p : string) : bool :=
  String.eqb p "lru" || String.eqb p "lfu" || String.eqb p "fifo".

(** The three structures of a cache agree on its keys, and the empty
    string is not one of them. *)
Definition consistent (c : Cache) : Prop :=
  (forall k, In k (accessOrder c) <-> is_Some (cache c !! k))
  /\ (forall k, In k (List.map fst (accessCounts c))
                <-> is_Some (cache c !! k))
  /\ cache c !! "" = None.

End Cache.

Arguments CacheEntry : clear implicits.
Arguments Cache : clear implicits.
Arguments call : clear implicits.

End AdvancedCache.

(* ===================================================================== *)
(** * Properties: objects                                                 *)
(* ===================================================================== *)

Module JSProps.
Import JS.

Lemma obj_get_replace_eq k v o :
  obj_has k o = true -> obj_get k (obj_replace k v o) = v.
Proof.
  induction o as [|[k' v'] r IH]; simpl; [discriminate|].
  destruct (String.eqb k k') eqn:E; simpl.
  - now rewrite String.eqb_refl.
  - rewrite E. exact IH.
Qed.

Lemma obj_get_replace_ne k k' v o :
  k' <> k -> obj_get k' (obj_replace k v o) = obj_get k' o.
Proof.
  intros Hne. induction o as [|[k0 v0] r IH]; simpl; [reflexivity|].
  destruct (String.eqb k k0) eqn:E; simpl.
  - apply String.eqb_eq in E. subst k0.
    destruct (String.eqb k' k) eqn:E'; [|reflexivity].
    apply String.eqb_eq in E'. contradiction.
  - now rewrite IH.
Qed.

Lemma obj_get_absent k o : obj_has k o = false -> obj_get k o = JUndefined.
Proof.
  induction o as [|[k' v'] r IH]; simpl; [reflexivity|].
  destruct (String.eqb k k'); simpl; [discriminate|exact IH].
Qed.

Lemma obj_get_app k o1 o2 :
  obj_get k (o1 ++ o2) = if obj_has k o1 then obj_get k o1 else obj_get k o2.
Proof.
  induction o1 as [|[k' v'] r IH]; simpl; [reflexivity|].
  destruct (String.eqb k k'); simpl; [reflexivity|exact IH].
Qed.

Lemma obj_get_insert_index_eq n k v o :
  obj_has k o = false -> obj_get k (obj_insert_index n k v o) = v.
Proof.
  induction o as [|[k' v'] r IH]; simpl.
  - now rewrite String.eqb_refl.
  - destruct (String.eqb k k') eqn:E; simpl; [discriminate|]. intros Hr.
    destruct (array_index k') as [m|]; [destruct (m <? n)%N|]; simpl;
      rewrite ?E, ?String.eqb_refl; auto.
Qed.

Lemma obj_get_insert_index_ne n k k' v o :
  k' <> k -> obj_get k' (obj_insert_index n k v o) = obj_get k' o.
Proof.
  intros Hne. apply String.eqb_neq in Hne.
  induction o as [|[k0 v0] r IH]; simpl.
  - now rewrite Hne.
  - destruct (array_index k0) as [m|]; [destruct (m <? n)%N|]; simpl;
      rewrite ?Hne, ?IH; auto.
Qed.

(** Reading back the property just written. *)
Lemma obj_get_set_eq k v o : obj_get k (obj_set k v o) = v.
Proof.
  unfold obj_set. destruct (obj_has k o) eqn:H.
  - now apply obj_get_replace_eq.
  - destruct (array_index k).
    + now apply obj_get_insert_index_eq.
    + rewrite obj_get_app, H. simpl. now rewrite String.eqb_refl.
Qed.

(** The other properties keep their values. *)
Lemma obj_get_set_ne k k' v o : k' <> k -> obj_get k' (obj_set k v o) = obj_get k' o.
Proof.
  intros Hne. unfold obj_set. destruct (obj_has k o) eqn:H.
  - now apply obj_get_replace_ne.
  - destruct (array_index k).
    + now apply obj_get_insert_index_ne.
    + rewrite obj_get_app. simpl. apply String.eqb_neq in Hne. rewrite Hne.
      destruct (obj_has k' (o)) eqn:H'; [reflexivity|].
      symmetry. now apply obj_get_absent.
Qed.

End JSProps.

(* ===================================================================== *)
(** * Properties: the session store                                       *)
(* ===================================================================== *)

Module SessionProps.
Import JS Types Codec SessionManager JSProps Spec Examples.

(** ** Reading a session *)

Lemma getSession_cases sessionId now st :
  (getSession sessionId now st = (None, st)
   /\ sessions st !! sessionId = None)
  \/ (exists session expiry,
        getSession sessionId now st
        = (None, snd (deleteSession sessionId st))
        /\ sessions st !! sessionId = Some session
        /\ sessionExpiry st !! sessionId = Some expiry
        /\ expiry <> 0 /\ expiry < now)
  \/ (exists session,
        getSession sessionId now st = (Some session, st)
        /\ sessions st !! sessionId = Some session).
Proof.
  unfold getSession.
  destruct (sessions st !! sessionId) as [session|] eqn:Hs; [|left; auto].
  right.
  destruct (sessionExpiry st !! sessionId) as [expiry|] eqn:He.
  - destruct (negb (expiry =? 0) && (expiry <? now)) eqn:Hb.
    + left. exists session, expiry.
      apply andb_true_iff in Hb as [H0 Hlt].
      apply negb_true_iff, Z.eqb_neq in H0. apply Z.ltb_lt in Hlt. auto.
    + right. eauto.
  - right. eauto.
Qed.

Lemma getSession_found sessionId now st session st' :
  getSession sessionId now st = (Some session, st') ->
  st' = st /\ sessions st !! sessionId = Some session.
Proof.
  intros H.
  destruct (getSession_cases sessionId now st)
    as [[E _]|[(s & e & E & _)|(s & E & Hs)]]; rewrite E in H;
    inversion H; subst; auto.
Qed.

Lemma deleteSession_lookup sessionId st k :
  sessions (snd (deleteSession sessionId st)) !! k
  = if decide (sessionId = k) then None else sessions st !! k.
Proof. simpl. apply lookup_delete. Qed.

(** ** [updateState] *)

(** The merge is the only thing that can change the path: the push that
    follows it is never taken. *)
Lemma updateState_body_storyPath updates now session :
  storyPath (state (updateState_body updates now session))
  = default (storyPath (state session)) (u_storyPath updates).
Proof.
  unfold updateState_body.
  destruct (u_currentNode updates) as [node|] eqn:Hn; simpl; [|reflexivity].
  rewrite Hn. simpl. rewrite String.eqb_refl. simpl.
  rewrite andb_false_r. reflexivity.
Qed.

Lemma updateState_body_timestamps updates now session :
  lastActionAt (state (updateState_body updates now session)) = now
  /\ updatedAt (updateState_body updates now session) = now.
Proof.
  unfold updateState_body.
  destruct (u_currentNode updates) as [node|]; simpl; [|auto].
  match goal with |- context [if ?b then _ else _] => destruct b end;
    simpl; auto.
Qed.

(** C1: [updateState] with a [currentNode] that differs from the
    session's current node. The call succeeds, the session is at the new
    node and both timestamps are refreshed, but the path log is what it
    was: the new node id is not appended. *)
Theorem updateState_leaves_path_untracked :
  exists session st,
    updateState "s1" move_to_foyer 2000 created = (Some session, st)
    /\ currentNode (state session) = "foyer"
    /\ storyPath (state session) = ["entrance"]
    /\ lastActionAt (state session) = 2000
    /\ updatedAt session = 2000.
Proof.
  eexists. eexists. split; [vm_compute; reflexivity|].
  repeat split.
Qed.

(** ** [makeChoice] *)

Lemma find_unoffered choiceId (cs : list StoryChoice) :
  (forall c, In c cs -> choice_id c <> choiceId) ->
  List.find (fun c => String.eqb (choice_id c) choiceId) cs = None.
Proof.
  induction cs as [|c r IH]; simpl; intros H; [reflexivity|].
  destruct (String.eqb (choice_id c) choiceId) eqn:E.
  - apply String.eqb_eq in E. exfalso. apply (H c); auto.
  - apply IH. intros c' Hc'. apply H. auto.
Qed.

(** C4: a choice id that is not among the offered choices of the session
    is answered with the null pair, and the session is left exactly as it
    was: the store after the call holds no other value for it (an expired
    session is evicted by the read, it is not altered), and a live session
    leaves the whole store unchanged. *)
Theorem makeChoice_unoffered_is_rejected sessionId choiceId now st session :
  sessions st !! sessionId = Some session ->
  (forall c, In c (choices (state session)) -> choice_id c <> choiceId) ->
  exists st',
    makeChoice sessionId choiceId now st = Done (None, None) st'
    /\ (forall session',
          sessions st' !! sessionId = Some session' -> session' = session)
    /\ (live sessionId now st session -> st' = st).
Proof.
  intros Hs Hnot. unfold makeChoice, live.
  destruct (getSession_cases sessionId now st)
    as [[E Hn]|[(s & e & E & Hs' & _)|(s & E & Hs')]]; rewrite E.
  - congruence.
  - eexists. split; [reflexivity|]. split.
    + intros s'. rewrite deleteSession_lookup.
      destruct (decide (sessionId = sessionId)); congruence.
    + discriminate.
  - assert (s = session) by congruence. subst s.
    rewrite (find_unoffered _ _ Hnot).
    eexists. split; [reflexivity|]. split; [|reflexivity].
    intros s'. congruence.
Qed.

Lemma makeChoice_unoffered_is_rejected_witness :
  let session :=
    offering [plain_choice "enter" "Enter through the front door" "foyer"]
      1500 entrance_session in
  sessions offered_enter !! "s1" = Some session
  /\ (forall c, In c (choices (state session)) -> choice_id c <> "explore")
  /\ exists st',
       makeChoice "s1" "explore" 2000 offered_enter = Done (None, None) st'
       /\ (forall session',
             sessions st' !! "s1" = Some session' -> session' = session)
       /\ (live "s1" 2000 offered_enter session -> st' = offered_enter).
Proof.
  intros session.
  assert (Hs : sessions offered_enter !! "s1" = Some session)
    by (vm_compute; reflexivity).
  assert (Hc : forall c, In c (choices (state session)) ->
                         choice_id c <> "explore").
  { simpl. intros c [<-|[]]. discriminate. }
  split; [exact Hs|]. split; [exact Hc|].
  exact (makeChoice_unoffered_is_rejected "s1" "explore" 2000 offered_enter
           session Hs Hc).
Defined.

(** *** Accepted choices *)














End SessionProps.

(* ===================================================================== *)
(** * Properties: tension events                                          *)
(* ===================================================================== *)

Module TensionProps.
Import JS Types Codec SessionManager JSProps Spec Examples SessionProps
       SessionRuns.

Lemma updateState_body_tension updates now session :
  tensionLevel (state (updateState_body updates now session))
  = default (tensionLevel (state session)) (u_tensionLevel updates).
Proof.
  unfold updateState_body.
  destruct (u_currentNode updates) as [node|]; simpl; [|reflexivity].
  match goal with |- context [if ?b then _ else _] => destruct b end;
    reflexivity.
Qed.

Lemma tension_in_bounds_delete sessionId st :
  tension_in_bounds st ->
  tension_in_bounds (snd (deleteSession sessionId st)).
Proof.
  intros H k s. rewrite deleteSession_lookup.
  destruct (decide (sessionId = k)); [discriminate|apply H].
Qed.

Lemma tension_in_bounds_set sessionId session st :
  tension_in_bounds st ->
  0 <= tensionLevel (state session) <= 100 ->
  tension_in_bounds (sessions_set sessionId session st).
Proof.
  intros H Hb k s. simpl. rewrite lookup_insert.
  destruct (decide (sessionId = k)); [|apply H].
  intros E. inversion E. subst. exact Hb.
Qed.

(** What a tension event does to a live session. *)
Lemma triggerEvent_tension_live sessionId eventType parameters now st
    session level :
  live sessionId now st session ->
  (eventType = "increase_tension"
   /\ level = Z.min 100 (tensionLevel (state session) + 20))
  \/ (eventType = "decrease_tension"
      /\ level = Z.max 0 (tensionLevel (state session) - 20)) ->
  exists session',
    Engine.triggerEvent sessionId eventType parameters now st
    = Some (sessions_set sessionId session' st)
    /\ tensionLevel (state session') = level.
Proof.
  unfold live. intros Hl Hev. unfold Engine.triggerEvent. rewrite Hl.
  destruct Hev as [[-> ->] | [-> ->]]; simpl; unfold updateState;
    rewrite Hl; simpl; eexists; (split; [reflexivity|]);
    now rewrite updateState_body_tension.
Qed.

Lemma triggerEvent_tension_bounds sessionId eventType parameters now st :
  tension_event eventType = true ->
  tension_in_bounds st ->
  exists st',
    Engine.triggerEvent sessionId eventType parameters now st = Some st'
    /\ tension_in_bounds st'.
Proof.
  intros Hev Hb.
  destruct (getSession_cases sessionId now st)
    as [[E Hn]|[(s & e & E & Hs' & _)|(s & E & Hs')]].
  - unfold Engine.triggerEvent. rewrite E. eauto.
  - unfold Engine.triggerEvent. rewrite E. eexists. split; [reflexivity|].
    now apply tension_in_bounds_delete.
  - unfold tension_event in Hev. apply orb_true_iff in Hev.
    pose proof (Hb _ _ Hs') as Hrange.
    destruct Hev as [H|H]; apply String.eqb_eq in H; subst eventType.
    + destruct (triggerEvent_tension_live sessionId "increase_tension"
                  parameters now st s _ E (or_introl (conj eq_refl eq_refl)))
        as (s' & Es & Ht).
      rewrite Es. eexists. split; [reflexivity|].
      apply tension_in_bounds_set; [exact Hb|]. rewrite Ht. lia.
    + destruct (triggerEvent_tension_live sessionId "decrease_tension"
                  parameters now st s _ E (or_intror (conj eq_refl eq_refl)))
        as (s' & Es & Ht).
      rewrite Es. eexists. split; [reflexivity|].
      apply tension_in_bounds_set; [exact Hb|]. rewrite Ht. lia.
Qed.

(** C8: from a store whose sessions have their tension level within
    0..100, every sequence of [increase_tension] and [decrease_tension]
    events runs to the end and leaves every tension level within 0..100;
    on a live session one event sets the level to [min(100, level + 20)],
    respectively [max(0, level - 20)]. *)
Theorem tension_stays_in_bounds events st :
  Forall (fun e => tension_event (snd (fst (fst e))) = true) events ->
  tension_in_bounds st ->
  (exists st', triggerEvents events st = Some st' /\ tension_in_bounds st')
  /\ (forall sessionId parameters now session,
        live sessionId now st session ->
        (exists session',
           Engine.triggerEvent sessionId "increase_tension" parameters now st
           = Some (sessions_set sessionId session' st)
           /\ tensionLevel (state session')
              = Z.min 100 (tensionLevel (state session) + 20))
        /\ (exists session',
              Engine.triggerEvent sessionId "decrease_tension" parameters
                now st
              = Some (sessions_set sessionId session' st)
              /\ tensionLevel (state session')
                 = Z.max 0 (tensionLevel (state session) - 20))).
Proof.
  intros Hev Hb. split.
  - revert st Hb. induction Hev as [|[[[sid ty] ps] now] r Hty _ IH];
      intros st Hb; simpl.
    + eauto.
    + simpl in Hty.
      destruct (triggerEvent_tension_bounds sid ty ps now st Hty Hb)
        as (st1 & E & Hb1).
      rewrite E. apply IH. exact Hb1.
  - intros sid ps now s Hl. split.
    + apply triggerEvent_tension_live with (session := s); auto.
    + apply triggerEvent_tension_live with (session := s); auto.
Qed.

Lemma tension_stays_in_bounds_witness :
  let events :=
    [("s1", "increase_tension", None, 2000);
     ("s1", "increase_tension", None, 2001);
     ("s1", "increase_tension", None, 2002);
     ("s1", "increase_tension", None, 2003);
     ("s1", "increase_tension", None, 2004);
     ("s1", "increase_tension", None, 2005);
     ("s1", "decrease_tension", None, 2006)] in
  Forall (fun e => tension_event (snd (fst (fst e))) = true) events
  /\ tension_in_bounds created
  /\ (exists st',
        triggerEvents events created = Some st' /\ tension_in_bounds st').
Proof.
  intros events.
  assert (H1 : Forall (fun e => tension_event (snd (fst (fst e))) = true)
                 events).
  { repeat constructor. }
  assert (H2 : tension_in_bounds created).
  { intros k s. unfold created. simpl. rewrite lookup_insert.
    destruct (decide ("s1" = k)); [|rewrite lookup_empty; discriminate].
    intros E. inversion E. simpl. lia. }
  split; [exact H1|]. split; [exact H2|].
  exact (proj1 (tension_stays_in_bounds events created H1 H2)).
Defined.

End TensionProps.

(* ===================================================================== *)
(** * Properties: expiry                                                  *)
(* ===================================================================== *)

Module ExpiryProps.
Import JS Types Codec SessionManager JSProps Spec Examples SessionProps
       SessionRuns.

Section Expiry.
Variable expiryMs : Z.
Hypothesis expiryMs_pos : 0 < expiryMs.

Local Abbreviation tracked := (expiry_tracked expiryMs).

Lemma tracked_later st g T T' : tracked st g T -> T <= T' -> tracked st g T'.
Proof.
  intros H Hle k s Hs. destruct (H k s Hs) as (e & t & ? & ? & ? & ? & ?).
  exists e, t. repeat split; auto; lia.
Qed.

Lemma tracked_delete sessionId st g T :
  tracked st g T -> tracked (snd (deleteSession sessionId st)) g T.
Proof.
  intros H k s. rewrite deleteSession_lookup.
  destruct (decide (sessionId = k)) as [|Hne]; [discriminate|].
  intros Hs. destruct (H k s Hs) as (e & t & He & ?).
  exists e, t. split; [|auto]. simpl. now rewrite lookup_delete_ne.
Qed.

Lemma tracked_read sessionId now st g T :
  tracked st g T -> tracked (snd (getSession sessionId now st)) g T.
Proof.
  intros H.
  destruct (getSession_cases sessionId now st)
    as [[E _]|[(s & e & E & _)|(s & E & _)]]; rewrite E; simpl; auto.
  now apply (tracked_delete sessionId).
Qed.

(** A write to a session the store holds, recorded as its last mutation. *)
Lemma tracked_write sessionId session session' now st g T :
  tracked st g T ->
  sessions st !! sessionId = Some session ->
  T <= now ->
  tracked (sessions_set sessionId session' st) (<[sessionId := now]> g) now.
Proof.
  intros H Hs Hle k s. simpl. rewrite lookup_insert.
  destruct (decide (sessionId = k)) as [<-|Hne].
  - intros _. destruct (H _ _ Hs) as (e & t & He & Hpos & Hg & Hb & Ht).
    exists e, now. rewrite lookup_insert_eq. repeat split; auto; lia.
  - intros Hk. destruct (H _ _ Hk) as (e & t & He & Hpos & Hg & Hb & Ht).
    exists e, t. rewrite lookup_insert_ne by exact Hne.
    repeat split; auto; lia.
Qed.

(** A write that is not recorded (the call was left through an error). *)
Lemma tracked_write_quiet sessionId session session' st g T :
  tracked st g T ->
  sessions st !! sessionId = Some session ->
  tracked (sessions_set sessionId session' st) g T.
Proof.
  intros H Hs k s. simpl. rewrite lookup_insert.
  destruct (decide (sessionId = k)) as [<-|Hne].
  - intros _. exact (H _ _ Hs).
  - intros Hk. exact (H _ _ Hk).
Qed.

(** Creation and import: session and expiry entry are written together. *)
Lemma tracked_register sessionId session now st g T :
  tracked st g T ->
  0 <= now -> T <= now ->
  tracked (sessionExpiry_set sessionId (now + expiryMs)
             (sessions_set sessionId session st))
    (<[sessionId := now]> g) now.
Proof.
  intros H H0 Hle k s. simpl. rewrite !lookup_insert.
  destruct (decide (sessionId = k)) as [<-|Hne].
  - intros _. exists (now + expiryMs), now. repeat split; auto; lia.
  - intros Hk. destruct (H _ _ Hk) as (e & t & He & Hpos & Hg & Hb & Ht).
    exists e, t. repeat split; auto; lia.
Qed.

Lemma tracked_cleanup now st g T : tracked st g T -> tracked (cleanup now st) g T.
Proof.
  intros H k s. unfold cleanup. simpl.
  rewrite map_lookup_filter_Some. simpl. intros [Hs Hkeep].
  destruct (H _ _ Hs) as (e & t & He & Hpos & Hg & Hb & Ht).
  exists e, t. split; [|auto].
  rewrite map_lookup_filter_Some. simpl. split; [exact He|].
  now rewrite He in Hkeep.
Qed.

(** The shape shared by the mutators. *)
Lemma tracked_mutator sessionId now st g T
    (k : NarrativeSession -> NarrativeSession) :
  tracked st g T -> T <= now ->
  tracked
    (match getSession sessionId now st with
     | (None, st0) => st0
     | (Some session, st0) => sessions_set sessionId (k session) st0
     end)
    (match found sessionId now st with
     | Some i => <[i := now]> g
     | None => g
     end) now.
Proof.
  intros H Hle. unfold found.
  destruct (getSession_cases sessionId now st)
    as [[E _]|[(s & e & E & _)|(s & E & Hs)]]; rewrite E; simpl.
  - now apply tracked_later with T.
  - apply tracked_later with T; [|exact Hle]. now apply (tracked_delete sessionId).
  - now apply tracked_write with s T.
Qed.

Ltac mutator_shape k :=
  match goal with
  | H : tracked ?st ?g ?T, Hle : ?T <= ?now
    |- context [found ?sid ?now ?st] =>
      pose proof (tracked_mutator sid now st g T k H Hle) as Hm;
      destruct (getSession sid now st) as [[?|] ?]; exact Hm
  end.

(** Every call keeps the invariant. *)
Lemma exec_tracked c now st g T st' written :
  tracked st g T -> 0 <= now -> T <= now ->
  exec expiryMs c now st = Some (st', written) ->
  tracked st'
    (match written with Some i => <[i := now]> g | None => g end) now.
Proof.
  intros H H0 Hle E.
  assert (Hlater : tracked st g now) by (now apply tracked_later with T).
  destruct c; simpl in E.
  - (* createSession *)
    inversion E; subst. now apply tracked_register with T.
  - (* getSession *)
    inversion E; subst. now apply tracked_read.
  - (* updateState *)
    inversion E; subst. unfold updateState.
    mutator_shape (fun s => updateState_body updates now s).
  - (* setChoices *)
    inversion E; subst. unfold setChoices.
    mutator_shape
      (fun s => with_updatedAt now
                  (with_state (with_choices cs (state s)) s)).
  - (* makeChoice *)
    unfold makeChoice in E.
    destruct (getSession_cases sessionId now st)
      as [[Eg _]|[(s & e & Eg & _)|(s & Eg & Hs)]]; rewrite Eg in E.
    + inversion E; subst. exact Hlater.
    + inversion E; subst. now apply (tracked_delete sessionId).
    + destruct (find _ _) as [choice|]; [|inversion E; subst; exact Hlater].
      destruct (applyConsequences s choice) as [s1|s1|];
        inversion E; subst.
      * now apply tracked_write with s T.
      * now apply tracked_write_quiet with s.
  - (* setEmotionalTone *)
    inversion E; subst. unfold setEmotionalTone.
    mutator_shape
      (fun s => with_updatedAt now
                  (with_state (with_emotionalTone tone (state s)) s)).
  - (* setVariable *)
    inversion E; subst. unfold setVariable.
    mutator_shape
      (fun s => with_updatedAt now
                  (with_state
                     (with_variables (obj_set key v (variables (state s)))
                        (state s)) s)).
  - (* getVariable *)
    inversion E; subst. unfold getVariable.
    pose proof (tracked_read sessionId now st g now Hlater) as Hr.
    destruct (getSession sessionId now st) as [[?|] ?]; exact Hr.
  - (* createSavePoint *)
    inversion E; subst. unfold createSavePoint.
    mutator_shape
      (fun s => with_updatedAt now
                  (with_metadata
                     (with_savePoints
                        (savePoints (metadata s)
                         ++ [mkSavePoint savePointId (currentNode (state s))
                               now description (written thumbnail)])
                        (metadata s)) s)).
  - (* loadSavePoint *)
    unfold loadSavePoint in E.
    destruct (getSession_cases sessionId now st)
      as [[Eg _]|[(s & e & Eg & _)|(s & Eg & Hs)]]; rewrite Eg in E.
    + inversion E; subst. exact Hlater.
    + inversion E; subst. now apply (tracked_delete sessionId).
    + destruct (find _ _) as [sp|]; inversion E; subst;
        [now apply tracked_write with s T|exact Hlater].
  - (* addPlaytime *)
    inversion E; subst. unfold addPlaytime.
    mutator_shape
      (fun s => with_updatedAt now
                  (with_metadata
                     (with_totalPlaytime
                        (totalPlaytime (metadata s) + milliseconds)
                        (metadata s)) s)).
  - (* deleteSession *)
    inversion E; subst. now apply (tracked_delete sessionId).
  - (* exportSession *)
    unfold exportSession in E.
    pose proof (tracked_read sessionId now st g now Hlater) as Hr.
    destruct (getSession sessionId now st) as [[s|] st0]; simpl in Hr.
    + destruct (obj_get "characterStates" (context s));
        inversion E; subst; exact Hr.
    + inversion E; subst; exact Hr.
  - (* importSession *)
    unfold importSession in E.
    destruct data as [doc|]; [|inversion E; subst; exact Hlater].
    destruct (JSON_parse doc); try (inversion E; subst; exact Hlater).
    destruct (obj_get "context" props);
      try (inversion E; subst; exact Hlater).
    destruct (Object_entries _); [|inversion E; subst; exact Hlater].
    destruct (session_of_js _) as [parsed|]; [|discriminate].
    inversion E; subst. now apply tracked_register with T.
  - (* cleanup *)
    inversion E; subst. now apply tracked_cleanup.
  - (* the other mutators *)
    inversion E; subst. unfold mutate.
    mutator_shape (fun s => with_updatedAt now (f s)).
Qed.

Lemma run_tracked calls : forall st g T st' g' now,
  tracked st g T -> 0 <= T ->
  chronological T calls now ->
  run expiryMs calls st g = Some (st', g') ->
  tracked st' g' now.
Proof.
  induction calls as [|[t c] r IH]; intros st g T st' g' now H H0 Hc E;
    simpl in *.
  - inversion E; subst. now apply tracked_later with T.
  - destruct Hc as [Hle Hc].
    destruct (exec expiryMs c t st) as [[st1 w]|] eqn:Ex; [|discriminate].
    assert (Ht : tracked st1
                   (match w with Some i => <[i := t]> g | None => g end) t).
    { apply exec_tracked with c st T; auto. lia. }
    destruct w; eapply IH; eauto; lia.
Qed.

(** Behind its expiry a session is not returned. *)
Lemma tracked_expired st g T sessionId t now :
  tracked st g T ->
  g !! sessionId = Some t ->
  t + expiryMs < now ->
  fst (getSession sessionId now st) = None.
Proof.
  intros H Hg Hlt. unfold getSession.
  destruct (sessions st !! sessionId) as [s|] eqn:Hs; [|reflexivity].
  destruct (H _ _ Hs) as (e & t' & He & Hpos & Hg' & Hb & _).
  rewrite He. assert (t' = t) by congruence. subst t'.
  replace (e =? 0) with false by (symmetry; apply Z.eqb_neq; lia).
  replace (e <? now) with true by (symmetry; apply Z.ltb_lt; lia).
  reflexivity.
Qed.

End Expiry.

(** C2: in every run of the session manager from the empty store, with a
    positive time to live and a clock that does not go back, [getSession]
    returns null for a session once more than the time to live has passed
    since its last mutation; no sweep is needed, the read itself checks
    the expiry. *)
Theorem getSession_null_after_ttl expiryMs calls st lastMutation
    sessionId t now :
  0 < expiryMs ->
  chronological 0 calls now ->
  run expiryMs calls empty_store ∅ = Some (st, lastMutation) ->
  lastMutation !! sessionId = Some t ->
  t + expiryMs < now ->
  fst (getSession sessionId now st) = None.
Proof.
  intros Hpos Hc Hrun Hg Hlt.
  eapply tracked_expired; [|exact Hg|exact Hlt].
  eapply (run_tracked expiryMs Hpos calls empty_store ∅ 0);
    [|lia|exact Hc|exact Hrun].
  intros k s. simpl. rewrite lookup_empty. discriminate.
Qed.

Lemma getSession_null_after_ttl_witness :
  let calls :=
    [(1000, CreateSession "s1" "mystery_manor" "player_1" "text" "entrance" []);
     (5000, SetVariable "s1" "lamp" (JBool true))] in
  let now := 5000 + DEFAULT_EXPIRY_MS + 1 in
  0 < DEFAULT_EXPIRY_MS
  /\ chronological 0 calls now
  /\ (exists st lastMutation,
        run DEFAULT_EXPIRY_MS calls empty_store ∅ = Some (st, lastMutation)
        /\ lastMutation !! "s1" = Some 5000
        /\ 5000 + DEFAULT_EXPIRY_MS < now
        /\ fst (getSession "s1" now st) = None).
Proof.
  intros calls now.
  assert (H1 : 0 < DEFAULT_EXPIRY_MS) by reflexivity.
  assert (H2 : chronological 0 calls now).
  { unfold now. simpl. vm_compute. repeat split; discriminate. }
  split; [exact H1|]. split; [exact H2|].
  destruct (run DEFAULT_EXPIRY_MS calls empty_store ∅) as [[st g]|] eqn:Hrun;
    [|vm_compute in Hrun; discriminate].
  exists st, g. split; [reflexivity|].
  assert (H3 : g !! "s1" = Some 5000).
  { vm_compute in Hrun. inversion Hrun. vm_compute. reflexivity. }
  assert (H4 : 5000 + DEFAULT_EXPIRY_MS < now) by (unfold now; lia).
  split; [exact H3|]. split; [exact H4|].
  exact (getSession_null_after_ttl DEFAULT_EXPIRY_MS calls st g "s1" 5000 now
           H1 H2 Hrun H3 H4).
Defined.

(** The expiry is set when the session is created or imported and no
    mutation moves it: a session mutated one millisecond before its expiry
    is gone two milliseconds later. *)
Lemma expiry_is_not_moved_by_mutation :
  let calls :=
    [(1000, CreateSession "s1" "mystery_manor" "player_1" "text" "entrance" []);
     (1000 + DEFAULT_EXPIRY_MS - 1, SetVariable "s1" "lamp" (JBool true))] in
  exists st lastMutation,
    run DEFAULT_EXPIRY_MS calls empty_store ∅ = Some (st, lastMutation)
    /\ lastMutation !! "s1" = Some (1000 + DEFAULT_EXPIRY_MS - 1)
    /\ is_Some (sessions st !! "s1")
    /\ fst (getSession "s1" (1000 + DEFAULT_EXPIRY_MS + 1) st) = None.
Proof.
  eexists. eexists. split; [vm_compute; reflexivity|].
  split; [vm_compute; reflexivity|].
  split; [vm_compute; eauto|]. vm_compute. reflexivity.
Qed.

End ExpiryProps.

(* ===================================================================== *)
(** * Properties: the model registry                                      *)
(* ===================================================================== *)

Module ModelProps.
Import ModelManager ModelSpec.

(** ** Sorting and the models map *)

Lemma sort_insert_perm {A} (cmp : A -> A -> Z) x l :
  sort_insert cmp x l ≡ₚ x :: l.
Proof.
  induction l as [|y r IH]; simpl; [reflexivity|].
  destruct (cmp x y <=? 0); [reflexivity|].
  rewrite IH. apply Permutation_swap.
Qed.

Lemma sort_perm {A} (cmp : A -> A -> Z) l : sort cmp l ≡ₚ l.
Proof.
  induction l as [|x r IH]; simpl; [reflexivity|].
  now rewrite sort_insert_perm, IH.
Qed.

Lemma models_get_In k l m : models_get k l = Some m -> In (k, m) l.
Proof.
  induction l as [|[k' m'] r IH]; simpl; [discriminate|].
  destruct (String.eqb k k') eqn:E.
  - apply String.eqb_eq in E. intros H. inversion H. subst. now left.
  - intros H. right. now apply IH.
Qed.

Lemma models_set_keys k m l :
  forall k', In k' (List.map fst (models_set k m l))
             <-> k' = k \/ In k' (List.map fst l).
Proof.
  induction l as [|[k0 m0] r IH]; simpl; intros k'.
  - intuition.
  - destruct (String.eqb k k0) eqn:E; simpl.
    + apply String.eqb_eq in E. subst. intuition.
    + rewrite IH. intuition.
Qed.

Lemma models_set_NoDup k m l :
  NoDup (List.map fst l) -> NoDup (List.map fst (models_set k m l)).
Proof.
  induction l as [|[k0 m0] r IH]; simpl; intros H.
  - repeat constructor. intros Hin. inversion Hin.
  - apply NoDup_cons in H as [Hn Hr].
    destruct (String.eqb k k0) eqn:E; simpl.
    + apply String.eqb_eq in E. subst. now apply NoDup_cons.
    + apply NoDup_cons. split; [|auto].
      rewrite list_elem_of_In, models_set_keys.
      rewrite list_elem_of_In in Hn.
      apply String.eqb_neq in E. intros [->|Hin]; auto.
Qed.

Lemma models_set_In k m l k' m' :
  In (k', m') (models_set k m l) -> (k' = k /\ m' = m) \/ In (k', m') l.
Proof.
  induction l as [|[k0 m0] r IH]; simpl.
  - intros [H|[]]. inversion H. auto.
  - destruct (String.eqb k k0); simpl.
    + intros [H|H]; [inversion H|]; auto.
    + intros [H|H]; auto. destruct (IH H); auto.
Qed.

(** Stored under their ids, the models have the ids of the keys. *)
Lemma models_ids l :
  (forall k m, In (k, m) l -> model_id m = k) ->
  List.map model_id (models_values l) = List.map fst l.
Proof.
  unfold models_values. induction l as [|[k m] r IH]; simpl; intros H;
    [reflexivity|].
  f_equal; [apply H; now left|]. apply IH. intros. apply H. now right.
Qed.

Lemma NoDup_map_filter {A B} (f : A -> B) (p : A -> bool) l :
  NoDup (List.map f l) -> NoDup (List.map f (List.filter p l)).
Proof.
  induction l as [|x r IH]; simpl; intros H; [constructor|].
  apply NoDup_cons in H as [Hn Hr].
  destruct (p x); simpl; [|auto].
  apply NoDup_cons. split; [|auto].
  rewrite list_elem_of_In, in_map_iff. rewrite list_elem_of_In, in_map_iff in Hn.
  intros (y & Hy & Hin). apply Hn. exists y. split; [exact Hy|].
  apply filter_In in Hin. tauto.
Qed.

Lemma buildChainForRequest_NoDup requestType mgr :
  well_formed mgr -> NoDup (buildChainForRequest requestType mgr).
Proof.
  intros (Hk & Hid & _).
  assert (Hcap : forall capability,
             NoDup (List.map model_id (getModelsByCapability capability mgr))).
  { intros capability. unfold getModelsByCapability.
    rewrite (Permutation_map model_id (sort_perm _ _)).
    apply NoDup_map_filter. now rewrite models_ids. }
  unfold buildChainForRequest.
  destruct (_ || _); [apply NoDup_map_filter|]; apply Hcap.
Qed.

(** ** Well-formedness along a run *)

Lemma getFallbackChain_well_formed requestType mgr :
  well_formed mgr -> well_formed (snd (getFallbackChain requestType mgr)).
Proof.
  intros H. unfold getFallbackChain.
  destruct (fallbackChains mgr !! requestType) eqn:E; [exact H|].
  destruct H as (Hk & Hid & Hc). repeat split; auto.
  intros rt c. simpl. rewrite lookup_insert.
  destruct (decide (requestType = rt)); [|apply Hc].
  intros Ec. inversion Ec. simpl.
  apply buildChainForRequest_NoDup. repeat split; auto.
Qed.

Lemma remove_first_subset x y l : In y (remove_first x l) -> In y l.
Proof.
  induction l as [|z r IH]; simpl; [auto|].
  destruct (String.eqb x z); simpl; intuition.
Qed.

Lemma remove_first_NoDup x l : NoDup l -> NoDup (remove_first x l).
Proof.
  induction l as [|z r IH]; simpl; intros H; [constructor|].
  apply NoDup_cons in H as [Hn Hr].
  destruct (String.eqb x z); [exact Hr|].
  apply NoDup_cons. split; [|auto].
  rewrite list_elem_of_In in *. intros Hin. apply Hn.
  now apply remove_first_subset with x.
Qed.

(** [indexOf] and [splice] take out the one occurrence a chain has. *)
Lemma remove_first_gone x l : NoDup l -> ~ In x (remove_first x l).
Proof.
  induction l as [|z r IH]; simpl; intros H; [auto|].
  apply NoDup_cons in H as [Hn Hr].
  destruct (String.eqb x z) eqn:E.
  - apply String.eqb_eq in E. subst. now rewrite <- list_elem_of_In.
  - apply String.eqb_neq in E. simpl. intros [Hz|Hin]; [congruence|].
    now apply IH.
Qed.

Lemma setModelHealth_fields modelId h lat now mgr :
  models (setModelHealth modelId h lat now mgr) = models mgr
  /\ fallbackChains (setModelHealth modelId h lat now mgr)
     = fallbackChains mgr.
Proof. split; reflexivity. Qed.

Lemma performHealthChecks_fields probe now mgr :
  models (performHealthChecks probe now mgr) = models mgr
  /\ fallbackChains (performHealthChecks probe now mgr) = fallbackChains mgr.
Proof.
  unfold performHealthChecks.
  generalize (models mgr) at 1 3. intros l. revert mgr.
  induction l as [|km r IH]; intros mgr; simpl; [auto|].
  destruct (probe (snd km)); rewrite (proj1 (IH _)), (proj2 (IH _)); auto.
Qed.

Lemma getBestModel_manager requestType mgr :
  snd (getBestModel requestType mgr) = snd (getFallbackChain requestType mgr).
Proof.
  unfold getBestModel. destruct (getFallbackChain requestType mgr) as [c m].
  simpl. destruct (_ =? _)%nat; [reflexivity|].
  destruct (scan_chain m (chain c)); [reflexivity|].
  destruct (List.filter _ _); reflexivity.
Qed.

Lemma getRotatedModel_manager requestType mgr :
  snd (getRotatedModel requestType mgr)
  = snd (getFallbackChain requestType mgr).
Proof.
  unfold getRotatedModel.
  destruct (getFallbackChain requestType mgr) as [c m]. reflexivity.
Qed.

Lemma registerModel_well_formed model now mgr :
  well_formed mgr -> well_formed (registerModel model now mgr).
Proof.
  intros (Hk & Hid & Hc). unfold registerModel. repeat split; simpl; auto.
  - now apply models_set_NoDup.
  - intros k m Hin. apply models_set_In in Hin as [[-> ->]|Hin]; auto.
Qed.

Lemma exec_well_formed c now mgr :
  well_formed mgr -> well_formed (exec c now mgr).
Proof.
  intros H. destruct c; simpl.
  - now apply registerModel_well_formed.
  - rewrite getBestModel_manager. now apply getFallbackChain_well_formed.
  - rewrite getRotatedModel_manager. now apply getFallbackChain_well_formed.
  - exact H.
  - destruct H as (Hk & Hid & Hc). repeat split; simpl; auto.
    intros rt c. rewrite lookup_fmap.
    destruct (fallbackChains mgr !! rt) as [c0|] eqn:E; simpl; [|discriminate].
    intros Ec. inversion Ec. simpl. apply remove_first_NoDup. eauto.
  - exact H.
  - exact H.
  - exact H.
  - destruct (performHealthChecks_fields probe now mgr) as [Hm Hf].
    destruct H as (Hk & Hid & Hc). unfold well_formed. rewrite Hm, Hf. auto.
Qed.

Lemma run_well_formed calls : forall mgr,
  well_formed mgr -> well_formed (run calls mgr).
Proof.
  unfold run. induction calls as [|[t c] r IH]; intros mgr H; simpl; auto.
  apply IH. now apply exec_well_formed.
Qed.

Lemma construct_well_formed config now : well_formed (construct config now).
Proof.
  unfold construct.
  assert (H : well_formed
                (updateRotationConfig config
                   (mkManager [] default_rotation ∅ ∅ ∅))).
  { repeat split; simpl; [constructor|tauto|].
    intros rt c. rewrite lookup_empty. discriminate. }
  revert H. generalize (updateRotationConfig config
                          (mkManager [] default_rotation ∅ ∅ ∅)).
  induction DEFAULT_MODELS as [|m r IH]; intros mgr H; simpl; auto.
  apply IH. now apply registerModel_well_formed.
Qed.

(** ** A failed model and the cached chains *)

Lemma getFallbackChain_kept_out modelId requestType rt mgr :
  kept_out modelId requestType mgr ->
  kept_out modelId requestType (snd (getFallbackChain rt mgr)).
Proof.
  intros (c & Hc & Hn). unfold getFallbackChain.
  destruct (fallbackChains mgr !! rt) eqn:E; [exists c; auto|].
  exists c. split; [|exact Hn]. simpl. rewrite lookup_insert_ne; [exact Hc|].
  congruence.
Qed.

(** No call puts a model back into a chain that is cached without it. *)
Lemma exec_kept_out modelId requestType c now mgr :
  kept_out modelId requestType mgr ->
  kept_out modelId requestType (exec c now mgr).
Proof.
  intros H. destruct c; simpl; try exact H.
  - rewrite getBestModel_manager. now apply getFallbackChain_kept_out.
  - rewrite getRotatedModel_manager. now apply getFallbackChain_kept_out.
  - destruct H as (c & Hc & Hn).
    eexists. split; [simpl; rewrite lookup_fmap, Hc; reflexivity|].
    simpl. intros Hin. apply Hn. now apply remove_first_subset with modelId0.
  - destruct H as (c & Hc & Hn). exists c. split; [|exact Hn].
    now rewrite (proj2 (performHealthChecks_fields probe now mgr)).
Qed.

Lemma run_kept_out modelId requestType calls : forall mgr,
  kept_out modelId requestType mgr ->
  kept_out modelId requestType (run calls mgr).
Proof.
  unfold run. induction calls as [|[t c] r IH]; intros mgr H; simpl; auto.
  apply IH. now apply exec_kept_out.
Qed.

(** ** Selection from a chain *)

Lemma scan_chain_from mgr ids model :
  scan_chain mgr ids = Some model ->
  exists modelId, In modelId ids /\ models_get modelId (models mgr) = Some model.
Proof.
  induction ids as [|i r IH]; simpl; [discriminate|].
  destruct (models_get i (models mgr)) as [m|] eqn:E.
  - destruct (is_healthy mgr i && (censorshipLevel m =? 0)).
    + intros H. inversion H. subst. eauto.
    + intros H. destruct (IH H) as (j & ? & ?). eauto.
  - intros H. destruct (IH H) as (j & ? & ?). eauto.
Qed.

Lemma rotate_from mgr strategy ids : forall best minUsage model,
  rotate mgr strategy ids best minUsage = Some model ->
  best = Some model
  \/ exists modelId,
       In modelId ids /\ models_get modelId (models mgr) = Some model.
Proof.
  induction ids as [|i r IH]; simpl; intros best mu model H; [auto|].
  assert (Hrec : forall b u,
             rotate mgr strategy r b u = Some model ->
             (b = best \/ b = models_get i (models mgr)) ->
             models_get i (models mgr) <> None ->
             best = Some model
             \/ exists modelId,
                  (i = modelId \/ In modelId r)
                  /\ models_get modelId (models mgr) = Some model).
  { intros b u Hr Hb Hsome. destruct (IH _ _ _ Hr) as [Hbm|(j & ? & ?)].
    - destruct Hb as [-> | ->]; [auto|]. right. exists i. auto.
    - right. exists j. auto. }
  assert (Hskip : rotate mgr strategy r best mu = Some model ->
                  best = Some model
                  \/ exists modelId,
                       (i = modelId \/ In modelId r)
                       /\ models_get modelId (models mgr) = Some model).
  { intros Hr. destruct (IH _ _ _ Hr) as [?|(j & ? & ?)]; [auto|].
    right. exists j. auto. }
  destruct (models_get i (models mgr)) as [m|] eqn:E; [|auto].
  destruct (is_healthy mgr i); [|auto].
  destruct (String.eqb strategy "round_robin").
  { inversion H. subst. right. exists i. auto. }
  destruct (String.eqb strategy "quality_based").
  { destruct best as [b|].
    - destruct (quality b <? quality m);
        [apply (Hrec _ _ H); [auto|congruence]|auto].
    - apply (Hrec _ _ H); [auto|congruence]. }
  destruct (String.eqb strategy "speed_based").
  { destruct best as [b|].
    - destruct (speed b <? speed m);
        [apply (Hrec _ _ H); [auto|congruence]|auto].
    - apply (Hrec _ _ H); [auto|congruence]. }
  destruct (String.eqb strategy "availability"); [|auto].
  destruct (match mu with Some least => _ | None => true end);
    [apply (Hrec _ _ H); [auto|congruence]|auto].
Qed.

(** C10: a model reported as failed is taken out of every chain cached at
    that moment, and in every run that follows no call puts it back:
    [reportSuccess] marks the model healthy and counts the use but leaves
    the chains as they are, the chain cached for a request type still
    lacks the model, and neither the chain scan of [getBestModel] nor
    [getRotatedModel] for that request type returns it. *)
Theorem failed_model_stays_out_of_cached_chains config t0 before after
    modelId tfail requestType c :
  let failed :=
    reportFailure modelId tfail (run before (construct config t0)) in
  let later := run after failed in
  fallbackChains failed !! requestType = Some c ->
  ~ In modelId (chain c)
  /\ kept_out modelId requestType later
  /\ (forall lat now mgr,
        fallbackChains (reportSuccess modelId lat now mgr)
        = fallbackChains mgr
        /\ is_healthy (reportSuccess modelId lat now mgr) modelId = true
        /\ usageCount (reportSuccess modelId lat now mgr) !! modelId
           = Some (default 0 (usageCount mgr !! modelId) + 1))
  /\ (forall c' model,
        fallbackChains later !! requestType = Some c' ->
        scan_chain later (chain c') = Some model ->
        model_id model <> modelId)
  /\ (forall model,
        fst (getRotatedModel requestType later) = Some model ->
        model_id model <> modelId).
Proof.
  intros failed later Hc.
  assert (Hwf0 : well_formed (run before (construct config t0))).
  { apply run_well_formed, construct_well_formed. }
  assert (Hwf1 : well_formed failed).
  { apply (exec_well_formed (ReportFailure modelId) tfail _ Hwf0). }
  assert (Hout : ~ In modelId (chain c)).
  { unfold failed, reportFailure in Hc. simpl in Hc.
    rewrite lookup_fmap in Hc.
    destruct (fallbackChains _ !! requestType) as [c0|] eqn:E;
      [|discriminate].
    simpl in Hc. inversion Hc. simpl. apply remove_first_gone.
    destruct Hwf0 as (_ & _ & H). eauto. }
  assert (Hkept : kept_out modelId requestType later).
  { apply run_kept_out. exists c. auto. }
  assert (Hwf2 : well_formed later) by (now apply run_well_formed).
  split; [exact Hout|]. split; [exact Hkept|]. split.
  { intros lat now mgr. split; [reflexivity|]. split.
    - unfold is_healthy, reportSuccess. simpl. now rewrite lookup_insert_eq.
    - unfold reportSuccess, recordUsage. simpl. now rewrite lookup_insert_eq. }
  destruct Hkept as (c1 & Hc1 & Hn1). destruct Hwf2 as (_ & Hid & _).
  split.
  - intros c' model Hc' Hscan. assert (c' = c1) by congruence. subst c'.
    destruct (scan_chain_from _ _ _ Hscan) as (j & Hj & Hget).
    rewrite (Hid _ _ (models_get_In _ _ _ Hget)). congruence.
  - intros model. unfold getRotatedModel, getFallbackChain. rewrite Hc1.
    simpl. intros Hrot.
    destruct (rotate_from _ _ _ _ _ _ Hrot) as [?|(j & Hj & Hget)];
      [discriminate|].
    rewrite (Hid _ _ (models_get_In _ _ _ Hget)). congruence.
Qed.

Lemma failed_model_stays_out_of_cached_chains_witness :
  let before := [(1, GetBestModel "dialogue")] in
  let after :=
    [(3, ReportSuccess "llama-3.2-90b" 120); (4, GetBestModel "dialogue");
     (5, PerformHealthChecks checkModelHealth)] in
  let failed :=
    reportFailure "llama-3.2-90b" 2 (run before (construct no_config 0)) in
  exists c,
    fallbackChains failed !! "dialogue" = Some c
    /\ kept_out "llama-3.2-90b" "dialogue" (run after failed).
Proof.
  intros before after failed.
  destruct (fallbackChains failed !! "dialogue") as [c|] eqn:Hc;
    [|vm_compute in Hc; discriminate].
  exists c. split; [reflexivity|].
  exact (proj1 (proj2 (failed_model_stays_out_of_cached_chains no_config 0
                         before after "llama-3.2-90b" 2 "dialogue" c Hc))).
Defined.

(** Selection that does not go through the chain is another matter: once
    the failed model is healthy again and the models left in the chain
    are not, the capability fallback of [getBestModel] returns it. *)
Lemma capability_fallback_returns_recovered_model :
  let others :=
    ["mistral-22b"; "llama-3.1-70b"; "codellama-34b"; "gemma-2-27b";
     "dolphin-mixtral-8x7b"; "nous-hermes-2-mixtral"; "phi-3.5-mini";
     "wizard-vicuna-13b"] in
  let calls :=
    [(1, GetBestModel "branching_logic");
     (2, ReportFailure "llama-3.2-90b");
     (3, ReportSuccess "llama-3.2-90b" 120)]
    ++ List.map (fun i => (4, SetModelHealth i false None)) others in
  let mgr := run calls (construct no_config 0) in
  (chain <$> fallbackChains mgr !! "branching_logic") = Some others
  /\ (model_id <$> fst (getBestModel "branching_logic" mgr))
     = Some "llama-3.2-90b".
Proof. vm_compute. auto. Qed.

(** C5: the registry as the constructor leaves it, all twelve models
    healthy. No model has the 'voice' capability, so the chain built for
    ['voice_synthesis'] is empty, and [getBestModel] returns null at its
    first test, before the fallbacks to a capable or to any healthy model
    are reached. *)
Theorem getBestModel_null_despite_healthy_models :
  let mgr := construct no_config 0 in
  length (getHealthyModels mgr) = 12%nat
  /\ chain (fst (getFallbackChain "voice_synthesis" mgr)) = []
  /\ fst (getBestModel "voice_synthesis" mgr) = None.
Proof. vm_compute. auto. Qed.

(** When the chain is not empty, the fallbacks work: any healthy model in
    the registry makes [getBestModel] return a model. *)
Lemma getBestModel_some_with_nonempty_chain requestType mgr c mgr' m :
  getFallbackChain requestType mgr = (c, mgr') ->
  chain c <> [] ->
  In m (getHealthyModels mgr') ->
  exists model, fst (getBestModel requestType mgr) = Some model.
Proof.
  intros Hc Hne Hin. unfold getBestModel. rewrite Hc.
  destruct (chain c) as [|i r] eqn:E; [congruence|].
  change ((length (i :: r) =? 0)%nat) with false. cbv iota.
  destruct (scan_chain mgr' (i :: r)) as [model|]; [eexists; reflexivity|].
  destruct (List.filter _ (getModelsByCapability _ _)) as [|x l];
    [|eexists; reflexivity].
  unfold getHealthyModels in Hin.
  assert (Hp : In m (sort by_uncensored_then_quality
                       (List.filter (fun m => is_healthy mgr' (model_id m))
                          (models_values (models mgr'))))).
  { rewrite <- list_elem_of_In. rewrite sort_perm.
    now rewrite list_elem_of_In. }
  destruct (sort _ _) as [|x l]; [destruct Hp|]. eexists. reflexivity.
Qed.

End ModelProps.

(* ===================================================================== *)
(** * Properties: persona voices and rendering                            *)
(* ===================================================================== *)

Module PersonaProps.
Import Persona EngineExamples.

Local Open Scope Q_scope.

Lemma clamp01_bounds x : 0 <= clamp01 x /\ clamp01 x <= 1.
Proof.
  unfold clamp01. split.
  - apply Q.le_max_l.
  - apply Q.max_lub; [discriminate|apply Q.le_min_l].
Qed.

(** The three knobs that are clamped: for every persona and every emotion
    label, warmth, assertiveness and breathiness come out within 0..1. *)
Lemma modulateVoice_clamps_unit_knobs persona emo now m :
  em_persona m = Some persona ->
  let voice := fst (modulateVoice emo now m) in
  (0 <= warmth voice /\ warmth voice <= 1)
  /\ (0 <= assertiveness voice /\ assertiveness voice <= 1)
  /\ (0 <= breathiness voice /\ breathiness voice <= 1).
Proof.
  intros Hp. unfold modulateVoice. rewrite Hp. simpl.
  repeat split; apply clamp01_bounds.
Qed.

(** An emotion label outside the table, other than a name inherited from
    [Object.prototype], gets the 'neutral' entry. *)
Lemma getEmotionModifiers_unknown emo :
  assoc emo modifiers = None ->
  existsb (String.eqb emo) inherited_names = false ->
  getEmotionModifiers emo = modifier 0 1 0 0 (3 # 10).
Proof.
  intros H1 H2. unfold getEmotionModifiers. now rewrite H1, H2.
Qed.

(** C7: the villain with a voice of pitch 10 and speed 2, modulated for
    'surprised'. Warmth, assertiveness and breathiness are clamped to
    0..1; pitch and speed are not clamped: pitch comes out as 15, above
    12, and speed as 2.3, above 2.0. *)
Theorem modulateVoice_pitch_and_speed_leave_range :
  let voice :=
    fst (modulateVoice "surprised" 0
           (new_EmotionModulator (Some shrill_villain) None)) in
  pitch (voiceProfile shrill_villain) == 10
  /\ speed (voiceProfile shrill_villain) == 2
  /\ pitch voice == 15 /\ ~ pitch voice <= 12
  /\ speed voice == 23 # 10 /\ ~ speed voice <= 2
  /\ 0 <= warmth voice <= 1
  /\ 0 <= assertiveness voice <= 1
  /\ 0 <= breathiness voice <= 1.
Proof.
  vm_compute. repeat split; try discriminate; intros H; apply H; reflexivity.
Qed.

End PersonaProps.

Module RenderProps.
Import JS Types Codec EngineExamples.

(** C6: one session, started before the global persona store is edited.
    Its snapshot of personas is the same in both worlds, the choice, the
    instant and the random draws are the same, and the node rendered is
    not in the cache; yet the content differs, because the speaker's
    persona is read from the global store and not from the snapshot. *)
Theorem rendering_follows_global_persona_edits :
  snapshot started = snapshot edited
  /\ (exists ps, snapshot started = Some ps
                 /\ truthy (obj_get "villain" ps) = true)
  /\ Engine.cache started = Engine.cache edited
  /\ response (Engine.processChoice "s1" "enter" 2000 [] started)
     = Some "Welcome, and perhaps... Sit down, and perhaps..."
  /\ response (Engine.processChoice "s1" "enter" 2000 [] edited)
     = Some "Welcome. Sit down.".
Proof.
  split; [reflexivity|]. split.
  - eexists. split; [vm_compute; reflexivity|]. reflexivity.
  - split; [reflexivity|]. split; vm_compute; reflexivity.
Qed.

End RenderProps.

(* ===================================================================== *)
(** * Properties: export and import                                       *)
(* ===================================================================== *)

Module PersistenceProps.
Import JS Types Codec SessionManager JSProps Spec Examples SessionProps
       PersistenceSpec.

(** ** JSON *)


(** ** Maps and objects *)










(** ** The typed view of a session object *)




Lemma impact_of_js_of i : impact_of_js (js_of_impact i) = Some i.
Proof. now destruct i. Qed.












(** The other values that JSON does not carry are lost in the same way:
    [NaN] comes back as [null], a [Map] in a variable as an empty object,
    and character states recorded under array indices come back in the
    order of the indices. *)
Lemma export_import_loses_NaN_Map_and_order :
  (exists session',
     export_then_import "s1" 3000 4000 with_nan = Some session'
     /\ obj_get "ratio" (variables (state session')) = JNull)
  /\ (exists session',
        export_then_import "s1" 3000 4000 with_map = Some session'
        /\ obj_get "seen" (variables (state session')) = JObj [])
  /\ (exists session',
        export_then_import "s1" 3000 4000 with_numbered_characters
        = Some session'
        /\ obj_get "characterStates" (context session')
           = JMap [("1", JObj [("mood", JStr "calm")]);
                   ("2", JObj [("mood", JStr "wary")])]).
Proof.
  repeat split; eexists; (split; [vm_compute; reflexivity|reflexivity]).
Qed.

(** A session that the engine starts holds the personas [createPersona]
    returns. The voice of the default villain has no accent and the
    villain no appearance, so both properties hold [undefined]: JSON does
    not carry the session, and the persona that comes back from export and
    import has neither property. *)
Lemma engine_session_loses_undefined :
  exists session session' villain villain' voice voice',
    live "s1" 3000 (Engine.sessionManager EngineExamples.started) session
    /\ json_representable session = false
    /\ export_then_import "s1" 3000 4000
         (Engine.sessionManager EngineExamples.started) = Some session'
    /\ obj_get "villain" (personas session) = JObj villain
    /\ obj_get "villain" (personas session') = JObj villain'
    /\ obj_get "voiceProfile" villain = JObj voice
    /\ obj_get "voiceProfile" villain' = JObj voice'
    /\ obj_has "appearance" villain = true
    /\ obj_has "appearance" villain' = false
    /\ obj_has "accent" voice = true
    /\ obj_has "accent" voice' = false.
Proof.
  do 6 eexists. split; [vm_compute; reflexivity|].
  split; [vm_compute; reflexivity|].
  split; [vm_compute; reflexivity|].
  repeat (split; [reflexivity|]). reflexivity.
Qed.

End PersistenceProps.

(* ===================================================================== *)
(** * Further properties of the session store                             *)
(* ===================================================================== *)

Module SessionExtras.
Import JS Types Codec SessionManager JSProps Spec Examples SessionProps.

(** ** Liveness *)

(** A session that is live at an instant was live at every earlier one. *)
Lemma live_earlier sessionId now now' st session :
  live sessionId now' st session -> now <= now' ->
  live sessionId now st session.
Proof.
  unfold live. intros H Hle.
  destruct (getSession_cases sessionId now st)
    as [[E Hn]|[(s & e & E & Hs & He & Hz & Hlt)|(s & E & Hs)]].
  - apply getSession_found in H as [_ Hs]. congruence.
  - exfalso. revert H. unfold getSession. rewrite Hs, He.
    replace (negb (e =? 0) && (e <? now')) with true; [discriminate|].
    symmetry. apply andb_true_iff. split.
    + now apply negb_true_iff, Z.eqb_neq.
    + apply Z.ltb_lt. lia.
  - apply getSession_found in H as [_ Hs']. congruence.
Qed.

(** Writing a live session back leaves it live, with the value written. *)
Lemma live_sessions_set sessionId now st session session' :
  live sessionId now st session ->
  live sessionId now (sessions_set sessionId session' st) session'.
Proof.
  unfold live, getSession. simpl. rewrite lookup_insert_eq.
  destruct (sessions st !! sessionId) as [s|]; [|discriminate].
  destruct (sessionExpiry st !! sessionId) as [e|]; [|reflexivity].
  destruct (negb (e =? 0) && (e <? now)); [discriminate|reflexivity].
Qed.

(** ** Variables *)

(** X1: a variable stored in a session reads back, at every instant up to
    the session's expiry, as the value stored; every other variable reads
    as before. (The key [__proto__], whose assignment sets the prototype
    of the variables object instead of a property, is left out.) *)
Theorem setVariable_then_getVariable sessionId key key' v now now' st session :
  live sessionId now' st session -> now <= now' ->
  key <> "__proto__" ->
  fst (getVariable sessionId key' now'
         (setVariable sessionId key v now st))
  = if decide (key' = key) then v
    else fst (getVariable sessionId key' now' st).
Proof.
  intros Hlive Hle _.
  pose proof (live_earlier _ _ _ _ _ Hlive Hle) as Hnow.
  unfold setVariable. rewrite Hnow.
  unfold getVariable.
  rewrite (live_sessions_set sessionId now' st session _ Hlive), Hlive.
  simpl. destruct (decide (key' = key)) as [->|Hne].
  - apply obj_get_set_eq.
  - now apply obj_get_set_ne.
Qed.

Lemma setVariable_then_getVariable_witness :
  live "s1" 5000 created entrance_session /\ 2000 <= 5000
  /\ "gold" <> "__proto__"
  /\ fst (getVariable "s1" "gold" 5000
            (setVariable "s1" "gold" (JNum 3) 2000 created))
     = JNum 3.
Proof.
  assert (H : live "s1" 5000 created entrance_session)
    by (vm_compute; reflexivity).
  assert (Hk : "gold" <> "__proto__") by discriminate.
  split; [exact H|]. split; [lia|]. split; [exact Hk|].
  exact (setVariable_then_getVariable "s1" "gold" "gold" (JNum 3) 2000 5000
           created entrance_session H ltac:(lia) Hk).
Defined.

(** ** Creation *)

(** X2: the session [createSession] returns is what [getSession] answers up
    to and including the instant of creation plus the time to live, and
    [null] afterwards; a creation instant and a time to live that add up to
    zero give a session that never expires. *)
Theorem createSession_lifetime expiryMs sessionId storyId playerId channel
    initialNode personas now now' st :
  fst (getSession sessionId now'
         (snd (createSession expiryMs sessionId storyId playerId channel
                 initialNode personas now st)))
  = if decide (now' <= now + expiryMs \/ now + expiryMs = 0)
    then Some (fst (createSession expiryMs sessionId storyId playerId channel
                      initialNode personas now st))
    else None.
Proof.
  unfold createSession, getSession. simpl. rewrite !lookup_insert_eq.
  destruct (decide (now' <= now + expiryMs \/ now + expiryMs = 0))
    as [[H|H]|H].
  - replace (now + expiryMs <? now') with false
      by (symmetry; apply Z.ltb_ge; lia).
    now rewrite andb_false_r.
  - rewrite H. reflexivity.
  - replace (now + expiryMs <? now') with true
      by (symmetry; apply Z.ltb_lt; lia).
    replace (now + expiryMs =? 0) with false
      by (symmetry; apply Z.eqb_neq; lia).
    reflexivity.
Qed.

(** ** Import *)

(** X3: [importSession] never throws. When it answers [null] the store is
    as it was; when it answers a session, that session is stored under its
    own id (replacing whatever was there) with an expiry of a full time to
    live from the instant of the import, and no other entry of the store
    is touched. *)
Theorem importSession_outcome expiryMs data now st :
  match importSession expiryMs data now st with
  | Done None st' => st' = st
  | Done (Some parsed) st' =>
      sessions st' !! id parsed = Some parsed
      /\ sessionExpiry st' !! id parsed = Some (now + expiryMs)
      /\ forall k, k <> id parsed ->
           sessions st' !! k = sessions st !! k
           /\ sessionExpiry st' !! k = sessionExpiry st !! k
  | Threw _ => False
  | Unmodelled => True
  end.
Proof.
  unfold importSession.
  destruct data as [doc|]; [|reflexivity].
  destruct (JSON_parse doc) as [| | | | | | |parsed|]; try reflexivity.
  destruct (obj_get "context" parsed) as [| | | | | | |ctx|]; try reflexivity.
  destruct (Object_entries (obj_get "characterStates" ctx)) as [entries|];
    [|reflexivity].
  destruct (session_of_js _) as [s|]; [|exact I].
  simpl. rewrite !lookup_insert_eq. repeat split.
  - now rewrite lookup_insert_ne by congruence.
  - now rewrite lookup_insert_ne by congruence.
Qed.

(** ** The sweep *)

Lemma cleanup_sessions_lookup k swept st :
  sessions (cleanup swept st) !! k
  = if overdue swept (sessionExpiry st !! k) then None else sessions st !! k.
Proof.
  unfold cleanup. simpl.
  destruct (overdue swept (sessionExpiry st !! k)) eqn:E.
  - apply map_lookup_filter_None. right. intros x _ Hx. simpl in Hx.
    congruence.
  - destruct (sessions st !! k) as [s|] eqn:Hs.
    + apply map_lookup_filter_Some. split; auto.
    + apply map_lookup_filter_None. left; auto.
Qed.

Lemma cleanup_sessionExpiry_lookup k swept st :
  sessionExpiry (cleanup swept st) !! k
  = match sessionExpiry st !! k with
    | Some e => if e <? swept then None else Some e
    | None => None
    end.
Proof.
  unfold cleanup. simpl.
  destruct (sessionExpiry st !! k) as [e|] eqn:He.
  - destruct (e <? swept) eqn:E.
    + apply map_lookup_filter_None. right. intros x Hx Hp. simpl in Hp.
      congruence.
    + apply map_lookup_filter_Some. split; auto.
  - apply map_lookup_filter_None. left; auto.
Qed.

(** X4: a run of the cleanup sweep is not observable through [getSession]:
    whatever instant the sweep ran at, a later read answers what it would
    have answered without the sweep, as long as no expiry entry is zero
    (the one value the read and the sweep treat differently). *)
Theorem cleanup_is_transparent sessionId swept now st :
  (forall k, sessionExpiry st !! k <> Some 0) ->
  swept <= now ->
  fst (getSession sessionId now (cleanup swept st))
  = fst (getSession sessionId now st).
Proof.
  intros Hnz Hle. unfold getSession.
  rewrite cleanup_sessions_lookup, cleanup_sessionExpiry_lookup.
  destruct (sessions st !! sessionId) as [s|] eqn:Hs.
  - destruct (sessionExpiry st !! sessionId) as [e|] eqn:He; simpl.
    + destruct (e <? swept) eqn:Hsw.
      * apply Z.ltb_lt in Hsw.
        replace (e <? now) with true by (symmetry; apply Z.ltb_lt; lia).
        replace (e =? 0) with false; [reflexivity|].
        symmetry. apply Z.eqb_neq. intros ->. now apply (Hnz sessionId).
      * destruct (negb (e =? 0) && (e <? now)); reflexivity.
    + reflexivity.
  - now destruct (overdue swept (sessionExpiry st !! sessionId)).
Qed.

Lemma cleanup_is_transparent_witness :
  (forall k, sessionExpiry created !! k <> Some 0)
  /\ 700000000 <= 800000000
  /\ fst (getSession "s1" 800000000 (cleanup 700000000 created))
     = fst (getSession "s1" 800000000 created).
Proof.
  assert (H : forall k, sessionExpiry created !! k <> Some 0).
  { intros k. unfold created. simpl.
    destruct (decide (k = "s1")) as [->|Hne].
    - rewrite lookup_insert_eq. discriminate.
    - rewrite lookup_insert_ne by congruence. rewrite lookup_empty.
      discriminate. }
  split; [exact H|]. split; [lia|].
  exact (cleanup_is_transparent "s1" 700000000 800000000 created H
           ltac:(lia)).
Defined.

(** ** Save points *)

Lemma find_savePoint_app savePointId sps sp :
  (forall p, In p sps -> sp_id p <> savePointId) ->
  sp_id sp = savePointId ->
  List.find (fun p => String.eqb (sp_id p) savePointId) (sps ++ [sp])
  = Some sp.
Proof.
  intros Hfresh Hid. induction sps as [|p r IH]; simpl.
  - subst savePointId. now rewrite String.eqb_refl.
  - destruct (String.eqb (sp_id p) savePointId) eqn:E.
    + apply String.eqb_eq in E. exfalso. apply (Hfresh p); simpl; auto.
    + apply IH. intros q Hq. apply Hfresh. simpl. auto.
Qed.

(** What [updateState] makes of the state: the merge with the action
    instant refreshed, whatever else the session holds. *)
Lemma updateState_body_state updates now session :
  state (updateState_body updates now session)
  = with_lastActionAt now (merge_state (state session) updates).
Proof.
  unfold updateState_body.
  destruct (u_currentNode updates) as [node|] eqn:Hn; simpl; [|reflexivity].
  rewrite Hn. simpl. rewrite String.eqb_refl. simpl.
  rewrite andb_false_r. reflexivity.
Qed.

Lemma updateState_body_metadata updates now session :
  metadata (updateState_body updates now session) = metadata session.
Proof.
  unfold updateState_body.
  destruct (u_currentNode updates) as [node|]; simpl; [|reflexivity].
  match goal with |- context [if ?b then _ else _] => destruct b end;
    reflexivity.
Qed.

(** X5: loading a save point restores the current node and nothing else.
    After a save at [t1], any state update at [t2] and a load of that save
    point at [t3], the session is back on the node it was saved on, while
    the rest of its state (story path, variables, tension, choices and so
    on) is as the update left it; the engine's [loadGame] answers [true]
    for that load. *)
Theorem loadSavePoint_restores_only_the_node savePointId sessionId
    description thumbnail updates t1 t2 t3 st session :
  live sessionId t3 st session ->
  t1 <= t2 -> t2 <= t3 ->
  (forall p, In p (savePoints (metadata session)) -> sp_id p <> savePointId) ->
  exists loaded,
    fst (loadSavePoint sessionId savePointId t3
           (snd (updateState sessionId updates t2
                   (snd (createSavePoint savePointId sessionId description
                           thumbnail t1 st)))))
    = Some loaded
    /\ state loaded
       = with_currentNode (currentNode (state session))
           (state (updateState_body updates t2 session))
    /\ fst (EngineChannels.loadGame sessionId savePointId t3
              (snd (updateState sessionId updates t2
                      (snd (createSavePoint savePointId sessionId description
                              thumbnail t1 st)))))
       = true.
Proof.
  intros Hlive H12 H23 Hfresh.
  pose proof (live_earlier _ t2 _ _ _ Hlive H23) as Hlive2.
  pose proof (live_earlier _ t1 _ _ _ Hlive2 H12) as Hlive1.
  unfold createSavePoint. rewrite Hlive1. cbn [snd].
  set (sp := {| sp_id := savePointId;
                sp_nodeId := currentNode (state session);
                sp_timestamp := t1; sp_description := description;
                sp_thumbnail := written thumbnail |}).
  set (s1 := with_updatedAt t1 _).
  unfold updateState.
  rewrite (live_sessions_set sessionId t2 st session s1 Hlive2). cbn [snd].
  set (s2 := updateState_body updates t2 s1).
  assert (Hlive3 : live sessionId t3
                     (sessions_set sessionId s2
                        (sessions_set sessionId s1 st)) s2).
  { apply live_sessions_set with (session := s1).
    now apply live_sessions_set with (session := session). }
  unfold EngineChannels.loadGame, loadSavePoint. rewrite Hlive3.
  assert (Hmeta : savePoints (metadata s2)
                  = savePoints (metadata session) ++ [sp]).
  { subst s2. now rewrite updateState_body_metadata. }
  rewrite Hmeta, (find_savePoint_app savePointId _ sp Hfresh eq_refl).
  eexists. split; [reflexivity|]. split; [|reflexivity].
  cbn [state with_updatedAt with_state]. subst s2.
  now rewrite !updateState_body_state.
Qed.

Lemma loadSavePoint_restores_only_the_node_witness :
  live "s1" 4000 created entrance_session
  /\ 2000 <= 3000 /\ 3000 <= 4000
  /\ (forall p, In p (savePoints (metadata entrance_session)) ->
                sp_id p <> "save1")
  /\ exists loaded,
       fst (loadSavePoint "s1" "save1" 4000
              (snd (updateState "s1" move_to_foyer 3000
                      (snd (createSavePoint "save1" "s1" "at the door" None
                              2000 created)))))
       = Some loaded
       /\ state loaded
          = with_currentNode (currentNode (state entrance_session))
              (state (updateState_body move_to_foyer 3000 entrance_session))
       /\ fst (EngineChannels.loadGame "s1" "save1" 4000
                 (snd (updateState "s1" move_to_foyer 3000
                         (snd (createSavePoint "save1" "s1" "at the door"
                                 None 2000 created)))))
          = true.
Proof.
  assert (H : live "s1" 4000 created entrance_session)
    by (vm_compute; reflexivity).
  assert (Hf : forall p, In p (savePoints (metadata entrance_session)) ->
                         sp_id p <> "save1") by (intros p []).
  split; [exact H|]. split; [lia|]. split; [lia|]. split; [exact Hf|].
  exact (loadSavePoint_restores_only_the_node "save1" "s1" "at the door"
           None move_to_foyer 2000 3000 4000 created entrance_session H
           ltac:(lia) ltac:(lia) Hf).
Defined.

(** ** Choices *)

(** X6: an accepted choice uses up the offer. The session it returns has
    no offered choices left, so until [setChoices] offers new ones every
    further [makeChoice] on the session, whatever the id and the instant,
    is answered with the null pair. *)
Theorem makeChoice_accepted_uses_up_the_offer sessionId choiceId now st
    session nextNode st' choiceId' now' :
  makeChoice sessionId choiceId now st = Done (Some session, nextNode) st' ->
  choices (state session) = []
  /\ exists st'',
       makeChoice sessionId choiceId' now' st' = Done (None, None) st''.
Proof.
  unfold makeChoice at 1.
  destruct (getSession sessionId now st) as [[s|] st0] eqn:Hg;
    [|discriminate].
  destruct (List.find _ (choices (state s))) as [choice|]; [|discriminate].
  destruct (applyConsequences s choice) as [s1|s1|]; try discriminate.
  intros H. inversion H; subst; clear H.
  assert (Hc : choices (state (advance choice now s1)) = []).
  { unfold advance. destruct (emotionalImpact choice); reflexivity. }
  split; [exact Hc|].
  unfold makeChoice.
  destruct (getSession_cases sessionId now'
              (sessions_set sessionId (advance choice now s1) st0))
    as [[E _]|[(s' & e & E & _)|(s' & E & Hs')]]; rewrite E.
  - eauto.
  - eauto.
  - simpl in Hs'. rewrite lookup_insert_eq in Hs'. inversion Hs'; subst s'.
    rewrite Hc. simpl. eauto.
Qed.

Lemma makeChoice_accepted_uses_up_the_offer_witness :
  exists session st',
    makeChoice "s1" "enter" 2000 offered_enter
    = Done (Some session, Some "foyer") st'
    /\ choices (state session) = []
    /\ exists st'',
         makeChoice "s1" "enter" 2500 st' = Done (None, None) st''.
Proof.
  assert (H : exists session st',
            makeChoice "s1" "enter" 2000 offered_enter
            = Done (Some session, Some "foyer") st')
    by (eexists; eexists; vm_compute; reflexivity).
  destruct H as (session & st' & H).
  exists session, st'. split; [exact H|].
  exact (makeChoice_accepted_uses_up_the_offer "s1" "enter" 2000
           offered_enter session (Some "foyer") st' "enter" 2500 H).
Defined.

End SessionExtras.

(* ===================================================================== *)
(** * Further properties of the model registry                            *)
(* ===================================================================== *)

Module ModelExtras.
Import ModelManager ModelSpec ModelQueries ModelProps.

(** ** The stable sort *)

Section SortFacts.
Context {A : Type}.
Variable cmp : A -> A -> Z.
Hypothesis cmp_total : forall a b, cmp a b <= 0 \/ cmp b a <= 0.
Hypothesis cmp_trans :
  forall a b c, cmp a b <= 0 -> cmp b c <= 0 -> cmp a c <= 0.

Lemma sort_insert_sorted x l :
  StronglySorted (fun a b => cmp a b <= 0) l ->
  StronglySorted (fun a b => cmp a b <= 0) (sort_insert cmp x l).
Proof.
  induction l as [|y r IH]; simpl; intros H.
  - repeat constructor.
  - apply StronglySorted_inv in H as [Hr Hy].
    destruct (cmp x y <=? 0) eqn:E.
    + apply Z.leb_le in E. constructor; [constructor; assumption|].
      constructor; [exact E|].
      rewrite List.Forall_forall in Hy |- *. intros z Hz.
      apply cmp_trans with y; auto.
    + apply Z.leb_gt in E. constructor; [now apply IH|].
      rewrite List.Forall_forall in Hy |- *. intros z Hz.
      rewrite <- list_elem_of_In, sort_insert_perm, list_elem_of_In in Hz.
      destruct Hz as [<-|Hz]; [|now apply Hy].
      destruct (cmp_total y x); [assumption|lia].
Qed.

Lemma sort_sorted l : StronglySorted (fun a b => cmp a b <= 0) (sort cmp l).
Proof.
  induction l as [|x r IH]; simpl; [constructor|].
  now apply sort_insert_sorted.
Qed.

(** The head of the sorted array is an element that sorts before every
    other; there is none only for the empty array. *)
Lemma sort_head l :
  match List.head (sort cmp l) with
  | Some m => In m l /\ forall x, In x l -> cmp m x <= 0
  | None => l = []
  end.
Proof.
  pose proof (sort_sorted l) as Hs. pose proof (sort_perm cmp l) as Hp.
  destruct (sort cmp l) as [|m r]; simpl.
  - now apply Permutation_nil in Hp.
  - apply StronglySorted_inv in Hs as [_ Hm].
    rewrite List.Forall_forall in Hm. split.
    + rewrite <- list_elem_of_In, <- Hp, list_elem_of_In. now left.
    + intros x Hx.
      rewrite <- list_elem_of_In, <- Hp, list_elem_of_In in Hx.
      destruct Hx as [<-|Hx]; [|now apply Hm].
      destruct (cmp_total m m); assumption.
Qed.
End SortFacts.

Lemma StronglySorted_impl {A} (R S : A -> A -> Prop) l :
  (forall a b, R a b -> S a b) -> StronglySorted R l -> StronglySorted S l.
Proof.
  intros HRS. induction 1 as [|x r Hr IH Hx]; constructor; [exact IH|].
  rewrite List.Forall_forall in Hx |- *. auto.
Qed.

Lemma by_uncensored_then_quality_ranked a b :
  by_uncensored_then_quality a b <= 0 <-> ranked a b.
Proof.
  unfold by_uncensored_then_quality, ranked, uncensored.
  destruct (censorshipLevel a =? 0), (censorshipLevel b =? 0); simpl;
    split; intros H; try lia; try (right; split; [reflexivity|lia]);
    try (left; split; reflexivity);
    destruct H as [[? ?]|[? ?]]; try discriminate; lia.
Qed.

Lemma by_uncensored_then_quality_total a b :
  by_uncensored_then_quality a b <= 0 \/ by_uncensored_then_quality b a <= 0.
Proof.
  unfold by_uncensored_then_quality.
  destruct (censorshipLevel a =? 0), (censorshipLevel b =? 0); simpl; lia.
Qed.

Lemma by_uncensored_then_quality_trans a b c :
  by_uncensored_then_quality a b <= 0 ->
  by_uncensored_then_quality b c <= 0 ->
  by_uncensored_then_quality a c <= 0.
Proof.
  unfold by_uncensored_then_quality.
  destruct (censorshipLevel a =? 0), (censorshipLevel b =? 0),
    (censorshipLevel c =? 0); simpl; lia.
Qed.

(** ** The models map *)

Lemma models_get_set k k' m l :
  models_get k' (models_set k m l)
  = if decide (k' = k) then Some m else models_get k' l.
Proof.
  induction l as [|[k0 m0] r IH]; simpl.
  - destruct (decide (k' = k)) as [->|Hne].
    + now rewrite String.eqb_refl.
    + apply String.eqb_neq in Hne. now rewrite Hne.
  - destruct (String.eqb k k0) eqn:E; simpl.
    + apply String.eqb_eq in E. subst k0.
      destruct (decide (k' = k)) as [->|Hne].
      * now rewrite String.eqb_refl.
      * apply String.eqb_neq in Hne. now rewrite Hne.
    + destruct (String.eqb k' k0) eqn:E'.
      * apply String.eqb_eq in E'. subst k0.
        destruct (decide (k' = k)) as [->|Hne]; [|reflexivity].
        now rewrite String.eqb_refl in E.
      * exact IH.
Qed.

Lemma models_get_of_In k m l :
  NoDup (List.map fst l) -> In (k, m) l -> models_get k l = Some m.
Proof.
  induction l as [|[k0 m0] r IH]; simpl; intros Hnd Hin; [destruct Hin|].
  apply NoDup_cons in Hnd as [Hn Hr].
  destruct Hin as [E|Hin].
  - inversion E. subst. now rewrite String.eqb_refl.
  - destruct (String.eqb k k0) eqn:E; [|auto].
    apply String.eqb_eq in E. subst k0. exfalso. apply Hn.
    rewrite list_elem_of_In, in_map_iff. exists (k, m). auto.
Qed.

(** In a well-formed registry every listed model is found under its id. *)
Lemma getModel_of_value mgr m :
  well_formed mgr -> In m (models_values (models mgr)) ->
  getModel (model_id m) mgr = Some m.
Proof.
  intros (Hk & Hid & _) Hin. unfold models_values in Hin.
  apply in_map_iff in Hin as ([k m'] & <- & Hin). simpl.
  rewrite (Hid _ _ Hin). now apply models_get_of_In.
Qed.

(** ** What the selection reads *)

Lemma is_healthy_ext mgr mgr' modelId :
  healthStatus mgr' = healthStatus mgr ->
  is_healthy mgr' modelId = is_healthy mgr modelId.
Proof. unfold is_healthy. now intros ->. Qed.

Lemma getFallbackChain_fields requestType mgr :
  models (snd (getFallbackChain requestType mgr)) = models mgr
  /\ healthStatus (snd (getFallbackChain requestType mgr)) = healthStatus mgr
  /\ usageCount (snd (getFallbackChain requestType mgr)) = usageCount mgr
  /\ rotationConfig (snd (getFallbackChain requestType mgr))
     = rotationConfig mgr.
Proof.
  unfold getFallbackChain.
  destruct (fallbackChains mgr !! requestType); simpl; auto.
Qed.

(** The chain is built once: asked again, the manager answers the chain it
    has cached and stays as it is. *)
Lemma getFallbackChain_again requestType mgr :
  getFallbackChain requestType (snd (getFallbackChain requestType mgr))
  = getFallbackChain requestType mgr.
Proof.
  unfold getFallbackChain.
  destruct (fallbackChains mgr !! requestType) as [c|] eqn:E; simpl.
  - now rewrite E.
  - now rewrite lookup_insert_eq.
Qed.

Lemma scan_chain_healthy mgr ids model :
  scan_chain mgr ids = Some model ->
  exists modelId,
    In modelId ids /\ models_get modelId (models mgr) = Some model
    /\ is_healthy mgr modelId = true /\ censorshipLevel model = 0.
Proof.
  induction ids as [|i r IH]; simpl; [discriminate|].
  destruct (models_get i (models mgr)) as [m|] eqn:E.
  - destruct (is_healthy mgr i && (censorshipLevel m =? 0)) eqn:Hb.
    + intros H. inversion H. subst.
      apply andb_true_iff in Hb as [Hh Hc]. apply Z.eqb_eq in Hc.
      exists i. auto.
    + intros H. destruct (IH H) as (j & ? & ?). eauto.
  - intros H. destruct (IH H) as (j & ? & ?). eauto.
Qed.

(** ** Capability lists *)

(** X7: [getModelsByCapability] answers exactly the registered models that
    list the capability, every uncensored model before every censored one
    and, within each of the two classes, in order of falling quality. *)
Theorem getModelsByCapability_ranked capability mgr :
  StronglySorted ranked (getModelsByCapability capability mgr)
  /\ getModelsByCapability capability mgr
     ≡ₚ List.filter (fun m => includes capability (capabilities m))
          (models_values (models mgr)).
Proof.
  unfold getModelsByCapability. split; [|apply sort_perm].
  apply StronglySorted_impl
    with (R := fun a b => by_uncensored_then_quality a b <= 0).
  - intros a b. apply by_uncensored_then_quality_ranked.
  - apply sort_sorted.
    + apply by_uncensored_then_quality_total.
    + apply by_uncensored_then_quality_trans.
Qed.

(** ** [getBestModel] *)

Lemma head_In {A} (l : list A) x : List.head l = Some x -> In x l.
Proof. destruct l; simpl; [discriminate|]. intros H. inversion H. now left. Qed.

(** X8: whichever of its three stages answers, [getBestModel] returns a
    model that is registered and whose health entry says healthy. *)
Theorem getBestModel_returns_a_healthy_model requestType mgr model :
  well_formed mgr ->
  fst (getBestModel requestType mgr) = Some model ->
  getModel (model_id model) mgr = Some model
  /\ is_healthy mgr (model_id model) = true.
Proof.
  intros Hwf. unfold getBestModel.
  pose proof (getFallbackChain_fields requestType mgr) as (Hm & Hh & _).
  destruct (getFallbackChain requestType mgr) as [c mgr'].
  simpl in Hm, Hh.
  destruct (length (chain c) =? 0)%nat; [discriminate|].
  assert (Hfilter : forall l,
            In model (List.filter (fun m => is_healthy mgr' (model_id m)) l) ->
            (forall m, In m l -> In m (models_values (models mgr))) ->
            getModel (model_id model) mgr = Some model
            /\ is_healthy mgr (model_id model) = true).
  { intros l Hin Hsub. apply filter_In in Hin as [Hin Hhe].
    rewrite (is_healthy_ext _ _ _ Hh) in Hhe.
    split; [|exact Hhe]. apply getModel_of_value; auto. }
  destruct (scan_chain mgr' (chain c)) as [m|] eqn:Hscan.
  - simpl. intros E. inversion E. subst m.
    apply scan_chain_healthy in Hscan as (i & _ & Hget & Hhe & _).
    rewrite Hm in Hget. rewrite (is_healthy_ext _ _ _ Hh) in Hhe.
    destruct Hwf as (Hk & Hid & _).
    pose proof (Hid _ _ (models_get_In _ _ _ Hget)) as Hi. subst i.
    auto.
  - destruct (List.filter _ (getModelsByCapability _ mgr')) as [|m l] eqn:Hf.
    + simpl. intros Hhd. apply head_In in Hhd.
      rewrite <- list_elem_of_In, sort_perm, list_elem_of_In in Hhd.
      apply (Hfilter _ Hhd). intros m. now rewrite Hm.
    + simpl. intros E. inversion E. subst m.
      apply (Hfilter (getModelsByCapability
                        (getCapabilityForRequest requestType) mgr')).
      * rewrite Hf. now left.
      * intros m. unfold getModelsByCapability.
        rewrite <- list_elem_of_In, sort_perm, list_elem_of_In, Hm.
        intros Hin. now apply filter_In in Hin.
Qed.

Lemma getBestModel_returns_a_healthy_model_witness :
  exists model,
    well_formed (construct no_config 0)
    /\ fst (getBestModel "dialogue" (construct no_config 0)) = Some model
    /\ getModel (model_id model) (construct no_config 0) = Some model
    /\ is_healthy (construct no_config 0) (model_id model) = true.
Proof.
  assert (H : exists model,
            fst (getBestModel "dialogue" (construct no_config 0))
            = Some model) by (eexists; vm_compute; reflexivity).
  destruct H as (model & H). exists model.
  split; [apply construct_well_formed|]. split; [exact H|].
  exact (getBestModel_returns_a_healthy_model "dialogue"
           (construct no_config 0) model (construct_well_formed _ _) H).
Defined.

(** X9: asking [getBestModel] a second time, with nothing in between,
    gives the same model and leaves the manager as the first call left
    it: caching the chain does not change the answer. *)
Theorem getBestModel_is_stable requestType mgr :
  getBestModel requestType (snd (getBestModel requestType mgr))
  = (fst (getBestModel requestType mgr), snd (getBestModel requestType mgr)).
Proof.
  rewrite getBestModel_manager.
  unfold getBestModel at 1. rewrite getFallbackChain_again.
  unfold getBestModel.
  destruct (getFallbackChain requestType mgr) as [c mgr']. simpl.
  destruct (length (chain c) =? 0)%nat; [reflexivity|].
  destruct (scan_chain mgr' (chain c)); [reflexivity|].
  destruct (List.filter _ (getModelsByCapability _ mgr'));
    reflexivity.
Qed.

(** ** Rotation *)

Lemma rotate_without_usage mgr mgr' strategy ids :
  models mgr' = models mgr -> healthStatus mgr' = healthStatus mgr ->
  String.eqb strategy "availability" = false ->
  forall best minUsage minUsage',
    rotate mgr' strategy ids best minUsage'
    = rotate mgr strategy ids best minUsage.
Proof.
  intros Hm Hh Hs. induction ids as [|i r IH]; simpl; intros best mu mu';
    [reflexivity|].
  rewrite Hm, (is_healthy_ext _ _ _ Hh).
  destruct (models_get i (models mgr)) as [m|]; [|apply IH].
  destruct (is_healthy mgr i); [|apply IH].
  destruct (String.eqb strategy "round_robin"); [reflexivity|].
  destruct (String.eqb strategy "quality_based").
  { destruct best as [b|]; [destruct (quality b <? quality m)|]; apply IH. }
  destruct (String.eqb strategy "speed_based").
  { destruct best as [b|]; [destruct (speed b <? speed m)|]; apply IH. }
  rewrite Hs. apply IH.
Qed.

Lemma getFallbackChain_recordUsage requestType modelId mgr :
  getFallbackChain requestType (recordUsage modelId mgr)
  = (fst (getFallbackChain requestType mgr),
     recordUsage modelId (snd (getFallbackChain requestType mgr))).
Proof.
  unfold getFallbackChain, recordUsage. simpl.
  destruct (fallbackChains mgr !! requestType); reflexivity.
Qed.

(** X10: only the 'availability' strategy reads the usage counts. Under
    every other rotation strategy ('round_robin' included) recording a use
    of any model leaves the model [getRotatedModel] returns unchanged. *)
Theorem rotation_ignores_usage requestType modelId mgr :
  rotationStrategy (rotationConfig mgr) <> "availability" ->
  fst (getRotatedModel requestType (recordUsage modelId mgr))
  = fst (getRotatedModel requestType mgr).
Proof.
  intros Hs. apply String.eqb_neq in Hs.
  unfold getRotatedModel. rewrite getFallbackChain_recordUsage.
  pose proof (getFallbackChain_fields requestType mgr) as (_ & _ & _ & Hr).
  destruct (getFallbackChain requestType mgr) as [c mgr']. simpl in *.
  apply rotate_without_usage; auto. now rewrite Hr.
Qed.

Lemma rotation_ignores_usage_witness :
  rotationStrategy
    (rotationConfig
       (updateRotationConfig
          (mkRotationUpdates None None (Some "round_robin") None None)
          (construct no_config 0))) <> "availability"
  /\ fst (getRotatedModel "dialogue"
            (recordUsage "llama-3.2-90b"
               (updateRotationConfig
                  (mkRotationUpdates None None (Some "round_robin") None None)
                  (construct no_config 0))))
     = fst (getRotatedModel "dialogue"
              (updateRotationConfig
                 (mkRotationUpdates None None (Some "round_robin") None None)
                 (construct no_config 0))).
Proof.
  assert (H : rotationStrategy
                (rotationConfig
                   (updateRotationConfig
                      (mkRotationUpdates None None (Some "round_robin")
                         None None)
                      (construct no_config 0))) <> "availability")
    by (simpl; discriminate).
  split; [exact H|].
  exact (rotation_ignores_usage "dialogue" "llama-3.2-90b" _ H).
Defined.

(** The candidates of a list of chain entries. *)
Local Abbreviation picks mgr ids :=
  (omap (fun modelId =>
           if is_healthy mgr modelId then models_get modelId (models mgr)
           else None) ids).

Lemma rotate_quality mgr ids : forall best minUsage,
  match rotate mgr "quality_based" ids best minUsage with
  | Some model =>
      (best = Some model \/ In model (picks mgr ids))
      /\ (forall m, In m (picks mgr ids) -> quality m <= quality model)
      /\ (forall b, best = Some b -> quality b <= quality model)
  | None => best = None /\ picks mgr ids = []
  end.
Proof.
  induction ids as [|i r IH]; intros best mu.
  - simpl. destruct best as [b|]; [|auto].
    split; [auto|]. split; [intros m []|]. intros b' E.
    inversion E; subst; lia.
  - cbn [rotate omap list_omap].
    destruct (models_get i (models mgr)) as [m|] eqn:Hg.
    2:{ destruct (is_healthy mgr i); apply IH. }
    destruct (is_healthy mgr i); [|apply IH].
    change (String.eqb "quality_based" "round_robin") with false.
    change (String.eqb "quality_based" "quality_based") with true.
    cbv iota.
    assert (Htake :
      (forall b, best = Some b -> quality b <= quality m) ->
      match rotate mgr "quality_based" r (Some m) mu with
      | Some model =>
          (best = Some model \/ In model (m :: picks mgr r))
          /\ (forall m0, In m0 (m :: picks mgr r) ->
                         quality m0 <= quality model)
          /\ (forall b, best = Some b -> quality b <= quality model)
      | None => best = None /\ m :: picks mgr r = []
      end).
    { intros Hb. specialize (IH (Some m) mu).
      destruct (rotate mgr "quality_based" r (Some m) mu) as [model|].
      - destruct IH as (Hin & Hmax & Hbest).
        pose proof (Hbest m eq_refl) as Hm.
        split; [|split].
        + right. destruct Hin as [E|Hin]; [inversion E; now left|now right].
        + intros m0 [<-|H0]; auto.
        + intros b E. specialize (Hb b E). lia.
      - destruct IH as [E _]. discriminate. }
    assert (Hkeep : forall b,
      best = Some b -> quality m <= quality b ->
      match rotate mgr "quality_based" r best mu with
      | Some model =>
          (best = Some model \/ In model (m :: picks mgr r))
          /\ (forall m0, In m0 (m :: picks mgr r) ->
                         quality m0 <= quality model)
          /\ (forall b, best = Some b -> quality b <= quality model)
      | None => best = None /\ m :: picks mgr r = []
      end).
    { intros b Eb Hle. specialize (IH best mu).
      destruct (rotate mgr "quality_based" r best mu) as [model|].
      - destruct IH as (Hin & Hmax & Hbest).
        pose proof (Hbest b Eb) as Hm.
        split; [|split].
        + destruct Hin as [E|Hin]; [now left|right; now right].
        + intros m0 [<-|H0]; [lia|auto].
        + exact Hbest.
      - destruct IH as [E _]. congruence. }
    destruct best as [b|].
    + destruct (quality b <? quality m) eqn:E.
      * apply Z.ltb_lt in E. apply Htake. intros b' Eb. inversion Eb; subst; lia.
      * apply Z.ltb_ge in E. now apply (Hkeep b).
    + apply Htake. discriminate.
Qed.

(** X11: under the 'quality_based' strategy [getRotatedModel] returns a
    model of the highest quality among the registered, healthy models of
    the chain, and null exactly when the chain has no such model. *)
Theorem quality_rotation_picks_a_best_candidate requestType mgr :
  rotationStrategy (rotationConfig mgr) = "quality_based" ->
  match fst (getRotatedModel requestType mgr) with
  | Some model =>
      In model (candidates requestType mgr)
      /\ forall m, In m (candidates requestType mgr) ->
                   quality m <= quality model
  | None => candidates requestType mgr = []
  end.
Proof.
  intros Hs. unfold getRotatedModel, candidates.
  pose proof (getFallbackChain_fields requestType mgr) as (Hm & Hh & _ & Hr).
  destruct (getFallbackChain requestType mgr) as [c mgr']. simpl in *.
  rewrite Hr, Hs.
  pose proof (rotate_quality mgr' (chain c) None None) as H.
  assert (Hp : picks mgr' (chain c) = picks mgr (chain c)).
  { apply list_omap_ext, Forall2_same_length_lookup_2; [reflexivity|].
    intros i x y Hx Hy. assert (x = y) by congruence. subst y.
    now rewrite Hm, (is_healthy_ext _ _ _ Hh). }
  rewrite Hp in H.
  destruct (rotate mgr' "quality_based" (chain c) None None) as [model|].
  - destruct H as ([E|Hin] & Hmax & _); [discriminate|auto].
  - now destruct H.
Qed.

Lemma quality_rotation_picks_a_best_candidate_witness :
  rotationStrategy (rotationConfig (construct no_config 0)) = "quality_based"
  /\ match fst (getRotatedModel "dialogue" (construct no_config 0)) with
     | Some model =>
         In model (candidates "dialogue" (construct no_config 0))
         /\ forall m, In m (candidates "dialogue" (construct no_config 0)) ->
                      quality m <= quality model
     | None => candidates "dialogue" (construct no_config 0) = []
     end.
Proof.
  split; [reflexivity|].
  exact (quality_rotation_picks_a_best_candidate "dialogue"
           (construct no_config 0) eq_refl).
Defined.

Lemma rotate_availability mgr ids : forall best minUsage,
  let usage m := default 0 (usageCount mgr !! m) in
  (forall b, best = Some b ->
             exists u, minUsage = Some u
                       /\ u = usage (model_id b)) ->
  (best = None -> minUsage = None) ->
  (forall i m, In i ids -> models_get i (models mgr) = Some m ->
               model_id m = i) ->
  match rotate mgr "availability" ids best minUsage with
  | Some model =>
      (best = Some model \/ In model (picks mgr ids))
      /\ (forall m, In m (picks mgr ids) ->
                    usage (model_id model) <= usage (model_id m))
      /\ (forall b, best = Some b ->
                    usage (model_id model) <= usage (model_id b))
  | None => best = None /\ picks mgr ids = []
  end.
Proof.
  intros best mu usage. revert best mu.
  induction ids as [|i r IH]; intros best mu Hb Hn Hid.
  - simpl. destruct best as [b|]; [|auto].
    split; [auto|]. split; [intros m []|]. intros b' E.
    inversion E; subst; lia.
  - cbn [rotate omap list_omap].
    assert (Hid' : forall j m, In j r ->
                               models_get j (models mgr) = Some m ->
                               model_id m = j)
      by (intros j m Hj; apply Hid; now right).
    destruct (models_get i (models mgr)) as [m|] eqn:Hg.
    2:{ destruct (is_healthy mgr i); now apply IH. }
    destruct (is_healthy mgr i); [|now apply IH].
    change (String.eqb "availability" "round_robin") with false.
    change (String.eqb "availability" "quality_based") with false.
    change (String.eqb "availability" "speed_based") with false.
    change (String.eqb "availability" "availability") with true.
    cbv iota.
    assert (Hi : model_id m = i) by (apply Hid; [now left|exact Hg]).
    fold (usage i).
    assert (Htake :
      (forall b, best = Some b -> usage i <= usage (model_id b)) ->
      match rotate mgr "availability" r (Some m) (Some (usage i)) with
      | Some model =>
          (best = Some model \/ In model (m :: picks mgr r))
          /\ (forall m0, In m0 (m :: picks mgr r) ->
                         usage (model_id model) <= usage (model_id m0))
          /\ (forall b, best = Some b ->
                        usage (model_id model) <= usage (model_id b))
      | None => best = None /\ m :: picks mgr r = []
      end).
    { intros Hle.
      specialize (IH (Some m) (Some (usage i))).
      destruct (rotate mgr "availability" r (Some m) (Some (usage i)))
        as [model|].
      - destruct IH as (Hin & Hmin & Hbest).
        + intros b E. inversion E; subst b. exists (usage i).
          now rewrite Hi.
        + discriminate.
        + exact Hid'.
        + pose proof (Hbest m eq_refl) as Hm. rewrite Hi in Hm.
          split; [|split].
          * right. destruct Hin as [E|Hin];
              [inversion E; now left|now right].
          * intros m0 [<-|H0]; [now rewrite Hi|auto].
          * intros b E. specialize (Hle b E). lia.
      - destruct IH as [E _]; [| | |discriminate].
        + intros b E. inversion E; subst b. exists (usage i).
          now rewrite Hi.
        + discriminate.
        + exact Hid'. }
    assert (Hkeep : forall b,
      best = Some b -> usage (model_id b) <= usage i ->
      match rotate mgr "availability" r best mu with
      | Some model =>
          (best = Some model \/ In model (m :: picks mgr r))
          /\ (forall m0, In m0 (m :: picks mgr r) ->
                         usage (model_id model) <= usage (model_id m0))
          /\ (forall b, best = Some b ->
                        usage (model_id model) <= usage (model_id b))
      | None => best = None /\ m :: picks mgr r = []
      end).
    { intros b Eb Hle. specialize (IH best mu Hb Hn Hid').
      destruct (rotate mgr "availability" r best mu) as [model|].
      - destruct IH as (Hin & Hmin & Hbest).
        pose proof (Hbest b Eb) as Hm.
        split; [|split].
        + destruct Hin as [E|Hin]; [now left|right; now right].
        + intros m0 [<-|H0]; [rewrite Hi; lia|auto].
        + exact Hbest.
      - destruct IH as [E _]. congruence. }
    destruct best as [b|].
    + destruct (Hb b eq_refl) as (u & -> & ->).
      destruct (usage i <? usage (model_id b)) eqn:E.
      * apply Z.ltb_lt in E. apply Htake. intros b' Eb.
        inversion Eb; subst; lia.
      * apply Z.ltb_ge in E. now apply (Hkeep b).
    + rewrite (Hn eq_refl). apply Htake. discriminate.
Qed.

(** X12: under the 'availability' strategy [getRotatedModel] returns, among
    the registered, healthy models of the chain, one whose recorded usage
    is the lowest, and null exactly when the chain has no such model. *)
Theorem availability_rotation_picks_a_least_used_candidate requestType mgr :
  well_formed mgr ->
  rotationStrategy (rotationConfig mgr) = "availability" ->
  match fst (getRotatedModel requestType mgr) with
  | Some model =>
      In model (candidates requestType mgr)
      /\ forall m, In m (candidates requestType mgr) ->
           default 0 (usageCount mgr !! model_id model)
           <= default 0 (usageCount mgr !! model_id m)
  | None => candidates requestType mgr = []
  end.
Proof.
  intros (Hk & Hid & _) Hs. unfold getRotatedModel, candidates.
  pose proof (getFallbackChain_fields requestType mgr)
    as (Hm & Hh & Hu & Hr).
  destruct (getFallbackChain requestType mgr) as [c mgr']. simpl in *.
  rewrite Hr, Hs.
  pose proof (rotate_availability mgr' (chain c) None None) as H.
  assert (Hp : picks mgr' (chain c) = picks mgr (chain c)).
  { apply list_omap_ext, Forall2_same_length_lookup_2; [reflexivity|].
    intros i x y Hx Hy. assert (x = y) by congruence. subst y.
    now rewrite Hm, (is_healthy_ext _ _ _ Hh). }
  simpl in H. rewrite Hp, Hu in H.
  destruct (rotate mgr' "availability" (chain c) None None) as [model|].
  - destruct H as ([E|Hin] & Hmin & _); try discriminate; auto.
    intros i m _ Hg. rewrite Hm in Hg. apply Hid.
    now apply models_get_In.
  - destruct H as [_ H]; try discriminate; auto.
    intros i m _ Hg. rewrite Hm in Hg. apply Hid.
    now apply models_get_In.
Qed.

Lemma availability_rotation_picks_a_least_used_candidate_witness :
  let mgr :=
    recordUsage "llama-3.2-90b"
      (updateRotationConfig
         (mkRotationUpdates None None (Some "availability") None None)
         (construct no_config 0)) in
  well_formed mgr
  /\ rotationStrategy (rotationConfig mgr) = "availability"
  /\ match fst (getRotatedModel "dialogue" mgr) with
     | Some model =>
         In model (candidates "dialogue" mgr)
         /\ forall m, In m (candidates "dialogue" mgr) ->
              default 0 (usageCount mgr !! model_id model)
              <= default 0 (usageCount mgr !! model_id m)
     | None => candidates "dialogue" mgr = []
     end.
Proof.
  intros mgr.
  assert (Hwf : well_formed mgr).
  { apply (run_well_formed
             [(1, UpdateRotationConfig
                    (mkRotationUpdates None None (Some "availability")
                       None None));
              (2, RecordUsage "llama-3.2-90b")]).
    apply construct_well_formed. }
  split; [exact Hwf|]. split; [reflexivity|].
  exact (availability_rotation_picks_a_least_used_candidate "dialogue" mgr
           Hwf eq_refl).
Defined.

(** X13: a model registered after the chain of a request type was cached
    is not in that chain, and [getRotatedModel] for the request type never
    returns it. *)
Theorem late_registration_is_not_rotated_in requestType c model now mgr m :
  well_formed mgr ->
  fallbackChains mgr !! requestType = Some c ->
  ~ In (model_id model) (chain c) ->
  fst (getRotatedModel requestType (registerModel model now mgr)) = Some m ->
  model_id m <> model_id model.
Proof.
  intros (Hk & Hid & _) Hc Hnot. unfold getRotatedModel, getFallbackChain.
  cbn [fallbackChains registerModel]. rewrite Hc. cbn [fst].
  intros H. apply rotate_from in H as [E|(i & Hi & Hg)]; [discriminate|].
  cbn [models registerModel] in Hg. rewrite models_get_set in Hg.
  destruct (decide (i = model_id model)) as [->|Hne]; [contradiction|].
  apply models_get_In, Hid in Hg. congruence.
Qed.

Lemma late_registration_is_not_rotated_in_witness :
  exists c m,
    well_formed serving_dialogue
    /\ fallbackChains serving_dialogue !! "dialogue" = Some c
    /\ ~ In (model_id newcomer) (chain c)
    /\ fst (getRotatedModel "dialogue"
              (registerModel newcomer 5 serving_dialogue)) = Some m
    /\ model_id m <> model_id newcomer.
Proof.
  assert (Hwf : well_formed serving_dialogue).
  { unfold serving_dialogue. apply run_well_formed, construct_well_formed. }
  assert (Hc : exists c, fallbackChains serving_dialogue !! "dialogue"
                         = Some c
                         /\ forallb (fun i => negb (String.eqb
                                                      (model_id newcomer) i))
                              (chain c) = true)
    by (eexists; vm_compute; split; reflexivity).
  destruct Hc as (c & Hc & Hfresh).
  assert (Hnot : ~ In (model_id newcomer) (chain c)).
  { intros Hin. rewrite forallb_forall in Hfresh.
    specialize (Hfresh _ Hin). now rewrite String.eqb_refl in Hfresh. }
  assert (Hm : exists m,
            fst (getRotatedModel "dialogue"
                   (registerModel newcomer 5 serving_dialogue)) = Some m)
    by (eexists; vm_compute; reflexivity).
  destruct Hm as (m & Hm).
  exists c, m. split; [exact Hwf|]. split; [exact Hc|].
  split; [exact Hnot|]. split; [exact Hm|].
  exact (late_registration_is_not_rotated_in "dialogue" c newcomer 5
           serving_dialogue m Hwf Hc Hnot Hm).
Defined.

(** ** Health checks *)

Lemma health_checks_untouched now l k : forall mgr,
  ~ In k (List.map fst l) ->
  healthStatus
    (fold_left
       (fun mgr (km : string * ModelConfig) =>
          match checkModelHealth (snd km) with
          | Some h => setModelHealth (fst km) h (Some 0) now mgr
          | None => setModelHealth (fst km) false (Some 0) now mgr
          end) l mgr) !! k
  = healthStatus mgr !! k.
Proof.
  induction l as [|km r IH]; intros mgr Hn; cbn [fold_left];
    [reflexivity|].
  rewrite IH by (intros Hin; apply Hn; simpl; auto).
  simpl. apply lookup_insert_ne. intros E. apply Hn. simpl. auto.
Qed.

Lemma health_checks_touched now l k : forall mgr,
  In k (List.map fst l) ->
  healthStatus
    (fold_left
       (fun mgr (km : string * ModelConfig) =>
          match checkModelHealth (snd km) with
          | Some h => setModelHealth (fst km) h (Some 0) now mgr
          | None => setModelHealth (fst km) false (Some 0) now mgr
          end) l mgr) !! k
  = Some (mkHealth true now 0).
Proof.
  induction l as [|km r IH]; intros mgr Hin; cbn [fold_left];
    [destruct Hin|].
  destruct (in_dec string_dec k (List.map fst r)) as [Hr|Hr].
  - now apply IH.
  - rewrite health_checks_untouched by exact Hr.
    destruct Hin as [<-|Hin]; [|contradiction].
    simpl. apply lookup_insert_eq.
Qed.

Lemma filter_all {A} (p : A -> bool) l :
  (forall x, In x l -> p x = true) -> List.filter p l = l.
Proof.
  induction l as [|x r IH]; simpl; intros H; [reflexivity|].
  rewrite (H x) by now left. f_equal. apply IH. intros y Hy. apply H.
  now right.
Qed.

(** X14: with the probe of the source, which always answers healthy, one
    round of [performHealthChecks] leaves every registered model healthy:
    a model reported as failed is healthy again after the next round. *)
Theorem health_checks_restore_every_model now mgr :
  well_formed mgr ->
  getHealthyModels (performHealthChecks checkModelHealth now mgr)
  = models_values (models mgr).
Proof.
  intros (Hk & Hid & _). unfold getHealthyModels.
  rewrite (proj1 (performHealthChecks_fields _ _ _)).
  apply filter_all. intros m Hin. unfold models_values in Hin.
  apply in_map_iff in Hin as ([k m'] & <- & Hin). simpl.
  rewrite (Hid _ _ Hin). unfold is_healthy, performHealthChecks.
  rewrite health_checks_touched; [reflexivity|].
  apply in_map_iff. exists (k, m'). auto.
Qed.

Lemma health_checks_restore_every_model_witness :
  well_formed (reportFailure "llama-3.2-90b" 5 (construct no_config 0))
  /\ getHealthyModels
       (performHealthChecks checkModelHealth 30000
          (reportFailure "llama-3.2-90b" 5 (construct no_config 0)))
     = models_values
         (models (reportFailure "llama-3.2-90b" 5 (construct no_config 0))).
Proof.
  assert (Hwf : well_formed
                  (reportFailure "llama-3.2-90b" 5 (construct no_config 0))).
  { apply (run_well_formed [(5, ReportFailure "llama-3.2-90b")]).
    apply construct_well_formed. }
  split; [exact Hwf|].
  exact (health_checks_restore_every_model 30000 _ Hwf).
Defined.

(** ** The shortcuts *)

Lemma head_sort_filter {A} (key : A -> Z) (p : A -> bool) l :
  match List.head (sort (fun a b => key b - key a) (List.filter p l)) with
  | Some x =>
      In x l /\ p x = true
      /\ forall y, In y l -> p y = true -> key y <= key x
  | None => forall y, In y l -> p y = false
  end.
Proof.
  pose proof (sort_head (fun a b => key b - key a)
                ltac:(intros; lia) ltac:(intros; lia) (List.filter p l)) as H.
  destruct (List.head _) as [x|].
  - destruct H as [Hin Hmin]. apply filter_In in Hin as [Hin Hp].
    repeat split; auto. intros y Hy Hpy.
    specialize (Hmin y). rewrite filter_In in Hmin.
    specialize (Hmin (conj Hy Hpy)). lia.
  - intros y Hy. destruct (p y) eqn:E; [|reflexivity].
    assert (Hin : In y (List.filter p l)) by (apply filter_In; auto).
    rewrite H in Hin. destruct Hin.
Qed.

(** X15: the three shortcuts answer the best model of their kind.
    [getUncensoredModel] returns a registered, healthy, uncensored model
    whose quality no other such model exceeds; [getFastModel] a registered,
    healthy model of speed 9 or more that none is faster than;
    [getHighQualityModel] a registered, healthy model of quality 8 or more
    that none is better than. Each returns null only when no registered
    model is eligible and healthy. *)
Theorem shortcuts_pick_the_best_of_their_kind mgr :
  best_of mgr uncensored quality (getUncensoredModel mgr)
  /\ best_of mgr (fun m => 9 <=? speed m) speed (getFastModel mgr)
  /\ best_of mgr (fun m => 8 <=? quality m) quality (getHighQualityModel mgr).
Proof.
  assert (H : forall eligible key,
            best_of mgr eligible key
              (List.head
                 (sort (fun a b => key b - key a)
                    (List.filter
                       (fun m => eligible m && is_healthy mgr (model_id m))
                       (models_values (models mgr)))))).
  { intros eligible key. unfold best_of.
    pose proof (head_sort_filter key
                  (fun m => eligible m && is_healthy mgr (model_id m))
                  (models_values (models mgr))) as H.
    destruct (List.head _) as [model|].
    - destruct H as (Hin & Hp & Hmax).
      apply andb_true_iff in Hp as [He Hh].
      repeat split; auto. intros m Hm Hem Hhm. apply Hmax; [exact Hm|].
      now rewrite Hem, Hhm.
    - intros m Hm He. specialize (H m Hm). now rewrite He in H. }
  split; [|split].
  - exact (H uncensored quality).
  - exact (H (fun m => 9 <=? speed m) speed).
  - exact (H (fun m => 8 <=? quality m) quality).
Qed.

(** ** Statistics *)

Lemma sum_insert (k : string) (v : Z) (m : gmap string Z) :
  map_fold (fun _ b a => a + b) 0 (<[k := v]> m)
  = map_fold (fun _ b a => a + b) 0 m - default 0 (m !! k) + v.
Proof.
  assert (Hcomm : forall (m0 : gmap string Z) (j1 j2 : string)
                         (z1 z2 y : Z),
            j1 <> j2 -> m0 !! j1 = Some z1 -> m0 !! j2 = Some z2 ->
            y + z2 + z1 = y + z1 + z2) by (intros; lia).
  destruct (m !! k) as [c|] eqn:E; simpl.
  - rewrite <- (insert_delete_eq m k v).
    rewrite (map_fold_insert_L _ _ _ _ _ (Hcomm _)) by apply lookup_delete_eq.
    rewrite (map_fold_delete_L _ _ k c m (Hcomm _) E). lia.
  - rewrite (map_fold_insert_L _ _ _ _ _ (Hcomm _)) by exact E. lia.
Qed.

Lemma performHealthChecks_usageCount probe now mgr :
  usageCount (performHealthChecks probe now mgr) = usageCount mgr.
Proof.
  unfold performHealthChecks.
  generalize (models mgr) at 1. intros l. revert mgr.
  induction l as [|km r IH]; intros mgr; simpl; [auto|].
  destruct (probe (snd km)); now rewrite IH.
Qed.

Lemma exec_totalRequests c now mgr :
  totalRequests (getStats (exec c now mgr))
  = totalRequests (getStats mgr) + (if counts_as_request c then 1 else 0).
Proof.
  unfold getStats. cbn [totalRequests].
  destruct c; cbn [exec counts_as_request]; rewrite ?Z.add_0_r.
  - reflexivity.
  - now rewrite getBestModel_manager,
      (proj1 (proj2 (proj2 (getFallbackChain_fields _ _)))).
  - now rewrite getRotatedModel_manager,
      (proj1 (proj2 (proj2 (getFallbackChain_fields _ _)))).
  - unfold recordUsage. cbn [usageCount]. rewrite sum_insert. lia.
  - reflexivity.
  - unfold reportSuccess, recordUsage. cbn [usageCount].
    rewrite sum_insert. lia.
  - reflexivity.
  - reflexivity.
  - now rewrite performHealthChecks_usageCount.
Qed.

Lemma construct_usageCount config now :
  usageCount (construct config now) = ∅.
Proof.
  unfold construct.
  generalize DEFAULT_MODELS. intros l.
  assert (H : forall mgr, usageCount mgr = ∅ ->
              usageCount (fold_left (fun mgr model =>
                                       registerModel model now mgr) l mgr)
              = ∅).
  { induction l as [|x r IH]; intros mgr Hm; simpl; [exact Hm|].
    apply IH. exact Hm. }
  apply H. reflexivity.
Qed.

(** X16: the request total of [getStats] counts the recorded uses. After
    any run of calls on a manager made by the constructor it is the number
    of [recordUsage] and [reportSuccess] calls of the run; and the number
    of healthy models it reports never exceeds the number of models. *)
Theorem getStats_counts_the_recorded_uses config t0 calls :
  let stats := getStats (run calls (construct config t0)) in
  totalRequests stats
  = Z.of_nat (length (List.filter counts_as_request (List.map snd calls)))
  /\ (healthyModels stats <= totalModels stats)%nat.
Proof.
  intros stats. split.
  - subst stats. unfold run.
    assert (H : forall mgr,
              totalRequests
                (getStats (fold_left (fun mgr tc => exec (snd tc) (fst tc) mgr)
                             calls mgr))
              = totalRequests (getStats mgr)
                + Z.of_nat (length (List.filter counts_as_request
                                      (List.map snd calls)))).
    { induction calls as [|[t c] r IH]; intros mgr; [simpl; lia|].
      cbn [fold_left List.map List.filter snd fst].
      rewrite IH, exec_totalRequests.
      destruct (counts_as_request c); cbn [length]; lia. }
    rewrite H. unfold getStats at 1. cbn [totalRequests].
    rewrite construct_usageCount, map_fold_empty. lia.
  - subst stats. unfold getStats, getHealthyModels, models_values.
    cbn [healthyModels totalModels].
    rewrite <- (length_map snd (models _)). apply filter_length_le.
Qed.

End ModelExtras.

(* ===================================================================== *)
(** * Further properties of personas and of rendering                     *)
(* ===================================================================== *)

Module PersonaExtras.
Import Persona PersonaRuns.

(** ** The emotion history *)

Lemma keep_last_step {A} (n : nat) (h : list A) (x : A) :
  (length h <= n)%nat -> (0 < n)%nat ->
  (if (n <? length (h ++ [x]))%nat then List.tl (h ++ [x]) else h ++ [x])
  = drop (length (h ++ [x]) - n) (h ++ [x]).
Proof.
  intros Hle Hn. rewrite length_app. simpl length.
  destruct (n <? length h + 1)%nat eqn:E.
  - apply Nat.ltb_lt in E.
    replace (length h + 1 - n)%nat with 1%nat by lia.
    destruct (h ++ [x]); reflexivity.
  - apply Nat.ltb_ge in E.
    now replace (length h + 1 - n)%nat with 0%nat by lia.
Qed.

Lemma keep_last_app {A} (n : nat) (l rest : list A) :
  drop (length (drop (length l - n) l ++ rest) - n)
    (drop (length l - n) l ++ rest)
  = drop (length (l ++ rest) - n) (l ++ rest).
Proof.
  rewrite !length_app, length_drop.
  destruct (decide (length l <= n)%nat) as [Hle|Hgt].
  - replace (length l - n)%nat with 0%nat by lia. simpl.
    now rewrite Nat.sub_0_r.
  - replace (length l - (length l - n) + length rest - n)%nat
      with (length rest) by lia.
    replace (length l + length rest - n)%nat
      with ((length l - n) + length rest)%nat by lia.
    rewrite <- drop_drop. f_equal.
    rewrite drop_app_le by lia. reflexivity.
Qed.

Lemma last_cons_default {A} (l : list A) : forall a d,
  List.last (a :: l) d = List.last l a.
Proof.
  induction l as [|b l IH]; intros a d; [reflexivity|].
  change (List.last (a :: b :: l) d) with (List.last (b :: l) d).
  now rewrite !IH.
Qed.

(** X17: the modulator of a persona keeps the last twenty emotions and no
    more. After any sequence of [modulateVoice] calls its history is the
    last twenty entries of what it held followed by one entry per call, in
    call order, and its current emotion is the target of the last call. *)
Theorem emotion_history_keeps_the_last_twenty calls m persona :
  em_persona m = Some persona ->
  (length (emotionHistory m) <= 20)%nat ->
  let all := (emotionHistory m ++ List.map history_entry calls)%list in
  emotionHistory (modulations calls m) = drop (length all - 20) all
  /\ currentEmotion (modulations calls m)
     = List.last (List.map fst calls) (currentEmotion m).
Proof.
  revert m. induction calls as [|c r IH]; intros m Hp Hlen all.
  - subst all. simpl. rewrite app_nil_r. split; [|reflexivity].
    now replace (length (emotionHistory m) - 20)%nat with 0%nat by lia.
  - change (modulations (c :: r) m)
      with (modulations r (snd (modulateVoice (fst c) (snd c) m))).
    set (m1 := snd (modulateVoice (fst c) (snd c) m)).
    assert (Hm1 : em_persona m1 = Some persona
                  /\ currentEmotion m1 = fst c
                  /\ emotionHistory m1
                     = drop (length (emotionHistory m ++ [history_entry c])
                             - 20) (emotionHistory m ++ [history_entry c])).
    { subst m1. unfold modulateVoice. rewrite Hp.
      cbn [snd em_persona currentEmotion emotionHistory].
      split; [reflexivity|]. split; [reflexivity|].
      apply (keep_last_step 20); [exact Hlen|lia]. }
    destruct Hm1 as (Hp1 & Hc1 & Hh1).
    assert (Hlen1 : (length (emotionHistory m1) <= 20)%nat).
    { rewrite Hh1, length_drop, length_app. simpl. lia. }
    destruct (IH m1 Hp1 Hlen1) as [IHh IHc]. split.
    + rewrite IHh, Hh1. subst all. rewrite keep_last_app.
      simpl List.map. now rewrite <- app_assoc.
    + rewrite IHc, Hc1. cbn [List.map]. symmetry. apply last_cons_default.
Qed.

Lemma emotion_history_keeps_the_last_twenty_witness :
  let m := new_EmotionModulator (Some EngineExamples.shrill_villain) None in
  let calls := [("angry", 10); ("cold", 20)] in
  em_persona m = Some EngineExamples.shrill_villain
  /\ (length (emotionHistory m) <= 20)%nat
  /\ emotionHistory (modulations calls m)
     = drop (length (emotionHistory m ++ List.map history_entry calls) - 20)
         (emotionHistory m ++ List.map history_entry calls)
  /\ currentEmotion (modulations calls m)
     = List.last (List.map fst calls) (currentEmotion m).
Proof.
  intros m calls.
  assert (Hlen : (length (emotionHistory m) <= 20)%nat) by (simpl; lia).
  split; [reflexivity|]. split; [exact Hlen|].
  exact (emotion_history_keeps_the_last_twenty calls m
           EngineExamples.shrill_villain eq_refl Hlen).
Defined.

(** ** Voice parameters *)

(** X18: once a persona has an emotion modulator, the voice parameters of
    its dialogues are those the modulator computes from the persona it was
    created with: whatever [updatePersona] changes in the stored persona,
    its voice profile included, the voice of the next dialogue is what it
    would have been without the update. *)
Theorem voice_ignores_persona_updates personaId updates context
    targetEmotion ctx now draws mgr m :
  emotionModulation mgr !! personaId = Some m ->
  is_Some (personas mgr !! personaId) ->
  voiceParams
    (generateDialogue personaId context targetEmotion ctx now draws
       (snd (updatePersona personaId updates mgr)))
  = Some (fst (modulateVoice targetEmotion now m)).
Proof.
  intros Hm [persona Hp]. unfold updatePersona. rewrite Hp. cbn [snd].
  unfold generateDialogue. cbn [personas emotionModulation].
  rewrite lookup_insert_eq, Hm.
  destruct (modulateVoice targetEmotion now m) as [voice m'].
  destruct (applySpeechPatterns _ context draws) as [text draws'].
  reflexivity.
Qed.

Lemma voice_ignores_persona_updates_witness :
  exists m,
    emotionModulation villain_has_spoken !! "villain" = Some m
    /\ is_Some (personas villain_has_spoken !! "villain")
    /\ voiceParams
         (generateDialogue "villain" "Sit down." "angry" None 900 []
            (snd (updatePersona "villain" new_voice villain_has_spoken)))
       = Some (fst (modulateVoice "angry" 900 m)).
Proof.
  assert (Hm : exists m,
            emotionModulation villain_has_spoken !! "villain" = Some m)
    by (eexists; vm_compute; reflexivity).
  destruct Hm as (m & Hm).
  assert (Hp : is_Some (personas villain_has_spoken !! "villain"))
    by (eexists; vm_compute; reflexivity).
  exists m. split; [exact Hm|]. split; [exact Hp|].
  exact (voice_ignores_persona_updates "villain" new_voice "Sit down."
           "angry" None 900 [] villain_has_spoken m Hm Hp).
Defined.

(** ** Speech patterns *)

(** X19: the speech-pattern loop never edits a text: what it returns is
    the text it was given or, whole, the replacement of one of the
    patterns; and it draws at most one random number per pattern. *)
Theorem speech_patterns_replace_wholesale ps text draws :
  (fst (applySpeechPatterns ps text draws) = text
   \/ In (fst (applySpeechPatterns ps text draws))
        (List.map replacement ps))
  /\ (length draws - length ps
      <= length (snd (applySpeechPatterns ps text draws))
      <= length draws)%nat.
Proof.
  revert text draws. induction ps as [|p r IH]; intros text draws.
  - simpl. split; [auto|lia].
  - cbn [applySpeechPatterns List.map length].
    assert (Hkeep : forall d,
              (length draws - 1 <= length d <= length draws)%nat ->
              (fst (applySpeechPatterns r text d) = text
               \/ In (fst (applySpeechPatterns r text d))
                    (replacement p :: List.map replacement r))
              /\ (length draws - S (length r)
                  <= length (snd (applySpeechPatterns r text d))
                  <= length draws)%nat).
    { intros d Hd. destruct (IH text d) as [[H|H] Hl].
      - split; [now left|lia].
      - split; [right; now right|lia]. }
    assert (Htl : (length draws - 1 <= length (List.tl draws)
                   <= length draws)%nat)
      by (destruct draws; simpl; lia).
    destruct (existsb _ (triggers p)).
    + destruct (Qlt_bool (List.hd 1%Q draws) (probability p)).
      * destruct (IH (replacement p) (List.tl draws)) as [[H|H] Hl].
        -- split; [right; left; now rewrite H|lia].
        -- split; [right; now right|lia].
      * now apply Hkeep.
    + apply Hkeep. lia.
Qed.

End PersonaExtras.

Module EngineExtras.
Import JS Types Codec SessionManager Engine Spec SessionProps SessionExtras.

(** ** The render cache *)



(** ** Choices through the engine *)

Lemma getSession_keeps_offer sessionId k now st :
  (forall s, sessions st !! sessionId = Some s -> choices (state s) = []) ->
  forall s, sessions (snd (getSession k now st)) !! sessionId = Some s ->
            choices (state s) = [].
Proof.
  intros H s.
  destruct (getSession_cases k now st)
    as [[E _]|[(s0 & e & E & _)|(s0 & E & _)]]; rewrite E; cbn [snd];
    [apply H| |apply H].
  rewrite deleteSession_lookup. destruct (decide (k = sessionId));
    [discriminate|apply H].
Qed.

Lemma setVariable_keeps_offer sessionId key v now st :
  (forall s, sessions st !! sessionId = Some s -> choices (state s) = []) ->
  forall s,
    sessions (setVariable sessionId key v now st) !! sessionId = Some s ->
    choices (state s) = [].
Proof.
  intros H s. unfold setVariable.
  destruct (getSession_cases sessionId now st)
    as [[E _]|[(s0 & e & E & _)|(s0 & E & Hs0)]]; rewrite E.
  - apply H.
  - rewrite deleteSession_lookup. destruct (decide (sessionId = sessionId));
      [discriminate|apply H].
  - simpl. rewrite lookup_insert_eq. intros E'. inversion E'; subst s.
    simpl. now apply H.
Qed.

Lemma applyPersonaVoice_sessionManager sessionId personaId text now draws w
    text' draws' w' :
  applyPersonaVoice sessionId personaId text now draws w
  = Some (text', draws', w') ->
  sessionManager w' = snd (getSession sessionId now (sessionManager w)).
Proof.
  unfold applyPersonaVoice.
  destruct (getSession sessionId now (sessionManager w)) as [[s|] st].
  - destruct (Persona.generateDialogue _ _ _ _ _ _ _)
      as [[[[t v] d] pm]|]; [|discriminate].
    intros E. inversion E. reflexivity.
  - intros E. inversion E. reflexivity.
Qed.

Lemma renderNode_sessionManager session node now draws w out draws' w' :
  renderNode session node now draws w = Rendered out draws' w' ->
  sessionManager w' = sessionManager w
  \/ sessionManager w'
     = snd (getSession (id session) now (sessionManager w)).
Proof.
  unfold renderNode.
  assert (Hstore : forall c d k (w0 : World),
            sessionManager w0 = sessionManager w
            \/ sessionManager w0
               = snd (getSession (id session) now (sessionManager w)) ->
            Rendered c d (with_cache k w0) = Rendered out draws' w' ->
            sessionManager w' = sessionManager w
            \/ sessionManager w'
               = snd (getSession (id session) now (sessionManager w))).
  { intros c d k w0 H E. inversion E; subst. exact H. }
  destruct (cache w !! _) as [[data e]|]; [destruct (now <? e)|].
  1:{ intros E. inversion E; subst. now left. }
  all: destruct (match node_metadata node with
                 | Some md => obj_get "speaker" md
                 | None => JUndefined
                 end) as [| |b|q| |speakerId|items|props|entries];
    simpl; try (apply Hstore; now left); try discriminate;
    [ destruct b; simpl; [discriminate|apply Hstore; now left]
    | destruct (Qeq_bool q 0); simpl; [apply Hstore; now left|discriminate]
    | destruct (negb (String.eqb speakerId "") && _);
        [|apply Hstore; now left];
      destruct (applyPersonaVoice _ _ _ _ _ _) as [[[c d] w0]|] eqn:Hv;
        [|discriminate];
      apply Hstore; right;
      now apply applyPersonaVoice_sessionManager in Hv ].
Qed.

Lemma processChoice_without_offer sessionId input now draws w :
  (forall s, sessions (sessionManager w) !! sessionId = Some s ->
             choices (state s) = []) ->
  exists w', processChoice sessionId input now draws w
             = Answered None draws w'.
Proof.
  intros H. unfold processChoice.
  destruct (getSession_cases sessionId now (sessionManager w))
    as [[E _]|[(s & e & E & _)|(s & E & Hs)]]; rewrite E.
  - eauto.
  - eauto.
  - cbn [sessionManager with_sessionManager stories].
    destruct (stories w !! storyId s); [|eauto].
    unfold makeChoice. rewrite E, (H s Hs). simpl. eauto.
Qed.

(** X21: the engine never puts choices on offer. The session
    [startSession] has created holds no offered choices (the choices of
    its node are returned to the caller but not stored), so a choice sent
    through [processInput] for that session is answered with null,
    whatever its id and at whatever instant, as long as nothing but the
    engine has touched the session. *)
Theorem engine_never_offers_a_choice sessionId uuids storyId playerId
    channel playerVariables now draws w session content draws' w'
    input now' draws2 :
  startSession sessionId uuids storyId playerId channel playerVariables
    now draws w = Some (Some (session, content), draws', w') ->
  exists w'',
    processChoice sessionId input now' draws2 w' = Answered None draws2 w''.
Proof.
  intros H. apply processChoice_without_offer.
  revert H. unfold startSession.
  destruct (stories w !! storyId) as [story|]; [|discriminate].
  destruct (fold_left _ (story_personas story) _) as [ps pm].
  unfold createSession.
  set (session0 := {| id := sessionId |}).
  set (st0 := sessionExpiry_set sessionId _ _).
  assert (H0 : forall s, sessions st0 !! sessionId = Some s ->
                         choices (state s) = []).
  { intros s. subst st0. simpl. rewrite lookup_insert_eq.
    intros E. inversion E. reflexivity. }
  assert (Hvars : forall vars st,
            (forall s, sessions st !! sessionId = Some s ->
                       choices (state s) = []) ->
            forall s,
              sessions
                (fold_left (fun st kv => setVariable sessionId (fst kv)
                                           (snd kv) now st) vars st)
                !! sessionId = Some s ->
              choices (state s) = []).
  { induction vars as [|kv r IH]; intros st Hst; simpl; [exact Hst|].
    apply IH. now apply setVariable_keeps_offer. }
  specialize (Hvars (default [] playerVariables) st0 H0).
  set (st1 := fold_left _ (default [] playerVariables) st0) in *.
  destruct (story_node (startingNode story) story) as [node|];
    [|discriminate].
  destruct (renderNode session0 node now draws _) as [c d w1| |] eqn:Hr;
    try discriminate.
  intros E. inversion E; subst. clear E.
  cbn [sessionManager with_activeSessions].
  apply renderNode_sessionManager in Hr as [Hr|Hr]; rewrite Hr.
  - exact Hvars.
  - now apply getSession_keeps_offer.
Qed.

Lemma engine_never_offers_a_choice_witness :
  exists session content draws' w',
    startSession "s1" EngineExamples.uuids "mystery_manor" "player_1" "text"
      None 1000 [] EngineExamples.world0
    = Some (Some (session, content), draws', w')
    /\ exists w'',
         processChoice "s1" "enter" 2000 [] w' = Answered None [] w''.
Proof.
  assert (H : exists session content draws' w',
            startSession "s1" EngineExamples.uuids "mystery_manor"
              "player_1" "text" None 1000 [] EngineExamples.world0
            = Some (Some (session, content), draws', w'))
    by (do 4 eexists; vm_compute; reflexivity).
  destruct H as (session & content & draws' & w' & H).
  exists session, content, draws', w'. split; [exact H|].
  exact (engine_never_offers_a_choice "s1" EngineExamples.uuids
           "mystery_manor" "player_1" "text" None 1000 []
           EngineExamples.world0 session content draws' w' "enter" 2000 []
           H).
Defined.

End EngineExtras.

(* ===================================================================== *)
(** * Properties of context updates                                       *)
(* ===================================================================== *)

Module ContextProps.
Import JS Types Codec SessionManager JSProps Spec Examples SessionProps
       SessionExtras PersistenceSpec SessionContext ContextExamples.

Lemma merge_step_Merged target k x inner result r :
  merge_step target k x inner result = Merged r ->
  if typeof_object (obj_get k (spread target)) && typeof_object x
  then exists o, inner = Merged o /\ r = obj_set k (JObj o) result
  else r = obj_set k x result.
Proof.
  unfold merge_step.
  destruct (negb (is_object target)); [discriminate|].
  destruct (String.eqb k "__proto__"); [discriminate|].
  destruct (typeof_object (obj_get k (spread target)) && typeof_object x).
  - destruct inner as [o| |]; try discriminate.
    intros E. inversion E. eauto.
  - intros E. now inversion E.
Qed.

(** What the loop of [deepMerge] leaves under each key. *)
Lemma merge_entries_get rec target ps :
  distinct_keys ps = true ->
  forall r0 r,
    merge_entries rec target ps r0 = Merged r ->
    (forall k, obj_has k ps = false -> obj_get k r = obj_get k r0)
    /\ (forall k x,
          In (k, x) ps ->
          if typeof_object (obj_get k (spread target)) && typeof_object x
          then exists o, rec (obj_get k (spread target)) x = Merged o
                         /\ obj_get k r = JObj o
          else obj_get k r = x).
Proof.
  induction ps as [|[k0 x0] rest IH]; intros Hd r0 r; simpl.
  - intros E. inversion E. split; [reflexivity|intros k x []].
  - simpl in Hd. apply andb_true_iff in Hd as [Hfresh Hd].
    apply negb_true_iff in Hfresh.
    destruct (merge_step target k0 x0 _ r0) as [r1| |] eqn:Hstep;
      try discriminate.
    intros Hrest. destruct (IH Hd r1 r Hrest) as [Hout Hin].
    apply merge_step_Merged in Hstep.
    assert (H0 : obj_get k0 r = obj_get k0 r1) by now apply Hout.
    split.
    + intros k Hk. apply orb_false_iff in Hk as [Hne Hk].
      rewrite (Hout k Hk). apply String.eqb_neq in Hne.
      destruct (typeof_object _ && typeof_object x0).
      * destruct Hstep as (o & _ & ->). now apply obj_get_set_ne.
      * subst r1. now apply obj_get_set_ne.
    + intros k x [E|Hkx]; [|now apply Hin].
      inversion E; subst k0 x0. rewrite H0.
      destruct (typeof_object _ && typeof_object x).
      * destruct Hstep as (o & Hrec & ->). exists o.
        split; [exact Hrec|apply obj_get_set_eq].
      * subst r1. apply obj_get_set_eq.
Qed.

(** What [updateContext] writes: the context and the update instant. *)
Lemma updateContext_Done sessionId ups now st session r st' :
  live sessionId now st session ->
  updateContext sessionId (JObj ups) now st = Done r st' ->
  exists ctx,
    merge_entries (fun t x => deepMerge t x) (JObj (context session)) ups
      (context session) = Merged ctx
    /\ r = Some (with_updatedAt now (with_context ctx session))
    /\ st' = sessions_set sessionId
               (with_updatedAt now (with_context ctx session)) st.
Proof.
  intros Hlive. unfold updateContext. rewrite Hlive.
  change (deepMerge (JObj (context session)) (JObj ups))
    with (merge_entries (fun t x => deepMerge t x) (JObj (context session))
            ups (context session)).
  destruct (merge_entries _ _ ups _) as [ctx| |]; try discriminate.
  intros E. inversion E. eauto.
Qed.

(** X22: [updateContext] leaves alone what the update does not name.
    Every context entry whose key is not among the keys of the update
    keeps its value, a key of the update whose value is not an object (or
    whose entry in the context is not) takes the value of the update, and
    state, personas and metadata of the session are as they were. *)
Theorem updateContext_touches_named_keys_only sessionId ups now st session
    r st' :
  live sessionId now st session ->
  distinct_keys ups = true ->
  updateContext sessionId (JObj ups) now st = Done r st' ->
  exists updated,
    r = Some updated
    /\ sessions st' !! sessionId = Some updated
    /\ state updated = state session
    /\ personas updated = personas session
    /\ metadata updated = metadata session
    /\ (forall k, obj_has k ups = false ->
                  obj_get k (context updated) = obj_get k (context session))
    /\ (forall k x, In (k, x) ups ->
                    typeof_object x
                    && typeof_object (obj_get k (context session)) = false ->
                    obj_get k (context updated) = x).
Proof.
  intros Hlive Hd H.
  destruct (updateContext_Done _ _ _ _ _ _ _ Hlive H)
    as (ctx & Hm & -> & ->).
  destruct (merge_entries_get _ _ _ Hd _ _ Hm) as [Hout Hin].
  eexists. split; [reflexivity|]. split; [simpl; apply lookup_insert_eq|].
  repeat split; [exact Hout|].
  intros k x Hkx Hty. specialize (Hin k x Hkx).
  change (spread (JObj (context session))) with (context session) in Hin.
  rewrite andb_comm in Hty. now rewrite Hty in Hin.
Qed.

Lemma updateContext_touches_named_keys_only_witness :
  exists r st',
    live "s1" 2000 created entrance_session
    /\ distinct_keys [("plotProgression", JNum 3)] = true
    /\ updateContext "s1" (JObj [("plotProgression", JNum 3)]) 2000 created
       = Done r st'
    /\ exists updated,
         r = Some updated
         /\ sessions st' !! "s1" = Some updated
         /\ state updated = state entrance_session
         /\ personas updated = personas entrance_session
         /\ metadata updated = metadata entrance_session
         /\ (forall k, obj_has k [("plotProgression", JNum 3)] = false ->
                       obj_get k (context updated)
                       = obj_get k (context entrance_session))
         /\ (forall k x, In (k, x) [("plotProgression", JNum 3)] ->
                         typeof_object x
                         && typeof_object
                              (obj_get k (context entrance_session)) = false ->
                         obj_get k (context updated) = x).
Proof.
  assert (Hl : live "s1" 2000 created entrance_session)
    by (vm_compute; reflexivity).
  assert (H : exists r st',
            updateContext "s1" (JObj [("plotProgression", JNum 3)]) 2000
              created = Done r st')
    by (do 2 eexists; vm_compute; reflexivity).
  destruct H as (r & st' & H). exists r, st'.
  split; [exact Hl|]. split; [reflexivity|]. split; [exact H|].
  exact (updateContext_touches_named_keys_only "s1"
           [("plotProgression", JNum 3)] 2000 created entrance_session r st'
           Hl eq_refl H).
Defined.

(** X23: [updateContext] turns what it merges into plain objects. When the
    update names a key with an object value (an array included) and the
    context holds an object, an array or a [Map] under that key, the entry
    the session ends up with is a plain object, the merge of the two:
    never an array, never a [Map]. *)
Theorem updateContext_flattens_what_it_merges sessionId ups k x now st
    session r st' :
  live sessionId now st session ->
  distinct_keys ups = true ->
  In (k, x) ups ->
  typeof_object x = true ->
  typeof_object (obj_get k (context session)) = true ->
  updateContext sessionId (JObj ups) now st = Done r st' ->
  exists updated o,
    r = Some updated
    /\ sessions st' !! sessionId = Some updated
    /\ deepMerge (obj_get k (context session)) x = Merged o
    /\ obj_get k (context updated) = JObj o.
Proof.
  intros Hlive Hd Hkx Hx Hc H.
  destruct (updateContext_Done _ _ _ _ _ _ _ Hlive H)
    as (ctx & Hm & -> & ->).
  destruct (merge_entries_get _ _ _ Hd _ _ Hm) as [_ Hin].
  specialize (Hin k x Hkx).
  change (spread (JObj (context session))) with (context session) in Hin. rewrite Hc, Hx in Hin.
  destruct Hin as (o & Ho & Hget).
  eexists. exists o. split; [reflexivity|].
  split; [simpl; apply lookup_insert_eq|]. split; [exact Ho|exact Hget].
Qed.

Lemma updateContext_flattens_what_it_merges_witness :
  exists r st',
    live "s1" 2000 created entrance_session
    /\ distinct_keys new_threads = true
    /\ In ("activeThreads", JArr [JStr "the missing key"]) new_threads
    /\ typeof_object (JArr [JStr "the missing key"]) = true
    /\ typeof_object (obj_get "activeThreads" (context entrance_session))
       = true
    /\ updateContext "s1" (JObj new_threads) 2000 created = Done r st'
    /\ exists updated o,
         r = Some updated
         /\ sessions st' !! "s1" = Some updated
         /\ deepMerge (obj_get "activeThreads" (context entrance_session))
              (JArr [JStr "the missing key"]) = Merged o
         /\ obj_get "activeThreads" (context updated) = JObj o.
Proof.
  assert (Hl : live "s1" 2000 created entrance_session)
    by (vm_compute; reflexivity).
  assert (Hin : In ("activeThreads", JArr [JStr "the missing key"])
                  new_threads) by (now left).
  assert (H : exists r st',
            updateContext "s1" (JObj new_threads) 2000 created = Done r st')
    by (do 2 eexists; vm_compute; reflexivity).
  destruct H as (r & st' & H). exists r, st'.
  split; [exact Hl|]. split; [reflexivity|]. split; [exact Hin|].
  split; [reflexivity|]. split; [reflexivity|]. split; [exact H|].
  exact (updateContext_flattens_what_it_merges "s1" new_threads
           "activeThreads" (JArr [JStr "the missing key"]) 2000 created
           entrance_session r st' Hl eq_refl Hin eq_refl eq_refl H).
Defined.

(** X24: a context update that names the character states breaks the
    export. The [Map] of character states is merged into a plain object,
    which [Object.fromEntries] cannot iterate: on the store the update
    leaves, for as long as the session lives, [exportSession] throws, and
    so does the engine's [saveGame], after it has added its save point to
    the session. *)
Theorem updateContext_of_characterStates_breaks_export sessionId ups x now
    now' st session r st' savePointId description :
  live sessionId now' st session -> now <= now' ->
  distinct_keys ups = true ->
  In ("characterStates", x) ups ->
  typeof_object x = true ->
  typeof_object (obj_get "characterStates" (context session)) = true ->
  updateContext sessionId (JObj ups) now st = Done r st' ->
  exportSession sessionId now' st' = Threw st'
  /\ exists st'' saved,
       EngineChannels.saveGame savePointId sessionId description now' st'
       = Threw st''
       /\ sessions st'' !! sessionId = Some saved
       /\ In savePointId (List.map sp_id (savePoints (metadata saved))).
Proof.
  intros Hlive' Hle Hd Hkx Hx Hc H.
  pose proof (live_earlier _ _ _ _ _ Hlive' Hle) as Hlive.
  destruct (updateContext_Done _ _ _ _ _ _ _ Hlive H)
    as (ctx & Hm & -> & ->).
  destruct (merge_entries_get _ _ _ Hd _ _ Hm) as [_ Hin].
  specialize (Hin _ x Hkx).
  change (spread (JObj (context session))) with (context session) in Hin.
  rewrite Hc, Hx in Hin. destruct Hin as (o & _ & Hget).
  set (updated := with_updatedAt now (with_context ctx session)) in *.
  pose proof (live_sessions_set sessionId now' st session updated Hlive')
    as Hup.
  split.
  - unfold exportSession. rewrite Hup.
    change (context updated) with ctx. now rewrite Hget.
  - unfold EngineChannels.saveGame, createSavePoint. rewrite Hup.
    set (saved := with_updatedAt now' _).
    unfold exportSession.
    rewrite (live_sessions_set sessionId now' _ updated saved Hup).
    change (context saved) with ctx. rewrite Hget.
    exists (sessions_set sessionId saved (sessions_set sessionId updated st)).
    exists saved. split; [reflexivity|].
    split; [simpl; apply lookup_insert_eq|].
    subst saved. cbn [metadata with_updatedAt with_metadata savePoints
                        with_savePoints].
    rewrite map_app, in_app_iff. right. now left.
Qed.

Lemma updateContext_of_characterStates_breaks_export_witness :
  exists r st',
    live "s1" 3000 created entrance_session /\ 2000 <= 3000
    /\ distinct_keys new_threads = true
    /\ In ("characterStates",
           JObj [("butler", JObj [("mood", JStr "uneasy")])]) new_threads
    /\ typeof_object (JObj [("butler", JObj [("mood", JStr "uneasy")])])
       = true
    /\ typeof_object (obj_get "characterStates" (context entrance_session))
       = true
    /\ updateContext "s1" (JObj new_threads) 2000 created = Done r st'
    /\ exportSession "s1" 3000 st' = Threw st'
    /\ exists st'' saved,
         EngineChannels.saveGame "save1" "s1" "Manual save" 3000 st'
         = Threw st''
         /\ sessions st'' !! "s1" = Some saved
         /\ In "save1" (List.map sp_id (savePoints (metadata saved))).
Proof.
  assert (Hl : live "s1" 3000 created entrance_session)
    by (vm_compute; reflexivity).
  assert (Hin : In ("characterStates",
                    JObj [("butler", JObj [("mood", JStr "uneasy")])])
                  new_threads) by (right; now left).
  assert (H : exists r st',
            updateContext "s1" (JObj new_threads) 2000 created = Done r st')
    by (do 2 eexists; vm_compute; reflexivity).
  destruct H as (r & st' & H). exists r, st'.
  split; [exact Hl|]. split; [lia|]. split; [reflexivity|].
  split; [exact Hin|]. split; [reflexivity|]. split; [reflexivity|].
  split; [exact H|].
  exact (updateContext_of_characterStates_breaks_export "s1" new_threads
           (JObj [("butler", JObj [("mood", JStr "uneasy")])]) 2000 3000
           created entrance_session r st' "save1" "Manual save" Hl
           ltac:(lia) eq_refl Hin eq_refl eq_refl H).
Defined.

End ContextProps.

(* ===================================================================== *)
(** * Properties of the channel router and of the engine's use of it      *)
(* ===================================================================== *)

Module ChannelProps.
Import JS Types Codec Omnichannel.

Lemma getAdapter_Some channel a :
  getAdapter channel = Some a ->
  channel = match a with
            | TextChannelAdapter => "text"
            | VoiceChannelAdapter => "voice"
            | VisualChannelAdapter => "visual"
            | HybridChannelAdapter => "hybrid"
            end.
Proof.
  unfold getAdapter.
  destruct (String.eqb channel "text") eqn:E1;
    [apply String.eqb_eq in E1; intros H; inversion H; now subst|].
  destruct (String.eqb channel "voice") eqn:E2;
    [apply String.eqb_eq in E2; intros H; inversion H; now subst|].
  destruct (String.eqb channel "visual") eqn:E3;
    [apply String.eqb_eq in E3; intros H; inversion H; now subst|].
  destruct (String.eqb channel "hybrid") eqn:E4;
    [apply String.eqb_eq in E4; intros H; inversion H; now subst|].
  discriminate.
Qed.

(** X25: a message is answered for the channel it was resolved to: the
    preferred channel, else the channel bound to its session, else the
    default channel (an empty channel name counting as none). A message
    that carries its content is delivered exactly when that channel has an
    adapter; no fallback channel is tried. *)
Theorem routeMessage_answers_for_the_resolved_channel message
    preferredChannel now later r :
  reads_missing_content (msg_content message) = false ->
  let response := routeMessage message preferredChannel now later r in
  let channel := resolve preferredChannel (msg_sessionId message) r in
  response_channel response = channel
  /\ success response = bool_decide (is_Some (getAdapter channel))
  /\ (success response = false ->
      error response = Some (Text "No adapter available for channel")).
Proof.
  intros Hc response channel. subst response. unfold routeMessage.
  fold channel.
  destruct (getAdapter channel) as [a|] eqn:Ha.
  - apply getAdapter_Some in Ha. rewrite Ha.
    destruct a; unfold send, send_text, send_voice, send_visual,
      send_hybrid, send_text, send_voice, send_visual;
      rewrite ?Hc, ?andb_false_r; simpl; repeat split; discriminate.
  - simpl. repeat split.
Qed.

Lemma routeMessage_answers_for_the_resolved_channel_witness :
  let message :=
    mkChannelMessage "text" (JStr "Welcome.") "s1" None None None in
  let r := switchChannel "s1" "hybrid" (new_Router None) in
  reads_missing_content (msg_content message) = false
  /\ response_channel (routeMessage message None 10 12 r)
     = resolve None "s1" r
  /\ success (routeMessage message None 10 12 r)
     = bool_decide (is_Some (getAdapter (resolve None "s1" r)))
  /\ (success (routeMessage message None 10 12 r) = false ->
      error (routeMessage message None 10 12 r)
      = Some (Text "No adapter available for channel")).
Proof.
  intros message r. split; [reflexivity|].
  exact (routeMessage_answers_for_the_resolved_channel message None 10 12 r
           eq_refl).
Defined.

(** X26: [switchChannel] binds the session to the new channel without
    asking whether the channel has an adapter (as [startSession] does): if
    it has none, every message of the session that names no preferred
    channel fails from then on. *)
Theorem switchChannel_binds_without_an_adapter sessionId newChannel message
    now later r :
  newChannel <> "" ->
  getAdapter newChannel = None ->
  msg_sessionId message = sessionId ->
  routeMessage message None now later (switchChannel sessionId newChannel r)
  = mkChannelResponse false None newChannel 0
      (Some (Text "No adapter available for channel")).
Proof.
  intros Hne Hnone Hid. unfold routeMessage, resolve, getSessionChannel.
  rewrite Hid. unfold switchChannel, setSessionChannel. cbn [activeSessions].
  rewrite lookup_insert_eq. unfold Persona.str_or.
  apply String.eqb_neq in Hne. rewrite Hne, Hnone. reflexivity.
Qed.

Lemma switchChannel_binds_without_an_adapter_witness :
  "telepathy" <> "" /\ getAdapter "telepathy" = None
  /\ routeMessage
       (mkChannelMessage "text" (JStr "Welcome.") "s1" None None None) None
       10 12 (switchChannel "s1" "telepathy" (new_Router None))
     = mkChannelResponse false None "telepathy" 0
         (Some (Text "No adapter available for channel")).
Proof.
  assert (H : "telepathy" <> "") by discriminate.
  split; [exact H|]. split; [reflexivity|].
  exact (switchChannel_binds_without_an_adapter "s1" "telepathy"
           (mkChannelMessage "text" (JStr "Welcome.") "s1" None None None)
           10 12 (new_Router None) H eq_refl eq_refl).
Defined.

(** X27: after [endSession] the messages of the session that name no
    preferred channel go to the default channel, and the channel of every
    other session is what it was. *)
Theorem endSession_returns_to_the_default_channel sessionId k r :
  resolve None k (endSession sessionId r)
  = if decide (k = sessionId) then defaultChannel r else resolve None k r.
Proof.
  unfold resolve, getSessionChannel, endSession. cbn [Persona.str_or].
  destruct (activeSessions r !! sessionId) as [c|] eqn:Hc.
  - destruct (String.eqb c "") eqn:E.
    + apply String.eqb_eq in E. subst c.
      destruct (decide (k = sessionId)) as [->|]; [|reflexivity].
      now rewrite Hc.
    + cbn [activeSessions defaultChannel].
      destruct (decide (k = sessionId)) as [->|Hne].
      * now rewrite lookup_delete_eq.
      * now rewrite lookup_delete_ne.
  - destruct (decide (k = sessionId)) as [->|]; [|reflexivity].
    now rewrite Hc.
Qed.

End ChannelProps.

Module EngineChannelProps.
Import JS Types Codec SessionManager Engine Spec SessionProps SessionExtras
       EngineExtras EngineChannels.

(** The expiry entry of a session is written when the session is created
    and goes only with the session. *)
Lemma setVariable_keeps_expiry sessionId key v now st e :
  (sessions st !! sessionId = None
   \/ sessionExpiry st !! sessionId = Some e) ->
  sessions (setVariable sessionId key v now st) !! sessionId = None
  \/ sessionExpiry (setVariable sessionId key v now st) !! sessionId = Some e.
Proof.
  intros H. unfold setVariable.
  destruct (getSession_cases sessionId now st)
    as [[E _]|[(s0 & e0 & E & _)|(s0 & E & Hs0)]]; rewrite E.
  - exact H.
  - left. rewrite deleteSession_lookup.
    now destruct (decide (sessionId = sessionId)).
  - right. simpl. destruct H as [H|H]; [congruence|exact H].
Qed.

Lemma getSession_keeps_expiry sessionId k now st e :
  (sessions st !! sessionId = None
   \/ sessionExpiry st !! sessionId = Some e) ->
  sessions (snd (getSession k now st)) !! sessionId = None
  \/ sessionExpiry (snd (getSession k now st)) !! sessionId = Some e.
Proof.
  intros H.
  destruct (getSession_cases k now st)
    as [[E _]|[(s0 & e0 & E & _)|(s0 & E & _)]]; rewrite E; cbn [snd];
    [exact H| |exact H].
  rewrite deleteSession_lookup. destruct (decide (k = sessionId)) as [->|Hne].
  - now left.
  - simpl. rewrite lookup_delete_ne by exact Hne. exact H.
Qed.

(** What a started session looks like in the world [startSession] leaves. *)
Lemma startSession_registered sessionId uuids storyId playerId channel
    playerVariables now draws w session content draws' w' :
  Engine.startSession sessionId uuids storyId playerId channel
    playerVariables now draws w = Some (Some (session, content), draws', w') ->
  activeSessions w' !! sessionId = Some session
  /\ (sessions (sessionManager w') !! sessionId = None
      \/ sessionExpiry (sessionManager w') !! sessionId
         = Some (now + DEFAULT_EXPIRY_MS)).
Proof.
  unfold Engine.startSession.
  destruct (stories w !! storyId) as [story|]; [|discriminate].
  destruct (fold_left _ (story_personas story) _) as [ps pm].
  unfold createSession.
  set (session0 := {| id := sessionId |}).
  set (st0 := sessionExpiry_set sessionId _ _).
  assert (H0 : sessions st0 !! sessionId = None
               \/ sessionExpiry st0 !! sessionId
                  = Some (now + DEFAULT_EXPIRY_MS)).
  { right. subst st0. simpl. apply lookup_insert_eq. }
  assert (Hvars : forall vars st,
            (sessions st !! sessionId = None
             \/ sessionExpiry st !! sessionId
                = Some (now + DEFAULT_EXPIRY_MS)) ->
            let st' := fold_left (fun st kv => setVariable sessionId (fst kv)
                                                 (snd kv) now st) vars st in
            sessions st' !! sessionId = None
            \/ sessionExpiry st' !! sessionId
               = Some (now + DEFAULT_EXPIRY_MS)).
  { induction vars as [|kv r IH]; intros st Hst; simpl; [exact Hst|].
    apply IH. now apply setVariable_keeps_expiry. }
  specialize (Hvars (default [] playerVariables) st0 H0). simpl in Hvars.
  set (st1 := fold_left _ (default [] playerVariables) st0) in *.
  destruct (story_node (startingNode story) story) as [node|];
    [|discriminate].
  destruct (renderNode session0 node now draws _) as [c d w1| |] eqn:Hr;
    try discriminate.
  intros E. inversion E; subst. clear E.
  cbn [activeSessions sessionManager with_activeSessions].
  split; [apply lookup_insert_eq|].
  apply renderNode_sessionManager in Hr as [Hr|Hr]; rewrite Hr.
  - exact Hvars.
  - now apply getSession_keeps_expiry.
Qed.

(** X28: a session that is ended after it has expired is never released.
    [endSession] finds no session to end (the read has just evicted it
    from the session store), so the entry of the session in the engine's
    table of active sessions stays, the count of active sessions that
    [getStats] reports does not go down, and the router keeps the channel
    it has bound to the session. *)
Theorem endSession_after_expiry_releases_nothing sessionId uuids storyId
    playerId channel playerVariables now draws sys session content draws'
    sys' now' :
  EngineChannels.startSession sessionId uuids storyId playerId channel
    playerVariables now draws sys
  = Some (Some (session, content), draws', sys') ->
  0 <= now -> now + DEFAULT_EXPIRY_MS < now' ->
  let ended := endSession sessionId now' sys' in
  activeSessions (world ended) !! sessionId = Some session
  /\ stat_activeSessions (getStats ended) = stat_activeSessions (getStats sys')
  /\ router ended = router sys'
  /\ sessions (sessionManager (world ended)) !! sessionId = None.
Proof.
  unfold EngineChannels.startSession.
  destruct (Engine.startSession _ _ _ _ _ _ _ _ _)
    as [[[[[s c]|] d] w']|] eqn:Hs; try discriminate.
  intros E Hnow Hlate. inversion E; subst. clear E.
  apply startSession_registered in Hs as [Hact Hexp].
  cbv zeta. unfold endSession. cbn [world router].
  assert (Hgone :
    exists st, getSession sessionId now' (sessionManager w') = (None, st)
               /\ sessions st !! sessionId = None).
  { unfold DEFAULT_EXPIRY_MS in *.
    destruct (getSession_cases sessionId now' (sessionManager w'))
      as [[E Hn]|[(s0 & e0 & E & _)|(s0 & E & Hs0)]].
    - eauto.
    - eexists. split; [exact E|]. rewrite deleteSession_lookup.
      now destruct (decide (sessionId = sessionId)).
    - exfalso. destruct Hexp as [Hexp|Hexp]; [congruence|].
      revert E. unfold getSession. rewrite Hs0, Hexp.
      match goal with
      | |- context [negb ?a && ?b] =>
          replace (negb a && b) with true; [discriminate|]
      end.
      symmetry. apply andb_true_iff. split.
      + apply negb_true_iff, Z.eqb_neq. lia.
      + apply Z.ltb_lt. lia. }
  destruct Hgone as (st & -> & Hst).
  cbn [world router with_sessionManager activeSessions sessionManager].
  repeat split; assumption.
Qed.

Lemma endSession_after_expiry_releases_nothing_witness :
  exists session content draws' sys',
    EngineChannels.startSession "s1" EngineExamples.uuids "mystery_manor"
      "player_1" "text" None 1000 [] system0
    = Some (Some (session, content), draws', sys')
    /\ 0 <= 1000 /\ 1000 + DEFAULT_EXPIRY_MS < 700000000
    /\ activeSessions (world (endSession "s1" 700000000 sys')) !! "s1"
       = Some session
    /\ stat_activeSessions (getStats (endSession "s1" 700000000 sys'))
       = stat_activeSessions (getStats sys')
    /\ router (endSession "s1" 700000000 sys') = router sys'
    /\ sessions (sessionManager (world (endSession "s1" 700000000 sys')))
         !! "s1" = None.
Proof.
  assert (H : exists session content draws' sys',
            EngineChannels.startSession "s1" EngineExamples.uuids
              "mystery_manor" "player_1" "text" None 1000 [] system0
            = Some (Some (session, content), draws', sys'))
    by (do 4 eexists; vm_compute; reflexivity).
  destruct H as (session & content & draws' & sys' & H).
  assert (Hl : 1000 + DEFAULT_EXPIRY_MS < 700000000)
    by (unfold DEFAULT_EXPIRY_MS; lia).
  exists session, content, draws', sys'.
  split; [exact H|]. split; [lia|]. split; [exact Hl|].
  exact (endSession_after_expiry_releases_nothing "s1" EngineExamples.uuids
           "mystery_manor" "player_1" "text" None 1000 [] system0 session
           content draws' sys' 700000000 H ltac:(lia) Hl).
Defined.

End EngineChannelProps.

(* ===================================================================== *)
(** * Properties of the cache                                             *)
(* ===================================================================== *)

Module CacheProps.
Import AdvancedCache.

Section CacheFacts.
Context {T : Type}.
Implicit Types c : Cache T.

Lemma without_In key k (l : list string) :
  In k (without key l) <-> k <> key /\ In k l.
Proof.
  unfold without. rewrite filter_In, negb_true_iff, String.eqb_neq. tauto.
Qed.

Lemma counts_delete_keys key k (l : list (string * Z)) :
  In k (List.map fst (counts_delete key l))
  <-> k <> key /\ In k (List.map fst l).
Proof.
  unfold counts_delete. rewrite !in_map_iff. split.
  - intros ([k' n] & <- & Hin). apply filter_In in Hin as [Hin Hne].
    simpl in *. apply negb_true_iff, String.eqb_neq in Hne.
    split; [exact Hne|]. exists (k', n). auto.
  - intros (Hne & [k' n] & <- & Hin). exists (k', n). split; [reflexivity|].
    apply filter_In. split; [exact Hin|].
    now apply negb_true_iff, String.eqb_neq.
Qed.

Lemma counts_set_keys key n k (l : list (string * Z)) :
  In k (List.map fst (counts_set key n l))
  <-> k = key \/ In k (List.map fst l).
Proof.
  induction l as [|[k0 m] r IH]; simpl.
  - intuition.
  - destruct (String.eqb key k0) eqn:E; simpl.
    + apply String.eqb_eq in E. subst. intuition.
    + rewrite IH. intuition.
Qed.

Lemma least_used_key (l : list (string * Z)) : forall minCount keyToEvict,
  least_used l minCount keyToEvict = keyToEvict
  \/ exists key, least_used l minCount keyToEvict = Some key
                 /\ In key (List.map fst l).
Proof.
  induction l as [|[k n] r IH]; intros m e; simpl; [now left|].
  destruct (match m with Some least => n <? least | None => true end).
  - right. destruct (IH (Some n) (Some k)) as [->|(key & -> & Hin)]; eauto.
  - destruct (IH m e) as [->|(key & -> & Hin)]; eauto.
Qed.

Lemma least_used_found (l : list (string * Z)) :
  l <> [] ->
  exists key, least_used l None None = Some key /\ In key (List.map fst l).
Proof.
  destruct l as [|[k n] r]; [congruence|]. intros _. simpl.
  destruct (least_used_key r (Some n) (Some k)) as [->|(key & -> & Hin)];
    eauto.
Qed.

(** ** The invariant *)

Lemma consistent_empty (m t : Z) (p : string) :
  consistent (@mkCache T ∅ m t p [] []).
Proof.
  unfold consistent. cbn [cache accessOrder accessCounts List.map].
  split; [|split; [|apply lookup_empty]]; intros k; split;
    [intros []|intros [e He]; rewrite lookup_empty in He; discriminate
    |intros []|intros [e He]; rewrite lookup_empty in He; discriminate].
Qed.

Lemma delete_consistent key c :
  consistent c -> consistent (snd (delete key c)).
Proof.
  intros (Ho & Hc & He). unfold delete. cbn [snd]. repeat split; simpl.
  - rewrite without_In, lookup_delete_is_Some, Ho. intuition.
  - rewrite lookup_delete_is_Some, <- Ho. intros [Hne Hin].
    apply without_In. auto.
  - rewrite counts_delete_keys, lookup_delete_is_Some, Hc. intuition.
  - rewrite lookup_delete_is_Some, <- Hc. intros [Hne Hin].
    apply counts_delete_keys. auto.
  - destruct (decide (key = "")) as [->|Hne].
    + apply lookup_delete_eq.
    + now rewrite lookup_delete_ne.
Qed.

Lemma delete_size key c :
  is_Some (cache c !! key) ->
  size (cache (snd (delete key c))) = Nat.pred (size (cache c)).
Proof. intros H. unfold delete. simpl. now apply map_size_delete_Some. Qed.

(** An eviction from a cache that holds something takes one entry out. *)
Lemma evict_spec c :
  consistent c -> known_priority (priority c) = true ->
  consistent (evict c)
  /\ size (cache (evict c)) = Nat.pred (size (cache c))
  /\ maxSize (evict c) = maxSize c
  /\ priority (evict c) = priority c
  /\ ttl (evict c) = ttl c.
Proof.
  intros Hcons Hp. pose proof Hcons as (Ho & Hc & He). unfold evict.
  destruct (accessOrder c) as [|first others] eqn:Horder.
  - split; [exact Hcons|]. split; [|repeat split].
    assert (Hempty : cache c = ∅).
    { apply map_empty. intros k. apply eq_None_not_Some. rewrite <- Ho.
      intros []. }
    rewrite Hempty, map_size_empty. reflexivity.
  - assert (Hfirst : is_Some (cache c !! first)) by (apply Ho; now left).
    assert (Hne : first <> "").
    { intros ->. rewrite He in Hfirst. now destruct Hfirst. }
    assert (Hshift :
      let c1 := snd (delete first
                       (mkCache (cache c) (maxSize c) (ttl c) (priority c)
                          others (accessCounts c))) in
      consistent c1
      /\ size (cache c1) = Nat.pred (size (cache c))
      /\ maxSize c1 = maxSize c
      /\ priority c1 = priority c
      /\ ttl c1 = ttl c).
    { unfold delete. cbn [snd cache accessOrder accessCounts maxSize priority
                            ttl].
      split; [|split; [now apply map_size_delete_Some|repeat split]].
      repeat split; simpl.
      - rewrite without_In, lookup_delete_is_Some, <- Ho. intros [H1 H2].
        split; [congruence|now right].
      - rewrite lookup_delete_is_Some, <- Ho. intros [H1 [H2|H2]];
          [congruence|]. apply without_In. split; [congruence|exact H2].
      - rewrite counts_delete_keys, lookup_delete_is_Some, Hc. intuition.
      - rewrite lookup_delete_is_Some, <- Hc. intros [H1 H2].
        apply counts_delete_keys. split; [congruence|exact H2].
      - now rewrite lookup_delete_ne. }
    apply String.eqb_neq in Hne.
    destruct (String.eqb (priority c) "lru") eqn:E1.
    { cbn [priority]. rewrite Hne. exact Hshift. }
    destruct (String.eqb (priority c) "lfu") eqn:E2.
    { assert (Hnonempty : accessCounts c <> []).
      { intros Hnil. apply Hc in Hfirst. rewrite Hnil in Hfirst.
        destruct Hfirst. }
      destruct (least_used_found _ Hnonempty) as (key & -> & Hkey).
      assert (Hin : is_Some (cache c !! key)) by now apply Hc.
      assert (Hk : String.eqb key "" = false).
      { apply String.eqb_neq. intros ->. rewrite He in Hin.
        now destruct Hin. }
      rewrite Hk. split; [now apply delete_consistent|].
      split; [now apply delete_size|repeat split]. }
    destruct (String.eqb (priority c) "fifo") eqn:E3.
    { cbn [priority]. rewrite Hne. exact Hshift. }
    unfold known_priority in Hp. rewrite E1, E2, E3 in Hp. discriminate.
Qed.

Lemma set_spec key value o_ttl now c :
  consistent c -> known_priority (priority c) = true -> key <> "" ->
  Z.of_nat (size (cache c)) <= Z.max 1 (maxSize c) ->
  consistent (set key value o_ttl now c)
  /\ Z.of_nat (size (cache (set key value o_ttl now c)))
     <= Z.max 1 (maxSize c)
  /\ maxSize (set key value o_ttl now c) = maxSize c
  /\ priority (set key value o_ttl now c) = priority c
  /\ ttl (set key value o_ttl now c) = ttl c.
Proof.
  intros Hcons Hp Hkey Hsize. unfold set.
  set (c1 := if maxSize c <=? Z.of_nat (size (cache c)) then evict c else c).
  assert (H1 : consistent c1
               /\ (Z.of_nat (size (cache c1)) < Z.max 1 (maxSize c)
                   \/ size (cache c1) = 0%nat)
               /\ maxSize c1 = maxSize c /\ priority c1 = priority c
               /\ ttl c1 = ttl c).
  { subst c1. destruct (maxSize c <=? Z.of_nat (size (cache c))) eqn:E.
    - destruct (evict_spec c Hcons Hp) as (Hc1 & Hs1 & Hf).
      split; [exact Hc1|]. split; [|exact Hf].
      rewrite Hs1. destruct (size (cache c)) as [|n]; [now right|].
      left. simpl Nat.pred. lia.
    - apply Z.leb_gt in E. split; [exact Hcons|].
      split; [left; lia|repeat split]. }
  destruct H1 as ((Ho & Hc & He) & Hs1 & Hm & Hpr & Ht).
  unfold consistent.
  cbn [cache accessOrder accessCounts maxSize priority ttl].
  split; [|split; [|repeat split; assumption]].
  - repeat split.
    + rewrite in_app_iff, lookup_insert_is_Some, Ho. simpl.
      intros [H|[<-|[]]]; [|now left].
      destruct (decide (key = k)); [now left|now right].
    + rewrite in_app_iff, lookup_insert_is_Some, <- Ho. simpl.
      intros [<-|[_ H]]; auto.
    + rewrite counts_set_keys, lookup_insert_is_Some, Hc.
      intros [->|H]; [now left|].
      destruct (decide (key = k)); [now left|now right].
    + rewrite counts_set_keys, lookup_insert_is_Some, <- Hc.
      intros [<-|[_ H]]; auto.
    + rewrite lookup_insert_ne by exact Hkey. exact He.
  - destruct (cache c1 !! key) as [e|] eqn:Hk.
    + rewrite map_size_insert_Some by (rewrite Hk; eauto).
      destruct Hs1 as [Hs1|Hs1]; [lia|]. rewrite Hs1. lia.
    + rewrite map_size_insert_None by exact Hk.
      destruct Hs1 as [Hs1|Hs1]; [lia|]. rewrite Hs1. lia.
Qed.

Lemma get_spec key now c :
  consistent c ->
  consistent (snd (get key now c))
  /\ (size (cache (snd (get key now c))) <= size (cache c))%nat
  /\ maxSize (snd (get key now c)) = maxSize c
  /\ priority (snd (get key now c)) = priority c
  /\ ttl (snd (get key now c)) = ttl c.
Proof.
  intros Hcons. pose proof Hcons as (Ho & Hc & He). unfold get.
  destruct (cache c !! key) as [entry|] eqn:Hk.
  2:{ cbn [snd]. split; [exact Hcons|]. split; [lia|repeat split]. }
  assert (Hsome : is_Some (cache c !! key)) by (rewrite Hk; eauto).
  destruct (expiresAt entry <? now).
  - cbn [snd]. split; [now apply delete_consistent|].
    split; [rewrite delete_size by exact Hsome; lia|repeat split].
  - unfold consistent.
    cbn [snd cache accessOrder accessCounts maxSize priority ttl
           updateAccess].
    assert (Hne : key <> "").
    { intros ->. rewrite He in Hk. discriminate. }
    split; [|split; [rewrite map_size_insert_Some by exact Hsome; lia
                    |repeat split]].
    repeat split.
    + rewrite lookup_insert_is_Some.
      destruct (String.eqb (priority c) "lru").
      * rewrite in_app_iff, without_In, Ho. simpl.
        intros [[H1 H2]|[<-|[]]]; [right; split; [congruence|exact H2]|].
        now left.
      * rewrite Ho. intros H. destruct (decide (key = k)); [now left|].
        now right.
    + rewrite lookup_insert_is_Some.
      destruct (String.eqb (priority c) "lru").
      * rewrite in_app_iff, without_In, Ho. simpl.
        intros [<-|[H1 H2]]; [right; now left|].
        left. split; [congruence|exact H2].
      * rewrite Ho. intros [<-|[_ H]]; [exact Hsome|exact H].
    + rewrite counts_set_keys, lookup_insert_is_Some, Hc.
      intros [->|H]; [now left|].
      destruct (decide (key = k)); [now left|now right].
    + rewrite counts_set_keys, lookup_insert_is_Some, <- Hc.
      intros [<-|[_ H]]; auto.
    + rewrite lookup_insert_ne by exact Hne. exact He.
Qed.

Lemma prewarm_spec entries now : forall c,
  consistent c -> known_priority (priority c) = true ->
  (forall k, In k (List.map fst entries) -> k <> "") ->
  Z.of_nat (size (cache c)) <= Z.max 1 (maxSize c) ->
  consistent (prewarm entries now c)
  /\ Z.of_nat (size (cache (prewarm entries now c))) <= Z.max 1 (maxSize c)
  /\ maxSize (prewarm entries now c) = maxSize c
  /\ priority (prewarm entries now c) = priority c.
Proof.
  unfold prewarm.
  induction entries as [|[k v] r IH]; intros c Hcons Hp Hkeys Hsize;
    cbn [fold_left fst snd].
  - auto.
  - destruct (set_spec k v (Some (ttl c * 2)) now c Hcons Hp)
      as (Hc1 & Hs1 & Hm1 & Hp1 & _);
      [apply Hkeys; now left|exact Hsize|].
    destruct (IH (set k v (Some (ttl c * 2)) now c)) as (Hc2 & Hs2 & Hm2 & Hp2).
    + exact Hc1.
    + now rewrite Hp1.
    + intros k' Hk'. apply Hkeys. now right.
    + now rewrite Hm1.
    + rewrite Hm1 in Hs2, Hm2. rewrite Hp1 in Hp2. auto.
Qed.

Lemma exec_spec op now c :
  consistent c -> known_priority (priority c) = true ->
  (forall k, In k (stored_keys op) -> k <> "") ->
  Z.of_nat (size (cache c)) <= Z.max 1 (maxSize c) ->
  consistent (exec op now c)
  /\ Z.of_nat (size (cache (exec op now c))) <= Z.max 1 (maxSize c)
  /\ maxSize (exec op now c) = maxSize c
  /\ priority (exec op now c) = priority c.
Proof.
  intros Hcons Hp Hkeys Hsize. destruct op as [key|key v o|key| |entries];
    cbn [exec].
  - destruct (get_spec key now c Hcons) as (H1 & H2 & H3 & H4 & _).
    split; [exact H1|]. split; [lia|]. split; assumption.
  - destruct (set_spec key v o now c Hcons Hp) as (H1 & H2 & H3 & H4 & _);
      [apply Hkeys; now left|exact Hsize|]. auto.
  - split; [now apply delete_consistent|]. split; [|split; reflexivity].
    unfold delete. simpl. rewrite map_size_delete.
    destruct (cache c !! key); simpl; lia.
  - split; [apply consistent_empty|]. split; [|split; reflexivity].
    unfold clear. cbn [cache]. rewrite map_size_empty. lia.
  - now apply prewarm_spec.
Qed.

(** X29: an [AdvancedCache] stays within its capacity. Under each of the
    three eviction policies, and for keys other than the empty string, the
    cache never holds more than [maxSize] entries (one entry, for a
    [maxSize] below one), whatever is looked up, stored, pre-warmed, deleted
    or cleared, in whatever order and at whatever instants. *)
Theorem cache_stays_within_its_capacity o_maxSize o_ttl o_priority
    (calls : list (Z * call T)) :
  known_priority (default "lru" o_priority) = true ->
  (forall now op k, In (now, op) calls -> In k (stored_keys op) -> k <> "") ->
  Z.of_nat (size (cache (run calls (construct o_maxSize o_ttl o_priority))))
  <= Z.max 1 (default 1000 o_maxSize).
Proof.
  intros Hp Hkeys.
  assert (H : forall c : Cache T,
            consistent c -> known_priority (priority c) = true ->
            Z.of_nat (size (cache c)) <= Z.max 1 (maxSize c) ->
            Z.of_nat (size (cache (run calls c))) <= Z.max 1 (maxSize c)).
  { revert Hkeys. unfold run.
    induction calls as [|[now op] r IH]; intros Hkeys c Hcons Hpc Hsize;
      cbn [fold_left fst snd]; [exact Hsize|].
    destruct (exec_spec op now c Hcons Hpc) as (H1 & H2 & H3 & H4);
      [intros k; apply (Hkeys now op k); now left|exact Hsize|].
    rewrite <- H3. apply IH.
    - intros t o k Hin. apply (Hkeys t o k). now right.
    - exact H1.
    - now rewrite H4.
    - now rewrite H3. }
  apply (H (construct o_maxSize o_ttl o_priority)).
  - apply consistent_empty.
  - exact Hp.
  - unfold construct. cbn [cache]. rewrite map_size_empty. lia.
Qed.

Lemma evict_ttl c : ttl (evict c) = ttl c.
Proof.
  unfold evict. destruct (accessOrder c) as [|first others]; [reflexivity|].
  destruct (String.eqb (priority c) "lru").
  { destruct (String.eqb first ""); reflexivity. }
  destruct (String.eqb (priority c) "lfu").
  { destruct (least_used (accessCounts c) None None) as [key|];
      [destruct (String.eqb key "")|]; reflexivity. }
  destruct (String.eqb (priority c) "fifo");
    [destruct (String.eqb first "")|]; reflexivity.
Qed.

(** X30: an entry lives for its time to live. Read back at any instant up
    to and including the instant it was stored at plus its time to live
    (the one given, else the cache's), a key answers the value stored last;
    read later, it answers null. *)
Theorem cache_entry_lives_for_its_ttl key (value : T) o_ttl now now' c :
  fst (get key now' (set key value o_ttl now c))
  = if decide (now' <= now + default (ttl c) o_ttl) then Some value
    else None.
Proof.
  unfold set.
  set (c1 := if maxSize c <=? Z.of_nat (size (cache c)) then evict c else c).
  assert (Ht : ttl c1 = ttl c).
  { subst c1. destruct (maxSize c <=? Z.of_nat (size (cache c)));
      [apply evict_ttl|reflexivity]. }
  unfold get. cbn [cache]. rewrite lookup_insert_eq. cbn [expiresAt].
  rewrite Ht.
  destruct (decide (now' <= now + default (ttl c) o_ttl)) as [H|H].
  - replace (now + default (ttl c) o_ttl <? now') with false
      by (symmetry; apply Z.ltb_ge; lia). reflexivity.
  - replace (now + default (ttl c) o_ttl <? now') with true
      by (symmetry; apply Z.ltb_lt; lia). reflexivity.
Qed.

End CacheFacts.

Lemma cache_stays_within_its_capacity_witness :
  let calls : list (Z * call string) :=
    [(1, CacheSet "a" "one" None); (2, CacheSet "b" "two" None);
     (3, CacheGet "a"); (4, CacheSet "c" "three" (Some 50))] in
  known_priority (default "lru" (Some "lfu")) = true
  /\ (forall now op k, In (now, op) calls -> In k (stored_keys op) ->
                       k <> "")
  /\ Z.of_nat (size (cache (run calls
                              (construct (Some 2) None (Some "lfu")))))
     <= Z.max 1 (default 1000 (Some 2)).
Proof.
  intros calls.
  assert (Hk : forall now op k, In (now, op) calls ->
                                In k (stored_keys op) -> k <> "").
  { intros now op k Hin Hk.
    repeat (destruct Hin as [E|Hin];
            [inversion E; subst; simpl in Hk;
             repeat (destruct Hk as [<-|Hk]; [discriminate|]);
             destruct Hk|]).
    destruct Hin. }
  split; [reflexivity|]. split; [exact Hk|].
  exact (cache_stays_within_its_capacity (Some 2) None (Some "lfu") calls
           eq_refl Hk).
Defined.

End CacheProps.
